(** * ACM (claude-code-auth-manager): profile store, credential-kind
      resolver and activation engine

    A shallow embedding of [src/lib/config.ts] (class [ConfigManager]) and of
    [src/lib/commands.ts] (class [Commands]), followed by the properties of
    the natural-language specification that are stated about them.

    Conventions of the embedding.
    - A JavaScript string is a [string]: the UTF-8 text of the value.
    - A value of type [string | undefined] is an [option string]; [None] is
      [undefined].
    - [process.env] is a finite map from variable names to strings.
    - The three files owned by the manager are fields of the [World]; a file
      that does not exist is [None].  They live in [~/.claude], which may be
      missing: writing one of them then fails with ENOENT.
    - The home directory exists and can be written, and [os.homedir()] names
      it in normal form, so that [path.join] only puts the separator in.
    - Console output is not modelled. *)

From Stdlib Require Import Ascii ZArith DecimalString.
From stdpp Require Import base gmap list strings.

Set Warnings "-register-all".

Local Open Scope Z_scope.
Local Open Scope nat_scope.

(** ** JavaScript strings *)

Module Str.

Definition nl : ascii := "010"%char.
Definition dq : ascii := "034"%char.
Definition pipe : ascii := "|"%char.
Definition hash : ascii := "#"%char.

Definition code (c : ascii) : nat := nat_of_ascii c.

Definition chr (c : ascii) : string := String c "".

Definition length (s : string) : nat := String.length s.

(** [s] is truthy when used as a condition: it is not the empty string. *)
Definition truthy (s : string) : bool :=
  match s with "" => false | String _ _ => true end.

Fixpoint has (s : string) (c : ascii) : bool :=
  match s with
  | "" => false
  | String a r => bool_decide (a = c) || has r c
  end.

Fixpoint take (n : nat) (s : string) : string :=
  match n, s with
  | S n', String a r => String a (take n' r)
  | _, _ => ""
  end.

Fixpoint drop (n : nat) (s : string) : string :=
  match n, s with
  | S n', String _ r => drop n' r
  | _, _ => s
  end.

(** [s.startsWith(p)] *)
Fixpoint startsWith (s p : string) {struct p} : bool :=
  match p, s with
  | "", _ => true
  | String b p', String a s' => bool_decide (a = b) && startsWith s' p'
  | String _ _, "" => false
  end.

(** [s.endsWith(p)] *)
Definition endsWith (s p : string) : bool :=
  (length p <=? length s) && bool_decide (drop (length s - length p) s = p).

Fixpoint find (s needle : string) : option nat :=
  if startsWith s needle then Some 0
  else match s with
       | "" => None
       | String _ r => S <$> find r needle
       end.

(** [s.indexOf(needle)]: the first position at which [needle] occurs,
    or [-1]. *)
Definition indexOf (s needle : string) : Z :=
  match find s needle with
  | Some i => Z.of_nat i
  | None => (-1)%Z
  end.

(** [s.includes(needle)] *)
Definition includes (s needle : string) : bool :=
  bool_decide (indexOf s needle ≠ (-1)%Z).

Definition clamp (s : string) (i : Z) : nat :=
  Z.to_nat (Z.min (Z.max i 0) (Z.of_nat (length s))).

(** [s.substring(a, b)]: both indices are clamped to [0 .. s.length] and
    swapped when [a > b]. *)
Definition substring (s : string) (a b : Z) : string :=
  let a' := clamp s a in
  let b' := clamp s b in
  take (Nat.max a' b' - Nat.min a' b') (drop (Nat.min a' b') s).

(** [s.substring(a)] *)
Definition substringFrom (s : string) (a : Z) : string :=
  drop (clamp s a) s.

(** [s.split(sep)] for a one-character separator. *)
Fixpoint split (s : string) (sep : ascii) : list string :=
  match s with
  | "" => [""]
  | String a r =>
      if bool_decide (a = sep) then "" :: split r sep
      else match split r sep with
           | x :: xs => String a x :: xs
           | [] => [String a ""]
           end
  end.

(** [l.join(sep)] for a one-character separator. *)
Fixpoint join (sep : ascii) (l : list string) : string :=
  match l with
  | [] => ""
  | [x] => x
  | x :: xs => x +:+ String sep (join sep xs)
  end.

(** [s.toLowerCase()].  The simple case mapping of the ASCII letters,
    and of U+212A KELVIN SIGN (bytes E2 84 AA), the one character outside
    ASCII whose lower case is an ASCII letter of the words the resolver
    compares with.  Other characters outside ASCII are kept as they are. *)
Definition lower (c : ascii) : ascii :=
  if (65 <=? code c) && (code c <=? 90) then ascii_of_nat (code c + 32)
  else c.

Fixpoint toLowerCase (s : string) : string :=
  match s with
  | "" => ""
  | String a r =>
      match r with
      | String b (String c r') =>
          if (code a =? 226) && (code b =? 132) && (code c =? 170)
          then String "k" (toLowerCase r')
          else String (lower a) (toLowerCase r)
      | _ => String (lower a) (toLowerCase r)
      end
  end.

(** The number of bytes of the white-space or line-terminator character at
    the head of [s], [0] when there is none.  These are the characters
    [String.prototype.trim] strips: U+0009 to U+000D, U+0020, U+00A0,
    U+1680, U+2000 to U+200A, U+2028, U+2029, U+202F, U+205F, U+3000 and
    U+FEFF. *)
Definition ws1 (n : nat) : bool := ((9 <=? n) && (n <=? 13)) || (n =? 32).

Definition ws3 (n1 n2 n3 : nat) : bool :=
  ((n1 =? 225) && (n2 =? 154) && (n3 =? 128))
  || ((n1 =? 226) && (n2 =? 128)
      && (((128 <=? n3) && (n3 <=? 138)) || (n3 =? 168) || (n3 =? 169)
          || (n3 =? 175)))
  || ((n1 =? 226) && (n2 =? 129) && (n3 =? 159))
  || ((n1 =? 227) && (n2 =? 128) && (n3 =? 128))
  || ((n1 =? 239) && (n2 =? 187) && (n3 =? 191)).

Definition wsLen (s : string) : nat :=
  match s with
  | "" => 0
  | String a r =>
      if ws1 (code a) then 1
      else match r with
           | "" => 0
           | String b r' =>
               if (code a =? 194) && (code b =? 160) then 2
               else match r' with
                    | "" => 0
                    | String c _ =>
                        if ws3 (code a) (code b) (code c) then 3 else 0
                    end
           end
  end.

Fixpoint blankFuel (fuel : nat) (s : string) : bool :=
  match s with
  | "" => true
  | String _ _ =>
      match wsLen s, fuel with
      | 0, _ => false
      | _, 0 => false
      | k, S fuel' => blankFuel fuel' (drop k s)
      end
  end.

(** [s.trim()] is the empty string: [s] consists of white space only. *)
Definition blank (s : string) : bool := blankFuel (length s) s.

End Str.

(** [String(v)], the conversion a template literal applies to a value. *)
Definition toStr (v : option string) : string :=
  match v with
  | Some s => s
  | None => "undefined"
  end.

(** Truthiness of a [string | undefined]. *)
Definition truthy (v : option string) : bool :=
  match v with
  | Some s => Str.truthy s
  | None => false
  end.

(** [v || d] for a [string | undefined] and a string default. *)
Definition orElse (v : option string) (d : string) : string :=
  match v with
  | Some s => if Str.truthy s then s else d
  | None => d
  end.

(** ** commands.ts: the credential-kind resolver *)

Module Commands.

Definition tokenUrls : list string :=
  ["https://code.wenwen-ai.com"; "https://api.aicodewith.com"].

Definition keyUrls : list string :=
  ["https://api.aicodemirror.com/api/claudecode";
   "https://gaccode.com/claudecode"].

(** [array.includes(x)] on an array of strings. *)
Definition includes (l : list string) (x : string) : bool :=
  bool_decide (x ∈ l).

Definition urlRules (url : string) : string :=
  if includes tokenUrls url then "TOKEN"
  else if includes keyUrls url then "KEY"
  else "TOKEN".

Definition determineKeyType (url : string) (manualType : option string)
  : string :=
  match manualType with
  | Some m =>
      if Str.truthy m then
        let normalizedType := Str.toLowerCase m in
        if includes ["key"; "k"] normalizedType then "KEY"
        else if includes ["token"; "t"] normalizedType then "TOKEN"
        else urlRules url
      else urlRules url
  | None => urlRules url
  end.

End Commands.

(** ** types: profiles and the active pointer

    [Config] and [CurrentConfig] are declared in [src/types/index.ts].  The
    fields are [string | undefined] here because [getAllConfigs] and
    [getCurrentConfig] fill them by destructuring an array that may be short. *)

Record Config := mkConfig {
  alias : option string;
  name : option string;
  token : option string;
  url : option string;
  type : option string
}.

Record CurrentConfig := mkCurrentConfig {
  current : Config;
  isActive : bool
}.

Global Instance Config_eq_dec : EqDecision Config.
Proof. solve_decision. Defined.

(** ** JSON numbers

    [JSON.parse] reads a number literal as the nearest double, and
    [JSON.stringify] writes a double with the fewest digits that read back as
    the same double, or [null] when it is not finite. *)

Module Number.

Local Open Scope Z_scope.

(** The numeral [(-1)^neg * mant * 10^exp10]. *)
Record decimal := mkDecimal { neg : bool; mant : Z; exp10 : Z }.

(** The double [m * 2^e] with [0 ≤ m < 2^53] and [-1074 ≤ e ≤ 971], or an
    infinity. *)
Inductive double :=
| Finite (m e : Z)
| Infinite.

Global Instance double_eq_dec : EqDecision double.
Proof. solve_decision. Defined.

Definition digit (c : ascii) : option Z :=
  let n := Z.of_nat (nat_of_ascii c) in
  if (48 <=? n) && (n <=? 57) then Some (n - 48) else None.

(** The digits at the head of [s]: their value after [acc], their number
    added to [n], and the rest of [s]. *)
Fixpoint digits (s : string) (acc n : Z) : Z * Z * string :=
  match s with
  | String c r =>
      match digit c with
      | Some d => digits r (10 * acc + d) (n + 1)
      | None => (acc, n, s)
      end
  | "" => (acc, n, s)
  end.

Definition fraction (s : string) (i : Z) : option (Z * Z * string) :=
  match s with
  | String "." r =>
      let '(m, nf, s') := digits r i 0 in
      if nf =? 0 then None else Some (m, nf, s')
  | _ => Some (i, 0, s)
  end.

Definition exponent (s : string) : option (Z * string) :=
  match s with
  | String c r =>
      if bool_decide (c = "e"%char) || bool_decide (c = "E"%char) then
        let '(sg, r') := match r with
                         | String "+" r' => (1, r')
                         | String "-" r' => (-1, r')
                         | _ => (1, r)
                         end in
        let '(e, ne, s') := digits r' 0 0 in
        if ne =? 0 then None else Some (sg * e, s')
      else Some (0, s)
  | "" => Some (0, "")
  end.

(** The JSON grammar of numbers: an optional minus sign, an integer part
    without a leading zero, an optional fraction, an optional exponent. *)
Definition parse (lit : string) : option decimal :=
  let '(sgn, s) := match lit with
                   | String "-" r => (true, r)
                   | _ => (false, lit)
                   end in
  let '(i, ni, s1) := digits s 0 0 in
  if (ni =? 0) || (match s with String "0" _ => 1 <? ni | _ => false end)
  then None
  else
    '(m, nf, s2) ← fraction s1 i;
    '(e, s3) ← exponent s2;
    match s3 with
    | "" => Some (mkDecimal sgn m (e - nf))
    | String _ _ => None
    end.

(** [2^k ≤ p / q] *)
Definition geTwoTo (p q k : Z) : bool :=
  if 0 <=? k then q * 2 ^ k <=? p else q <=? p * 2 ^ (- k).

(** The integer part of the binary logarithm of [p / q]. *)
Definition ilog2 (p q : Z) : Z :=
  let e0 := Z.log2 p - Z.log2 q in
  if geTwoTo p q e0 then e0 else e0 - 1.

(** [n / d] rounded to the nearest integer, a tie to the even one. *)
Definition roundHalfEven (n d : Z) : Z :=
  let q := n / d in
  match 2 * (n mod d) ?= d with
  | Lt => q
  | Gt => q + 1
  | Eq => if Z.even q then q else q + 1
  end.

(** The double nearest to [p / q], for positive [p] and [q]. *)
Definition toDouble (p q : Z) : double :=
  let e := Z.max (ilog2 p q - 52) (-1074) in
  let m := if 0 <=? e then roundHalfEven p (q * 2 ^ e)
           else roundHalfEven (p * 2 ^ (- e)) q in
  let '(m, e) := if m =? 2 ^ 53 then (2 ^ 52, e + 1) else (m, e) in
  if 971 <? e then Infinite else Finite m e.

(** The double nearest to [s * 10^j]. *)
Definition ofDecimal (s j : Z) : double :=
  if 0 <=? j then toDouble (s * 10 ^ j) 1 else toDouble s (10 ^ (- j)).

(** [(xn / xd) / 10^j] as a fraction. *)
Definition scaled (xn xd j : Z) : Z * Z :=
  if 0 <=? j then (xn, xd * 10 ^ j) else (xn * 10 ^ (- j), xd).

(** The least [n' ≥ n] with [xn / xd < 10^n']. *)
Fixpoint magnitude (fuel : nat) (xn xd n : Z) : Z :=
  match fuel with
  | O => n
  | S fuel' =>
      let '(tn, td) := scaled xn xd n in
      if tn <? td then n else magnitude fuel' xn xd (n + 1)
  end.

(** The shortest numeral [s * 10^(n - k)], of [k] digits or more, that reads
    back as [x]; of two such numerals the one nearer to [x], the even one at
    a tie. *)
Fixpoint shortest (fuel : nat) (x : double) (xn xd n k : Z) : Z * Z :=
  let j := n - k in
  let '(tn, td) := scaled xn xd j in
  let lo := tn / td in
  let hi := lo + 1 in
  let okLo := bool_decide (ofDecimal lo j = x) in
  let okHi := bool_decide (ofDecimal hi j = x) in
  let nearest := match 2 * (tn mod td) ?= td with
                 | Lt => lo
                 | Gt => hi
                 | Eq => if Z.even lo then lo else hi
                 end in
  if okLo && okHi then (nearest, k)
  else if okLo then (lo, k)
  else if okHi then (hi, k)
  else match fuel with
       | O => (nearest, k)
       | S fuel' => shortest fuel' x xn xd n (k + 1)
       end.

Definition decimalOf (n : Z) : string :=
  NilZero.string_of_uint (N.to_uint (Z.to_N n)).

Fixpoint zeros (n : nat) : string :=
  match n with
  | O => ""
  | S n' => String "0" (zeros n')
  end.

(** [Number::toString] for the digits [s], their number [k] and the decimal
    exponent [n]: the value is [s * 10^(n - k)]. *)
Definition format (s k n : Z) : string :=
  let ds := decimalOf s in
  if (k <=? n) && (n <=? 21) then ds +:+ zeros (Z.to_nat (n - k))
  else if (0 <? n) && (n <=? 21)
  then Str.take (Z.to_nat n) ds +:+ "." +:+ Str.drop (Z.to_nat n) ds
  else if (-6 <? n) && (n <=? 0)
  then "0." +:+ zeros (Z.to_nat (- n)) +:+ ds
  else
    let e := n - 1 in
    let es := (if 0 <=? e then "+" else "-") +:+ decimalOf (Z.abs e) in
    if k =? 1 then ds +:+ "e" +:+ es
    else Str.take 1 ds +:+ "." +:+ Str.drop 1 ds +:+ "e" +:+ es.

(** The text of the positive double [m * 2^e]. *)
Definition toString (m e : Z) : string :=
  let '(xn, xd) := if 0 <=? e then (m * 2 ^ e, 1) else (m, 2 ^ (- e)) in
  let n := magnitude 5 xn xd ((Z.log2 m + e) * 30103 / 100000 - 1) in
  let '(s, k) := shortest 16 (Finite m e) xn xd n 1 in
  if s =? 10 ^ k then format 1 1 (n + 1) else format s k n.

(** What [JSON.stringify(JSON.parse(lit))] writes for a number literal:
    [None] stands for [null].  A text that is no number literal does not
    occur in a document; it is kept. *)
Definition written (lit : string) : option string :=
  match parse lit with
  | Some d =>
      if mant d =? 0 then Some "0"
      else
        match ofDecimal (mant d) (exp10 d) with
        | Infinite => None
        | Finite m e =>
            if m =? 0 then Some "0"
            else Some ((if neg d then "-" else "") +:+ toString m e)
        end
  | None => Some lit
  end.

End Number.

(** ** The settings document

    The settings file is represented by the value [JSON.parse] returns for
    its text: an object is the list of its properties, each key once, in
    the order JavaScript enumerates them; a string is its value; a number
    is the literal of the text, which stands for the double nearest to
    it. *)

Inductive json :=
| JNull
| JBool (b : bool)
| JNum (lit : string)
| JStr (s : string)
| JArr (items : list json)
| JObj (props : list (string * json)).

Module Json.

(** The value [JSON.parse] returns for the text [JSON.stringify] writes
    for a value: every number is in the form [JSON.stringify] gives it. *)
Fixpoint written (v : json) : json :=
  match v with
  | JNum lit =>
      match Number.written lit with
      | Some lit' => JNum lit'
      | None => JNull
      end
  | JArr items => JArr (List.map written items)
  | JObj props => JObj (List.map (λ kv, (kv.1, written kv.2)) props)
  | _ => v
  end.

End Json.

Module Obj.

(** [o[k]] *)
Fixpoint get (k : string) (o : list (string * json)) : option json :=
  match o with
  | [] => None
  | (k', v) :: o' => if bool_decide (k' = k) then Some v else get k o'
  end.

(** [o[k] = v]: an existing property keeps its place, a new one goes last. *)
Fixpoint set (k : string) (v : json) (o : list (string * json))
  : list (string * json) :=
  match o with
  | [] => [(k, v)]
  | (k', v') :: o' =>
      if bool_decide (k' = k) then (k, v) :: o' else (k', v') :: set k v o'
  end.

(** The properties of [o] but [k]. *)
Definition remove (k : string) (o : list (string * json))
  : list (string * json) :=
  filter (λ kv, kv.1 ≠ k) o.

(** What [JSON.stringify] keeps of [o] after [o[k] = v], where a property
    whose value is [undefined] is left out. *)
Definition assign (k : string) (v : option string) (o : list (string * json))
  : list (string * json) :=
  match v with
  | Some s => set k (JStr s) o
  | None => remove k o
  end.

End Obj.

Inductive SettingsFile :=
| NoSettings                (* the file does not exist *)
| BadSettings               (* reading it or JSON.parse throws *)
| Settings (doc : json).

(** ** The world the manager runs in *)

Record World := mkWorld {
  isWin : bool;                     (* os.platform() === 'win32' *)
  homedir : string;                 (* os.homedir() *)
  env : gmap string string;         (* process.env *)
  configFile : option string;       (* ~/.claude/.claude_config *)
  currentFile : option string;      (* ~/.claude/.claude_current *)
  settingsFile : SettingsFile;      (* ~/.claude/settings.json *)
  settingsWritable : bool;          (* writing settings.json succeeds *)
  files : gmap string string;       (* the other files, by path *)
  dirs : gset string;               (* directories, by path *)
  userEnv : gmap string string;     (* user-level variables kept by setx *)
  setxWorks : bool;                 (* running setx succeeds *)
  claudeDir : bool                  (* ~/.claude was made *)
}.

(** [~/.claude] exists: it was made, or one of its files exists. *)
Definition claudeDirExists (w : World) : bool :=
  claudeDir w
  || bool_decide (is_Some (configFile w))
  || bool_decide (is_Some (currentFile w))
  || match settingsFile w with NoSettings => false | _ => true end.

Definition withEnv (e : gmap string string) (w : World) : World :=
  mkWorld (isWin w) (homedir w) e (configFile w) (currentFile w)
    (settingsFile w) (settingsWritable w) (files w) (dirs w) (userEnv w)
    (setxWorks w) (claudeDir w).

Definition withConfigFile (c : option string) (w : World) : World :=
  mkWorld (isWin w) (homedir w) (env w) c (currentFile w)
    (settingsFile w) (settingsWritable w) (files w) (dirs w) (userEnv w)
    (setxWorks w) (claudeDir w).

Definition withCurrentFile (c : option string) (w : World) : World :=
  mkWorld (isWin w) (homedir w) (env w) (configFile w) c
    (settingsFile w) (settingsWritable w) (files w) (dirs w) (userEnv w)
    (setxWorks w) (claudeDir w).

Definition withSettingsFile (s : SettingsFile) (w : World) : World :=
  mkWorld (isWin w) (homedir w) (env w) (configFile w) (currentFile w)
    s (settingsWritable w) (files w) (dirs w) (userEnv w) (setxWorks w) (claudeDir w).

Definition withFiles (f : gmap string string) (w : World) : World :=
  mkWorld (isWin w) (homedir w) (env w) (configFile w) (currentFile w)
    (settingsFile w) (settingsWritable w) f (dirs w) (userEnv w)
    (setxWorks w) (claudeDir w).

Definition withDirs (d : gset string) (w : World) : World :=
  mkWorld (isWin w) (homedir w) (env w) (configFile w) (currentFile w)
    (settingsFile w) (settingsWritable w) (files w) d (userEnv w)
    (setxWorks w) (claudeDir w).

Definition withUserEnv (u : gmap string string) (w : World) : World :=
  mkWorld (isWin w) (homedir w) (env w) (configFile w) (currentFile w)
    (settingsFile w) (settingsWritable w) (files w) (dirs w) u
    (setxWorks w) (claudeDir w).

(** ** Computations: a state monad over the world, with exceptions

    A thrown exception keeps the effects made before it. *)

Inductive Error :=
| AliasExists (a : string)          (* 配置别名 '...' 已存在 *)
| AliasMissing (a : string)         (* 配置 '...' 不存在 *)
| TypeError                         (* property access on a non-object *)
| SettingsWriteFailed               (* 写入Claude配置文件失败 *)
| ENOENT.                           (* no such file or directory *)

Inductive Outcome (A : Type) :=
| Ok (a : A)
| Throw (e : Error).
Arguments Ok {A} a.
Arguments Throw {A} e.

Global Instance Error_eq_dec : EqDecision Error.
Proof. solve_decision. Defined.

Global Instance Outcome_eq_dec {A} `{EqDecision A} : EqDecision (Outcome A).
Proof. solve_decision. Defined.

Definition M (A : Type) : Type := World → World * Outcome A.

Definition ret {A} (a : A) : M A := λ w, (w, Ok a).

Definition bind {A B} (m : M A) (k : A → M B) : M B :=
  λ w, match m w with
       | (w', Ok a) => k a w'
       | (w', Throw e) => (w', Throw e)
       end.

Definition throw {A} (e : Error) : M A := λ w, (w, Throw e).

Definition tryCatch {A} (m : M A) (handler : Error → M A) : M A :=
  λ w, match m w with
       | (w', Ok a) => (w', Ok a)
       | (w', Throw e) => handler e w'
       end.

(** A computation that leaves the world alone. *)
Definition lift {A} (o : Outcome A) : M A := λ w, (w, o).

Definition gets {A} (f : World → A) : M A := λ w, (w, Ok (f w)).
Definition modify (f : World → World) : M unit := λ w, (f w, Ok tt).

Global Instance M_ret : MRet M := @ret.
Global Instance M_bind : MBind M := λ A B k m, bind m k.

Definition state {A} (r : World * Outcome A) : World := r.1.
Definition outcome {A} (r : World * Outcome A) : Outcome A := r.2.

(** ** config.ts: the profile store and the activation engine *)

Module ConfigManager.

Definition pathJoin (w : World) (a b : string) : string :=
  a +:+ (if isWin w then "\" else "/") +:+ b.

(** *** The settings file *)

Definition defaultSettings : json :=
  JObj [("env", JObj [("ANTHROPIC_AUTH_TOKEN", JStr "");
                      ("ANTHROPIC_BASE_URL", JStr "");
                      ("CLAUDE_CODE_MAX_OUTPUT_TOKENS", JStr "32000");
                      ("CLAUDE_CODE_DISABLE_NONESSENTIAL_TRAFFIC", JNum "1")]);
        ("permissions", JObj [("allow", JArr []); ("deny", JArr [])])].

Definition readClaudeSettings : M json :=
  λ w, match settingsFile w with
       | Settings doc => (w, Ok doc)
       | NoSettings | BadSettings => (w, Ok defaultSettings)
       end.

(** The directory is made when it is missing; a failure of that or of the
    write is thrown as one error. *)
Definition writeClaudeSettings (settings : json) : M unit :=
  λ w, if settingsWritable w
       then (withSettingsFile (Settings (Json.written settings)) w, Ok tt)
       else (w, Throw SettingsWriteFailed).

(** [settings.env[k] = v].  Reading [env] of [null] or of a document
    without it, and setting a property of a primitive value, throw a
    TypeError; a property set on an array is not serialised. *)
Definition setEnv (settings : json) (k : string) (v : option string)
  : Outcome json :=
  match settings with
  | JObj props =>
      match Obj.get "env" props with
      | Some (JObj e) =>
          Ok (JObj (Obj.set "env" (JObj (Obj.assign k v e)) props))
      | Some (JArr _) => Ok settings
      | _ => Throw TypeError
      end
  | _ => Throw TypeError
  end.

Definition updateClaudeSettings (token url : option string) : M unit :=
  settings ← readClaudeSettings;
  settings ← lift (setEnv settings "ANTHROPIC_AUTH_TOKEN" token);
  settings ← lift (setEnv settings "ANTHROPIC_BASE_URL" url);
  writeClaudeSettings settings.

(** *** The profile list *)

(** [fs.writeFileSync] and [fs.appendFileSync] on a file of [~/.claude]:
    ENOENT when the directory does not exist. *)
Definition writeInClaudeDir (write : World → World) : M unit :=
  λ w, if claudeDirExists w then (write w, Ok tt) else (w, Throw ENOENT).

Definition initConfig : M unit :=
  λ w, match configFile w with
       | None => writeInClaudeDir (withConfigFile (Some "")) w
       | Some _ => (w, Ok tt)
       end.

Definition parseLine (line : string) : Config :=
  let parts := Str.split line Str.pipe in
  {| alias := parts !! 0; name := parts !! 1; token := parts !! 2;
     url := parts !! 3; type := Some (orElse (parts !! 4) "TOKEN") |}.

Definition parseConfigs (content : string) : list Config :=
  parseLine <$> filter (λ line, Str.blank line = false)
                       (Str.split content Str.nl).

Definition readConfigFile : M string :=
  gets (λ w, default "" (configFile w)).

Definition getAllConfigs : M (list Config) :=
  initConfig;;
  content ← readConfigFile;
  mret (parseConfigs content).

Definition findAlias (a : string) (configs : list Config) : option Config :=
  List.find (λ c, bool_decide (alias c = Some a)) configs.

Definition getConfig (a : string) : M (option Config) :=
  configs ← getAllConfigs;
  mret (findAlias a configs).

Definition addConfig (a n t u : string) (keyType : option string) : M unit :=
  configs ← getAllConfigs;
  match findAlias a configs with
  | Some _ => throw (AliasExists a)
  | None =>
      let newConfig :=
        a +:+ "|" +:+ n +:+ "|" +:+ t +:+ "|" +:+ u +:+ "|"
          +:+ orElse keyType "TOKEN" in
      content ← readConfigFile;
      writeInClaudeDir
        (withConfigFile (Some (content +:+ String Str.nl newConfig)))
  end.

Definition renderConfig (c : Config) : string :=
  toStr (alias c) +:+ "|" +:+ toStr (name c) +:+ "|" +:+ toStr (token c)
    +:+ "|" +:+ toStr (url c) +:+ "|" +:+ orElse (type c) "TOKEN".

Definition removeConfig (a : string) : M Config :=
  configs ← getAllConfigs;
  match findAlias a configs with
  | None => throw (AliasMissing a)
  | Some configToRemove =>
      let remainingConfigs := filter (λ c, alias c ≠ Some a) configs in
      let content := Str.join Str.nl (renderConfig <$> remainingConfigs) in
      writeInClaudeDir (withConfigFile (Some content));;
      cur ← gets currentFile;
      match cur with
      | Some currentContent =>
          if Str.startsWith currentContent (a +:+ "|")
          then modify (withCurrentFile None)
          else mret tt
      | None => mret tt
      end;;
      mret configToRemove
  end.

(** *** Shell detection *)

Definition getenv (w : World) (k : string) : option string := env w !! k.

Definition detectShell (w : World) : string :=
  if isWin w then
    if truthy (getenv w "PSModulePath") then "powershell"
    else if match getenv w "COMSPEC" with
            | Some comspec => Str.truthy comspec && Str.includes comspec "cmd"
            | None => false
            end then "cmd"
    else "powershell"
  else
    let shell := orElse (getenv w "SHELL") "" in
    if Str.includes shell "zsh" then "zsh"
    else if Str.includes shell "bash" then "bash"
    else if truthy (getenv w "ZSH_VERSION") || truthy (getenv w "ZSH_NAME")
    then "zsh"
    else if truthy (getenv w "BASH_VERSION") then "bash"
    else "unknown".

Definition getProfileFile : M string :=
  shellType ← gets detectShell;
  w ← gets id;
  let homeDir := homedir w in
  if isWin w then
    if bool_decide (shellType = "powershell") then
      let documentsPath := pathJoin w homeDir "Documents" in
      let psPath := pathJoin w documentsPath "WindowsPowerShell" in
      (if bool_decide (psPath ∈ dirs w) then mret tt
       else modify (λ w, withDirs ({[psPath]} ∪ dirs w) w));;
      mret (pathJoin w psPath "Microsoft.PowerShell_profile.ps1")
    else if bool_decide (shellType = "cmd") then mret ""
    else mret (pathJoin w (pathJoin w (pathJoin w homeDir "Documents")
                                    "WindowsPowerShell")
                        "Microsoft.PowerShell_profile.ps1")
  else
    if bool_decide (shellType = "zsh") then mret (pathJoin w homeDir ".zshrc")
    else if bool_decide (shellType = "bash") then
      let bashProfile := pathJoin w homeDir ".bash_profile" in
      if bool_decide (is_Some (files w !! bashProfile)) then mret bashProfile
      else mret (pathJoin w homeDir ".bashrc")
    else mret (pathJoin w homeDir ".profile").

(** [setx KEY "value"]; a failure is logged and swallowed. *)
Definition setWindowsEnvironmentVariable (key value : string) : M unit :=
  λ w, if setxWorks w
       then (withUserEnv (<[key := value]> (userEnv w)) w, Ok tt)
       else (w, Ok tt).

(** *** The sentinel block of a shell start-up file *)

Definition envVarStart : string := "# Claude Code Environment Variables".
Definition envVarEnd : string := "# End Claude Code Environment Variables".

Definition envVarOf (c : Config) : string :=
  if bool_decide (type c = Some "KEY") then "ANTHROPIC_API_KEY"
  else "ANTHROPIC_AUTH_TOKEN".

(** The part the two start-up file editors share word for word: replace
    the text from the first start marker to the first end marker, or
    append the block. *)
Definition spliceEnvVars (content newEnvVars : string) : string :=
  let startIndex := Str.indexOf content envVarStart in
  let endIndex := Str.indexOf content envVarEnd in
  if bool_decide (startIndex ≠ (-1)%Z) && bool_decide (endIndex ≠ (-1)%Z)
  then
    let beforeConfig := Str.substring content 0 startIndex in
    let afterConfig :=
      Str.substringFrom content (endIndex + Z.of_nat (Str.length envVarEnd)) in
    beforeConfig +:+ newEnvVars +:+ afterConfig
  else
    let content :=
      if Str.truthy content && negb (Str.endsWith content (Str.chr Str.nl))
      then content +:+ Str.chr Str.nl else content in
    content +:+ Str.chr Str.nl +:+ newEnvVars +:+ Str.chr Str.nl.

Definition powerShellEnvVars (c : Config) : string :=
  envVarStart +:+ Str.chr Str.nl
    +:+ "$env:ANTHROPIC_BASE_URL = " +:+ Str.chr Str.dq +:+ toStr (url c)
    +:+ Str.chr Str.dq +:+ Str.chr Str.nl
    +:+ "$env:" +:+ envVarOf c +:+ " = " +:+ Str.chr Str.dq
    +:+ toStr (token c) +:+ Str.chr Str.dq +:+ Str.chr Str.nl
    +:+ envVarEnd.

Definition unixEnvVars (c : Config) : string :=
  envVarStart +:+ Str.chr Str.nl
    +:+ "export ANTHROPIC_BASE_URL=" +:+ Str.chr Str.dq +:+ toStr (url c)
    +:+ Str.chr Str.dq +:+ Str.chr Str.nl
    +:+ "export " +:+ envVarOf c +:+ "=" +:+ Str.chr Str.dq
    +:+ toStr (token c) +:+ Str.chr Str.dq +:+ Str.chr Str.nl
    +:+ envVarEnd.

Definition readProfile (profileFile : string) : M string :=
  gets (λ w, default "" (files w !! profileFile)).

(** The start-up file lies in the home directory, or in a directory
    [getProfileFile] has made: the write goes through. *)
Definition writeProfile (profileFile content : string) : M unit :=
  modify (λ w, withFiles (<[profileFile := content]> (files w)) w).

Definition updateWindowsPowerShellConfig (c : Config) (profileFile : string)
  : M unit :=
  content ← readProfile profileFile;
  writeProfile profileFile (spliceEnvVars content (powerShellEnvVars c)).

Definition updateUnixShellConfig (c : Config) (profileFile : string)
  : M unit :=
  content ← readProfile profileFile;
  writeProfile profileFile (spliceEnvVars content (unixEnvVars c)).

(** *** Activation *)

Definition setCurrentSessionEnvironmentVariables (c : Config) : M unit :=
  let envVar := envVarOf c in
  modify (λ w, withEnv (delete "ANTHROPIC_AUTH_TOKEN" (env w)) w);;
  modify (λ w, withEnv (delete "ANTHROPIC_API_KEY" (env w)) w);;
  modify (λ w, withEnv (<[envVar := toStr (token c)]> (env w)) w);;
  modify (λ w, withEnv (<["ANTHROPIC_BASE_URL" := toStr (url c)]> (env w)) w).

Definition updateShellConfig (c : Config) : M unit :=
  profileFile ← getProfileFile;
  shellType ← gets detectShell;
  setCurrentSessionEnvironmentVariables c;;
  win ← gets isWin;
  if (win : bool) then
    if bool_decide (shellType = "cmd") || negb (Str.truthy profileFile) then
      let envVar := envVarOf c in
      setWindowsEnvironmentVariable "ANTHROPIC_BASE_URL" (toStr (url c));;
      setWindowsEnvironmentVariable envVar (toStr (token c))
    else updateWindowsPowerShellConfig c profileFile
  else updateUnixShellConfig c profileFile.

Definition setCurrentConfig (c : Config) : M unit :=
  let configLine := renderConfig c in
  writeInClaudeDir (withCurrentFile (Some configLine));;
  tryCatch (updateClaudeSettings (token c) (url c))
           (λ _, updateShellConfig c).

Definition getCurrentConfig : M (option CurrentConfig) :=
  cur ← gets currentFile;
  match cur with
  | None => mret None
  | Some content =>
      let parts := Str.split content Str.pipe in
      let c := {| alias := parts !! 0; name := parts !! 1;
                  token := parts !! 2; url := parts !! 3;
                  type := Some (orElse (parts !! 4) "TOKEN") |} in
      let envVar := envVarOf c in
      w ← gets id;
      let active := bool_decide (getenv w envVar = token c)
                    && bool_decide (getenv w "ANTHROPIC_BASE_URL" = url c) in
      mret (Some {| current := c; isActive := active |})
  end.

End ConfigManager.

(** ** Vocabulary of the specification *)

Import ConfigManager.

(** [listAll]: the records [getAllConfigs] returns. *)
Definition listAll (w : World) : list Config :=
  match getAllConfigs w with
  | (_, Ok configs) => configs
  | (_, Throw _) => []
  end.

(** [getCurrent]: the record [getCurrentConfig] returns, if any. *)
Definition getCurrent (w : World) : option CurrentConfig :=
  match getCurrentConfig w with
  | (_, Ok r) => r
  | (_, Throw _) => None
  end.

(** The line [addConfig] appends for its arguments. *)
Definition newLine (a n t u : string) (keyType : option string) : string :=
  a +:+ "|" +:+ n +:+ "|" +:+ t +:+ "|" +:+ u +:+ "|" +:+ orElse keyType "TOKEN".

(** A record all of whose four leading fields were present on its line. *)
Definition complete (c : Config) : Prop :=
  is_Some (alias c) ∧ is_Some (name c) ∧ is_Some (token c) ∧ is_Some (url c).

Definition lineFree (s : string) : Prop := Str.has s Str.nl = false.
Definition pipeFree (s : string) : Prop := Str.has s Str.pipe = false.
Definition hashFree (s : string) : Prop := Str.has s Str.hash = false.

(** A record as it reads after a trip through [renderConfig]. *)
Definition rendered (c : Config) : Config :=
  {| alias := Some (toStr (alias c)); name := Some (toStr (name c));
     token := Some (toStr (token c)); url := Some (toStr (url c));
     type := Some (orElse (type c) "TOKEN") |}.

(** No field of the record holds the field separator. *)
Definition pipeFreeConfig (c : Config) : Prop :=
  pipeFree (toStr (alias c)) ∧ pipeFree (toStr (name c))
  ∧ pipeFree (toStr (token c)) ∧ pipeFree (toStr (url c))
  ∧ pipeFree (orElse (type c) "TOKEN").

(** No field of the record holds a line break. *)
Definition lineFreeConfig (c : Config) : Prop :=
  lineFree (toStr (alias c)) ∧ lineFree (toStr (name c))
  ∧ lineFree (toStr (token c)) ∧ lineFree (toStr (url c))
  ∧ lineFree (orElse (type c) "TOKEN").

(** The credential variable the profile's kind does not use. *)
Definition otherEnvVarOf (c : Config) : string :=
  if bool_decide (type c = Some "KEY") then "ANTHROPIC_AUTH_TOKEN"
  else "ANTHROPIC_API_KEY".

(** The world in which [setCurrentConfig] attempts the settings update. *)
Definition pointed (c : Config) (w : World) : World :=
  withCurrentFile (Some (renderConfig c)) w.

(** The settings update of [setCurrentConfig c] is reached and goes
    through. *)
Definition settingsUpdated (c : Config) (w : World) : Prop :=
  claudeDirExists w = true
  ∧ outcome (updateClaudeSettings (token c) (url c) (pointed c w)) = Ok tt.

Global Instance settingsUpdated_dec c w : Decision (settingsUpdated c w).
Proof. unfold settingsUpdated. apply _. Defined.

(** Property [k] of a document, and entry [k] of its [env]. *)
Definition docGet (k : string) (doc : json) : option json :=
  match doc with
  | JObj props => Obj.get k props
  | _ => None
  end.

Definition envGet (k : string) (doc : json) : option json :=
  docGet "env" doc ≫= docGet k.

Definition credentialEntries : list string :=
  ["ANTHROPIC_AUTH_TOKEN"; "ANTHROPIC_API_KEY"; "ANTHROPIC_BASE_URL"].

(** The document the settings file holds, as [readClaudeSettings] sees it. *)
Definition settingsDoc (w : World) : json :=
  match settingsFile w with
  | Settings doc => doc
  | NoSettings | BadSettings => defaultSettings
  end.

(** The document [updateClaudeSettings] writes for the document it read. *)
Definition updatedSettings (token url : option string) (doc : json)
  : Outcome json :=
  match setEnv doc "ANTHROPIC_AUTH_TOKEN" token with
  | Ok doc' => setEnv doc' "ANTHROPIC_BASE_URL" url
  | Throw e => Throw e
  end.

(** The environment [setCurrentSessionEnvironmentVariables] leaves. *)
Definition sessionEnv (c : Config) (e : gmap string string)
  : gmap string string :=
  <["ANTHROPIC_BASE_URL" := toStr (url c)]>
    (<[envVarOf c := toStr (token c)]>
       (delete "ANTHROPIC_API_KEY" (delete "ANTHROPIC_AUTH_TOKEN" e))).

(** The number of positions of [s] at which [needle] occurs. *)
Fixpoint occurrences (s needle : string) : nat :=
  (if Str.startsWith s needle then 1 else 0)
  + match s with
    | "" => 0
    | String _ r => occurrences r needle
    end.

(** The two assignment lines of a block, and the block around them. *)
Definition unixBody (c : Config) : string :=
  "export ANTHROPIC_BASE_URL=" +:+ Str.chr Str.dq +:+ toStr (url c)
    +:+ Str.chr Str.dq +:+ Str.chr Str.nl
    +:+ "export " +:+ envVarOf c +:+ "=" +:+ Str.chr Str.dq
    +:+ toStr (token c) +:+ Str.chr Str.dq +:+ Str.chr Str.nl.

Definition powerShellBody (c : Config) : string :=
  "$env:ANTHROPIC_BASE_URL = " +:+ Str.chr Str.dq +:+ toStr (url c)
    +:+ Str.chr Str.dq +:+ Str.chr Str.nl
    +:+ "$env:" +:+ envVarOf c +:+ " = " +:+ Str.chr Str.dq
    +:+ toStr (token c) +:+ Str.chr Str.dq +:+ Str.chr Str.nl.

Definition blockOf (body : string) : string :=
  envVarStart +:+ String Str.nl (body +:+ envVarEnd).

(** The end marker first occurs in the block where the block ends. *)
Definition endsOnce (block : string) : Prop :=
  Str.indexOf block envVarEnd
  = Z.of_nat (Str.length block - Str.length envVarEnd).

(** The prior content of a start-up file is fit for an update in place:
    it holds neither marker, or its first start marker comes before its
    first end marker. *)
Definition wellMarked (content : string) : Prop :=
  (Str.indexOf content envVarStart = (-1)%Z
   ∧ Str.indexOf content envVarEnd = (-1)%Z)
  ∨ (0 ≤ Str.indexOf content envVarStart < Str.indexOf content envVarEnd)%Z.

(** The content the append branch of [spliceEnvVars] starts from. *)
Definition padded (content : string) : string :=
  if Str.truthy content && negb (Str.endsWith content (Str.chr Str.nl))
  then content +:+ Str.chr Str.nl else content.

(** *** Sample data *)

(** A host on which [~/.claude] exists and holds no file. *)
Definition emptyWorld : World :=
  mkWorld false "/home/u" ∅ None None NoSettings true ∅ ∅ ∅ true true.

(** A host without [~/.claude]. *)
Definition bareHost : World :=
  mkWorld false "/home/u" ∅ None None NoSettings true ∅ ∅ ∅ true false.

Definition kimi : Config :=
  mkConfig (Some "kimi") (Some "Claude") (Some "sk-xxx")
           (Some "https://api.moonshot.cn/anthropic") (Some "TOKEN").

Definition mirror : Config :=
  mkConfig (Some "mirror") (Some "Claude") (Some "sk-ant-XXXX")
           (Some "https://api.aicodemirror.com/api/claudecode") (Some "KEY").

(** A store holding [kimi] and [mirror]. *)
Definition twoProfiles : World :=
  withConfigFile
    (Some ("kimi|Claude|sk-xxx|https://api.moonshot.cn/anthropic|TOKEN"
           +:+ Str.chr Str.nl
           +:+ "mirror|Claude|sk-ant-XXXX|https://api.aicodemirror.com/api/claudecode|KEY"))
    emptyWorld.

(** A store whose second line has a single field. *)
Definition shortLine : World :=
  withConfigFile
    (Some ("kimi|Claude|sk-xxx|https://api.moonshot.cn/anthropic|TOKEN"
           +:+ Str.chr Str.nl +:+ "draft"))
    emptyWorld.

(** The record of the single-field line. *)
Definition draft : Config :=
  mkConfig (Some "draft") None None None (Some "TOKEN").

(** A secret with a line break in it. *)
Definition twoLineSecret : string := "sk-1" +:+ Str.chr Str.nl +:+ "sk-2".

(** A world whose settings file holds a JSON array: the settings update
    throws and activation falls back to the shell configuration. *)
Definition arraySettings : World :=
  withSettingsFile (Settings (JArr [])) emptyWorld.

(** A process whose environment holds the session variables of [mirror]. *)
Definition mirrorSession : World :=
  withEnv (sessionEnv mirror ∅) emptyWorld.

(** A start-up file that holds the line of the start marker and no end
    marker, in a world where activation falls back to the shell
    configuration. *)
Definition strayMarker : World :=
  withFiles {[ "/home/u/.profile" := envVarStart +:+ Str.chr Str.nl ]}
            arraySettings.

(** A start-up file that holds the block of [kimi] between other lines. *)
Definition kimiBlock : World :=
  withFiles {[ "/home/u/.profile" :=
                 "export PATH=$HOME/bin:$PATH" +:+ Str.chr Str.nl
                 +:+ unixEnvVars kimi +:+ Str.chr Str.nl
                 +:+ "alias ll='ls -l'" +:+ Str.chr Str.nl ]}
            arraySettings.

(** A settings file with entries of its own. *)
Definition customSettings : World :=
  withSettingsFile
    (Settings (JObj [("model", JStr "opus");
                     ("env", JObj [("ANTHROPIC_API_KEY", JStr "old-key");
                                   ("HTTP_PROXY", JStr "http://proxy:8080")]);
                     ("permissions", JObj [("allow", JArr [JStr "Bash"]);
                                           ("deny", JArr [])])]))
    emptyWorld.

(** A settings file with numbers that are not in the form
    [JSON.stringify] writes. *)
Definition longTimeout : World :=
  withSettingsFile
    (Settings (JObj [("env", JObj [("API_TIMEOUT_MS",
                                    JNum "12345678901234567890")]);
                     ("maxTokens", JNum "1e400");
                     ("retries", JNum "3")]))
    emptyWorld.

(** ** commands.ts: the commands that call the manager

    [process.exit(1)] ends the command with status 1; a command that runs to
    its end leaves the status at 0.  What the commands print is left out,
    but not the exceptions the printed expressions can throw. *)

Inductive Exit :=
| Returned
| Exited (code : nat).

Global Instance Exit_eq_dec : EqDecision Exit.
Proof. solve_decision. Defined.

Module Cmd.

(** [config.token.substring(0, 15)], of which the text is printed only:
    a TypeError when the token is [undefined]. *)
Definition tokenPreview (c : Config) : Outcome unit :=
  match token c with
  | Some _ => Ok tt
  | None => Throw TypeError
  end.

Definition use (a : string) : World → World * Exit :=
  λ w,
    if negb (Str.truthy a) then (w, Exited 1)
    else
      match getConfig a w with
      | (w1, Ok None) => (w1, Exited 1)
      | (w1, Ok (Some c)) =>
          match (setCurrentConfig c;; lift (tokenPreview c)) w1 with
          | (w2, Ok _) => (w2, Returned)
          | (w2, Throw _) => (w2, Exited 1)
          end
      | (w1, Throw _) => (w1, Exited 1)
      end.

Definition add (a t u : string) (ty : option string) : World → World * Exit :=
  λ w,
    if negb (Str.truthy a) || negb (Str.truthy t) || negb (Str.truthy u)
    then (w, Exited 1)
    else
      let name := "Claude" in
      let keyType := Commands.determineKeyType u ty in
      match addConfig a name t u (Some keyType) w with
      | (w1, Ok _) => (w1, Returned)
      | (w1, Throw _) => (w1, Exited 1)
      end.

Definition remove (a : string) : World → World * Exit :=
  λ w,
    if negb (Str.truthy a) then (w, Exited 1)
    else
      match removeConfig a w with
      | (w1, Ok _) => (w1, Returned)
      | (w1, Throw _) => (w1, Exited 1)
      end.

Definition current : World → World * Exit :=
  λ w,
    match getCurrentConfig w with
    | (w1, Ok None) => (w1, Returned)
    | (w1, Ok (Some r)) =>
        match tokenPreview (current r) with
        | Ok _ => (w1, Returned)
        | Throw _ => (w1, Exited 1)
        end
    | (w1, Throw _) => (w1, Exited 1)
    end.

End Cmd.

(** [getConfig]: the record [getConfig] returns for an alias, if any. *)
Definition lookupAlias (a : string) (w : World) : option Config :=
  match getConfig a w with
  | (_, Ok r) => r
  | (_, Throw _) => None
  end.

(** The two worlds differ in the profile-list file at most. *)
Definition sameButConfigFile (w w' : World) : Prop :=
  w' = withConfigFile (configFile w') w.

(** The two worlds differ in the start-up files at most. *)
Definition sameButFiles (w w' : World) : Prop :=
  w' = withFiles (files w') w.

(** The file the shell-configuration fallback edits on a Unix host. *)
Definition unixProfile (w : World) : string :=
  match outcome (getProfileFile w) with
  | Ok f => f
  | Throw _ => ""
  end.

(** A Windows host on which [cmd] is detected. *)
Definition cmdHost : World :=
  mkWorld true "C:\Users\u" {[ "COMSPEC" := "C:\Windows\system32\cmd.exe" ]}
          None None (Settings (JArr [])) true ∅ ∅ ∅ true true.

(** A bash host with a [.bashrc] and no [.bash_profile]. *)
Definition bashHost : World :=
  mkWorld false "/home/u" {[ "SHELL" := "/bin/bash"; "EDITOR" := "vim" ]}
          None None (Settings (JArr [])) true
          {[ "/home/u/.bashrc" := "export EDITOR=vim" +:+ Str.chr Str.nl ]}
          ∅ ∅ true true.

(** A settings file that holds an object without [env]. *)
Definition noEnvSettings : World :=
  withSettingsFile (Settings (JObj [("model", JStr "opus")])) emptyWorld.

(** A settings file that does not parse. *)
Definition corruptSettings : World :=
  withSettingsFile BadSettings emptyWorld.

(** A field that holds neither the field separator nor a line break. *)
Definition cleanField (s : string) : Prop := pipeFree s ∧ lineFree s.

(** * Properties *)

(** ** Facts about strings *)

Section StrFacts.

Implicit Types (s t p : string) (a c sep : ascii).

Lemma app_nil_l s : "" +:+ s = s.
Proof. reflexivity. Qed.

Lemma app_cons a s t : String a s +:+ t = String a (s +:+ t).
Proof. reflexivity. Qed.

Lemma app_nil_r s : s +:+ "" = s.
Proof. induction s as [|a s IH]; [done|]. by rewrite app_cons, IH. Qed.

Lemma app_assoc s t p : (s +:+ t) +:+ p = s +:+ t +:+ p.
Proof. induction s as [|a s IH]; [done|]. by rewrite !app_cons, IH. Qed.

Lemma length_app s t : Str.length (s +:+ t) = Str.length s + Str.length t.
Proof.
  induction s as [|a s IH]; [done|].
  rewrite app_cons. unfold Str.length in *. simpl. by rewrite IH.
Qed.

Lemma has_app s t c : Str.has (s +:+ t) c = Str.has s c || Str.has t c.
Proof.
  induction s as [|a s IH]; [done|].
  rewrite app_cons. simpl. by rewrite IH, orb_assoc.
Qed.

Lemma has_take_drop n s c :
  Str.has s c = Str.has (Str.take n s) c || Str.has (Str.drop n s) c.
Proof.
  revert s. induction n as [|n IH]; intros [|a s]; simpl; try done.
  by rewrite IH, orb_assoc.
Qed.

Lemma take_app s t : Str.take (Str.length s) (s +:+ t) = s.
Proof.
  induction s as [|a s IH]; [done|].
  rewrite app_cons. unfold Str.length in *. simpl. by rewrite IH.
Qed.

Lemma drop_app s t : Str.drop (Str.length s) (s +:+ t) = t.
Proof. induction s as [|a s IH]; [done|]. by rewrite app_cons. Qed.

Lemma take_all s : Str.take (Str.length s) s = s.
Proof. rewrite <-(app_nil_r s) at 2. apply take_app. Qed.

Lemma startsWith_app s t : Str.startsWith (s +:+ t) s = true.
Proof.
  induction s as [|a s IH]; [done|].
  rewrite app_cons. simpl. by rewrite bool_decide_eq_true_2, IH.
Qed.

(** *** [split] and [join] *)

Lemma split_not_nil s sep : Str.split s sep ≠ [].
Proof.
  destruct s as [|a s]; simpl; [done|].
  case_bool_decide; [done|]. by destruct (Str.split s sep).
Qed.

Lemma split_no_sep s sep : Str.has s sep = false → Str.split s sep = [s].
Proof.
  induction s as [|a s IH]; simpl; [done|].
  intros [Ha Hs]%orb_false_iff. rewrite Ha, IH; done.
Qed.

Lemma split_app s t sep :
  Str.split (s +:+ String sep t) sep = Str.split s sep ++ Str.split t sep.
Proof.
  induction s as [|a s IH].
  - rewrite app_nil_l. simpl. by rewrite bool_decide_eq_true_2.
  - rewrite app_cons. simpl. rewrite IH. case_bool_decide; [done|].
    pose proof (split_not_nil s sep). by destruct (Str.split s sep).
Qed.

Lemma split_piece s sep c p :
  p ∈ Str.split s sep →
  Str.has p sep = false ∧ (Str.has s c = false → Str.has p c = false).
Proof.
  revert p. induction s as [|a s IH]; simpl; intros p Hp.
  - apply list_elem_of_singleton in Hp as ->. done.
  - case_bool_decide as Ha.
    + apply elem_of_cons in Hp as [->|Hp]; [done|].
      destruct (IH p Hp) as [? Hc]. split; [done|].
      intros [_ ?]%orb_false_iff. auto.
    + destruct (Str.split s sep) as [|x xs] eqn:Hsplit.
      * apply list_elem_of_singleton in Hp as ->. simpl.
        rewrite bool_decide_eq_false_2 by done. split; [done|].
        rewrite !orb_false_r. by intros [? _]%orb_false_iff.
      * apply elem_of_cons in Hp as [->|Hp].
        -- destruct (IH x) as [? Hc]; [left|]. simpl.
           rewrite bool_decide_eq_false_2 by done. split; [done|].
           intros [-> ?]%orb_false_iff. auto.
        -- destruct (IH p) as [? Hc]; [by right|]. split; [done|].
           intros [_ ?]%orb_false_iff. auto.
Qed.

Lemma split_join l sep :
  l ≠ [] → Forall (λ x, Str.has x sep = false) l →
  Str.split (Str.join sep l) sep = l.
Proof.
  intros Hl Hall. induction Hall as [|x l Hx Hall IH]; [done|].
  destruct l as [|y l]; simpl.
  - by apply split_no_sep.
  - rewrite split_app, (split_no_sep x) by done. simpl. f_equal. by apply IH.
Qed.

(** *** Blank lines *)

Lemma code_ne a c : Str.code a ≠ Str.code c → bool_decide (a = c) = false.
Proof. intros H. apply bool_decide_eq_false_2. by intros ->. Qed.

Lemma ws1_code n : Str.ws1 n = true → n ≠ 124.
Proof.
  unfold Str.ws1.
  intros [[?%Nat.leb_le ?%Nat.leb_le]%andb_true_iff| ?%Nat.eqb_eq]%orb_true_iff;
    lia.
Qed.

Lemma ws2_code n1 n2 :
  (n1 =? 194) && (n2 =? 160) = true → n1 ≠ 124 ∧ n2 ≠ 124.
Proof. intros [?%Nat.eqb_eq ?%Nat.eqb_eq]%andb_true_iff. lia. Qed.

Lemma ws3_code n1 n2 n3 :
  Str.ws3 n1 n2 n3 = true → n1 ≠ 124 ∧ n2 ≠ 124 ∧ 128 ≤ n3.
Proof.
  unfold Str.ws3. intros H.
  repeat match goal with
    | H : _ || _ = true |- _ => apply orb_true_iff in H as [H|H]
    | H : _ && _ = true |- _ => apply andb_true_iff in H as [? ?]
    | H : (_ =? _) = true |- _ => apply Nat.eqb_eq in H
    | H : (_ <=? _) = true |- _ => apply Nat.leb_le in H
    end; lia.
Qed.

Lemma wsLen_no_pipe s :
  Str.has (Str.take (Str.wsLen s) s) Str.pipe = false.
Proof.
  assert (Hp : Str.code Str.pipe = 124) by reflexivity.
  assert (Hne : ∀ a, Str.code a ≠ 124 → bool_decide (a = Str.pipe) = false).
  { intros a Ha. apply code_ne. by rewrite Hp. }
  destruct s as [|a r]; [done|]. unfold Str.wsLen.
  destruct (Str.ws1 (Str.code a)) eqn:H1.
  { apply ws1_code in H1. cbn [Str.take Str.has]. by rewrite Hne. }
  destruct r as [|b r]; [done|].
  destruct ((Str.code a =? 194) && (Str.code b =? 160)) eqn:H2.
  { apply ws2_code in H2 as [? ?]. cbn [Str.take Str.has]. by rewrite !Hne. }
  destruct r as [|c r]; [done|].
  destruct (Str.ws3 (Str.code a) (Str.code b) (Str.code c)) eqn:H3; [|done].
  apply ws3_code in H3 as (? & ? & ?). cbn [Str.take Str.has].
  rewrite !Hne; [done|lia|done..].
Qed.

Lemma blankFuel_no_pipe n s :
  Str.blankFuel n s = true → Str.has s Str.pipe = false.
Proof.
  revert s. induction n as [|n IH]; intros [|a s]; try done.
  - cbn [Str.blankFuel]. by destruct (Str.wsLen (String a s)).
  - intros H. pose proof (wsLen_no_pipe (String a s)) as Hw.
    rewrite (has_take_drop (Str.wsLen (String a s))), Hw, orb_false_l.
    cbn [Str.blankFuel] in H.
    destruct (Str.wsLen (String a s)) as [|k]; [done|]. by apply IH.
Qed.

Lemma blank_pipe s : Str.has s Str.pipe = true → Str.blank s = false.
Proof.
  intros H. destruct (Str.blank s) eqn:Hb; [|done].
  apply blankFuel_no_pipe in Hb. congruence.
Qed.

End StrFacts.

(** ** The credential-kind resolver *)

(** Membership in a literal list, unfolded to equations. *)
Ltac list_mem :=
  repeat match goal with
    | H : _ ∈ _ :: _ |- _ => apply elem_of_cons in H as [H|H]
    | H : _ ∈ [] |- _ => by apply elem_of_nil in H
    end; subst.

(** A closed decidable proposition, by evaluation. *)
Ltac decided := apply (bool_decide_unpack _); vm_compute; exact I.

Section Resolver.

Import Commands.

Lemma urlRules_cases url :
  (url ∈ tokenUrls → urlRules url = "TOKEN")
  ∧ (url ∈ keyUrls → urlRules url = "KEY")
  ∧ (url ∉ tokenUrls → url ∉ keyUrls → urlRules url = "TOKEN").
Proof.
  unfold urlRules, includes. repeat split.
  - intros H. by rewrite bool_decide_eq_true_2.
  - intros H. rewrite bool_decide_eq_false_2, bool_decide_eq_true_2; [done..|].
    unfold keyUrls, tokenUrls in *. list_mem; decided.
  - intros H1 H2. by rewrite !bool_decide_eq_false_2.
Qed.

Lemma toLowerCase_truthy m :
  Str.toLowerCase m ≠ "" → Str.truthy m = true.
Proof. by destruct m. Qed.

End Resolver.

(** C3. The resolver returns KEY for the aicodemirror URL and TOKEN for the
    aicodewith URL when no override is given; an override whose lower-case
    form is "key" or "k" gives KEY and one whose lower-case form is "token"
    or "t" gives TOKEN, whatever the URL; any other override is ignored and
    the URL lists decide; a URL in neither list gives TOKEN. *)
Theorem determineKeyType_resolves :
  Commands.determineKeyType "https://api.aicodemirror.com/api/claudecode" None = "KEY"
  ∧ Commands.determineKeyType "https://api.aicodewith.com" None = "TOKEN"
  ∧ (∀ url o, Str.toLowerCase o ∈ ["key"; "k"] →
       Commands.determineKeyType url (Some o) = "KEY")
  ∧ (∀ url o, Str.toLowerCase o ∈ ["token"; "t"] →
       Commands.determineKeyType url (Some o) = "TOKEN")
  ∧ (∀ url o, Str.toLowerCase o ∉ ["key"; "k"; "token"; "t"] →
       Commands.determineKeyType url (Some o) = Commands.urlRules url)
  ∧ (∀ url, Commands.determineKeyType url None = Commands.urlRules url)
  ∧ (∀ url, url ∉ Commands.tokenUrls → url ∉ Commands.keyUrls →
       Commands.urlRules url = "TOKEN").
Proof.
  split; [done|]. split; [done|].
  unfold Commands.determineKeyType, Commands.includes. repeat split.
  - intros url o Ho. rewrite toLowerCase_truthy.
    + by rewrite bool_decide_eq_true_2.
    + intros E. rewrite E in Ho. list_mem; discriminate.
  - intros url o Ho. rewrite toLowerCase_truthy.
    + rewrite bool_decide_eq_false_2, bool_decide_eq_true_2; [done..|].
      intros Hk. list_mem; congruence.
    + intros E. rewrite E in Ho. list_mem; discriminate.
  - intros url o Ho. destruct (Str.truthy o); [|done].
    rewrite !bool_decide_eq_false_2; [done|..];
      intros H; apply Ho; list_mem; rewrite H; decided.
  - intros url. apply urlRules_cases.
Qed.

Lemma determineKeyType_resolves_witness :
  Commands.determineKeyType "https://api.aicodewith.com" (Some "Key") = "KEY"
  ∧ Commands.determineKeyType "https://gaccode.com/claudecode" (Some "T") = "TOKEN"
  ∧ Commands.determineKeyType "https://gaccode.com/claudecode" (Some "bearer") = "KEY"
  ∧ Commands.urlRules "https://unknown.example.com" = "TOKEN".
Proof.
  destruct determineKeyType_resolves as (_ & _ & Hkey & Htoken & Hother & _ & Hurl).
  split; [apply Hkey; vm_compute; left|].
  split; [apply Htoken; vm_compute; right; left|].
  split; [rewrite Hother; [reflexivity|]|].
  - decided.
  - apply Hurl; decided.
Defined.

(** ** The profile store *)

(** Unfolding of the monad operations. *)
Ltac run :=
  unfold mbind, M_bind, bind, mret, M_ret, ret, gets, modify, throw, tryCatch
    in *.

Section Store.

Implicit Types (w : World) (c : Config) (a line content : string).

Lemma claudeDir_config w : is_Some (configFile w) → claudeDirExists w = true.
Proof.
  intros H. unfold claudeDirExists. rewrite (bool_decide_eq_true_2 _ H).
  by rewrite orb_true_r.
Qed.

Lemma claudeDir_current w :
  is_Some (currentFile w) → claudeDirExists w = true.
Proof.
  intros H. unfold claudeDirExists. rewrite (bool_decide_eq_true_2 _ H).
  by rewrite orb_true_r.
Qed.

Lemma claudeDir_settings w :
  settingsFile w ≠ NoSettings → claudeDirExists w = true.
Proof.
  intros H. unfold claudeDirExists. destruct (settingsFile w); [done|..];
    by rewrite orb_true_r.
Qed.

Lemma initConfig_bare w : claudeDirExists w = false → initConfig w = (w, Throw ENOENT).
Proof.
  intros H. unfold initConfig, writeInClaudeDir. rewrite H.
  destruct (configFile w) eqn:E; [|done].
  rewrite claudeDir_config in H by (rewrite E; eauto). done.
Qed.

Lemma getAllConfigs_run w :
  getAllConfigs w
  = (state (initConfig w),
     if claudeDirExists w then Ok (parseConfigs (default "" (configFile w)))
     else Throw ENOENT).
Proof.
  unfold getAllConfigs, initConfig, writeInClaudeDir, readConfigFile, state.
  run. destruct (configFile w) eqn:E; cbn [fst].
  - rewrite claudeDir_config by (rewrite E; eauto). by rewrite E.
  - by destruct (claudeDirExists w).
Qed.

Lemma listAll_parse w : listAll w = parseConfigs (default "" (configFile w)).
Proof.
  unfold listAll. rewrite getAllConfigs_run.
  destruct (claudeDirExists w) eqn:Hd; [done|].
  destruct (configFile w) eqn:E; [|done].
  rewrite claudeDir_config in Hd by (rewrite E; eauto). done.
Qed.

Lemma listAll_initConfig w : listAll (state (initConfig w)) = listAll w.
Proof.
  rewrite !listAll_parse. unfold initConfig, writeInClaudeDir, state.
  destruct (configFile w) eqn:E; cbn [fst]; [by rewrite E|].
  by destruct (claudeDirExists w); cbn [fst configFile withConfigFile];
    rewrite ?E.
Qed.

Lemma initConfig_exists w :
  is_Some (configFile w) → state (initConfig w) = w.
Proof. intros [x Hx]. unfold initConfig, state. by rewrite Hx. Qed.

Lemma listAll_nonempty_exists w c : c ∈ listAll w → is_Some (configFile w).
Proof.
  rewrite listAll_parse. destruct (configFile w); [eauto|].
  intros H. by apply elem_of_nil in H.
Qed.

Lemma findAlias_Some a l c :
  findAlias a l = Some c → c ∈ l ∧ alias c = Some a.
Proof.
  intros [H1 H2]%find_some. split; [by apply list_elem_of_In|].
  by apply bool_decide_eq_true_1 in H2.
Qed.

Lemma findAlias_None a l :
  findAlias a l = None ↔ ∀ c, c ∈ l → alias c ≠ Some a.
Proof.
  split.
  - intros H c Hc. apply list_elem_of_In in Hc.
    pose proof (find_none _ _ H c Hc) as Hn.
    by apply bool_decide_eq_false_1 in Hn.
  - intros H. destruct (findAlias a l) as [c|] eqn:Hf; [|done].
    apply findAlias_Some in Hf as [Hc Ha]. by destruct (H c Hc).
Qed.

(** *** Lines and records *)

Lemma bar_app s : "|" +:+ s = String Str.pipe s.
Proof. reflexivity. Qed.

Lemma chr_app (x : ascii) s : Str.chr x +:+ s = String x s.
Proof. reflexivity. Qed.

Lemma split_five a n t u k :
  pipeFree a → pipeFree n → pipeFree t → pipeFree u → pipeFree k →
  Str.split (a +:+ "|" +:+ n +:+ "|" +:+ t +:+ "|" +:+ u +:+ "|" +:+ k)
            Str.pipe
  = [a; n; t; u; k].
Proof.
  intros Ha Hn Ht Hu Hk. rewrite !bar_app, !split_app.
  by rewrite !split_no_sep.
Qed.

Lemma five_has_pipe a n t u k :
  Str.has (a +:+ "|" +:+ n +:+ "|" +:+ t +:+ "|" +:+ u +:+ "|" +:+ k)
          Str.pipe = true.
Proof.
  rewrite bar_app, has_app. simpl. by rewrite orb_true_r.
Qed.

Lemma five_lineFree a n t u k :
  lineFree a → lineFree n → lineFree t → lineFree u → lineFree k →
  lineFree (a +:+ "|" +:+ n +:+ "|" +:+ t +:+ "|" +:+ u +:+ "|" +:+ k).
Proof.
  unfold lineFree. intros Ha Hn Ht Hu Hk.
  rewrite !bar_app, !has_app. simpl. rewrite !has_app. simpl.
  rewrite !has_app. simpl. rewrite !has_app. simpl.
  by rewrite Ha, Hn, Ht, Hu, Hk.
Qed.

Lemma orElse_idem v d : orElse (Some (orElse v d)) d = orElse v d.
Proof.
  unfold orElse. destruct v as [s|]; [destruct (Str.truthy s) eqn:E|];
    by repeat case_match.
Qed.

Lemma parseLine_render c :
  pipeFreeConfig c → parseLine (renderConfig c) = rendered c.
Proof.
  intros (Ha & Hn & Ht & Hu & Hk). unfold parseLine, renderConfig.
  rewrite split_five by done. unfold rendered.
  f_equal; try reflexivity. f_equal. apply orElse_idem.
Qed.

Lemma parseConfigs_app content line :
  parseConfigs (content +:+ String Str.nl line)
  = parseConfigs content ++ parseConfigs line.
Proof.
  unfold parseConfigs. by rewrite split_app, filter_app, fmap_app.
Qed.

Lemma parseConfigs_one line :
  lineFree line → Str.has line Str.pipe = true →
  parseConfigs line = [parseLine line].
Proof.
  intros Hl Hp. unfold parseConfigs. rewrite split_no_sep by done.
  rewrite filter_cons_True by by apply blank_pipe. done.
Qed.


Lemma lookup_clean line i :
  lineFree line →
  pipeFree (toStr (Str.split line Str.pipe !! i))
  ∧ lineFree (toStr (Str.split line Str.pipe !! i)).
Proof.
  intros Hl. destruct (Str.split line Str.pipe !! i) as [p|] eqn:E; [|done].
  apply list_elem_of_lookup_2 in E.
  destruct (split_piece _ _ Str.nl _ E) as [? Hn]. split; [done|].
  by apply Hn.
Qed.

Lemma orElse_clean line i :
  lineFree line →
  pipeFree (orElse (Str.split line Str.pipe !! i) "TOKEN")
  ∧ lineFree (orElse (Str.split line Str.pipe !! i) "TOKEN").
Proof.
  intros Hl. pose proof (lookup_clean line i Hl) as H.
  destruct (Str.split line Str.pipe !! i) as [p|]; simpl in *; [|done].
  by destruct (Str.truthy p).
Qed.

Lemma parseLine_clean line :
  lineFree line →
  pipeFreeConfig (parseLine line) ∧ lineFreeConfig (parseLine line).
Proof.
  intros Hl. unfold pipeFreeConfig, lineFreeConfig, parseLine.
  cbn [alias name token url type]. rewrite orElse_idem.
  pose proof (lookup_clean line 0 Hl). pose proof (lookup_clean line 1 Hl).
  pose proof (lookup_clean line 2 Hl). pose proof (lookup_clean line 3 Hl).
  pose proof (orElse_clean line 4 Hl). intuition.
Qed.

Lemma parseConfigs_line content c :
  c ∈ parseConfigs content →
  ∃ line, c = parseLine line ∧ lineFree line ∧ Str.blank line = false
          ∧ line ∈ Str.split content Str.nl.
Proof.
  unfold parseConfigs. intros (line & -> & Hin)%list_elem_of_fmap.
  apply list_elem_of_filter in Hin as [Hb Hin].
  exists line. repeat split; [|done..].
  by destruct (split_piece _ _ Str.nl _ Hin).
Qed.

Lemma parseConfigs_clean content c :
  c ∈ parseConfigs content → pipeFreeConfig c ∧ lineFreeConfig c.
Proof.
  intros (line & -> & Hl & _)%parseConfigs_line. by apply parseLine_clean.
Qed.

Lemma parseConfigs_alias content c :
  c ∈ parseConfigs content → is_Some (alias c).
Proof.
  intros (line & -> & _)%parseConfigs_line. unfold parseLine. simpl.
  pose proof (split_not_nil line Str.pipe).
  destruct (Str.split line Str.pipe); [done|]. simpl. eauto.
Qed.

Lemma rendered_complete content c :
  c ∈ parseConfigs content → complete c → rendered c = c.
Proof.
  intros (line & -> & _)%parseConfigs_line ([a Ha] & [n Hn] & [t Ht] & [u Hu]).
  unfold rendered. rewrite Ha, Hn, Ht, Hu. unfold parseLine in *.
  cbn [alias name token url type toStr] in *.
  rewrite orElse_idem. by rewrite Ha, Hn, Ht, Hu.
Qed.

Lemma parseConfigs_join l :
  Forall (λ c, pipeFreeConfig c ∧ lineFreeConfig c) l →
  parseConfigs (Str.join Str.nl (renderConfig <$> l)) = rendered <$> l.
Proof.
  intros Hall. destruct l as [|c0 l0]; [done|].
  unfold parseConfigs. rewrite split_join.
  - induction Hall as [|c l [Hp Hl] Hall IH]; [done|].
    rewrite !fmap_cons, filter_cons_True, fmap_cons, IH, parseLine_render;
      [done..|].
    apply blank_pipe, five_has_pipe.
  - done.
  - induction Hall as [|c l [Hp Hl] Hall IH]; [done|].
    rewrite fmap_cons. constructor; [|done].
    destruct Hl as (?&?&?&?&?). by apply five_lineFree.
Qed.

(** *** [addConfig] and [removeConfig], step by step *)

Lemma withConfigFile_initConfig (f : option string) w :
  withConfigFile f (state (initConfig w)) = withConfigFile f w.
Proof.
  unfold initConfig, writeInClaudeDir, state.
  destruct (configFile w); [done|]. by destruct (claudeDirExists w).
Qed.

Lemma configFile_initConfig w :
  default "" (configFile (state (initConfig w))) = default "" (configFile w).
Proof.
  unfold initConfig, writeInClaudeDir, state.
  destruct (configFile w) eqn:E; cbn [fst]; [by rewrite E|].
  by destruct (claudeDirExists w); cbn [fst configFile withConfigFile];
    rewrite ?E.
Qed.

Lemma claudeDir_initConfig w :
  claudeDirExists (state (initConfig w)) = claudeDirExists w.
Proof.
  unfold initConfig, writeInClaudeDir, state.
  destruct (configFile w) eqn:E; [done|].
  destruct (claudeDirExists w) eqn:Hd; cbn [fst]; [|done].
  by apply claudeDir_config.
Qed.

Lemma claudeDir_stored w c : c ∈ listAll w → claudeDirExists w = true.
Proof. intros H. by apply claudeDir_config, (listAll_nonempty_exists w c). Qed.

Lemma claudeDir_found a w c :
  findAlias a (listAll w) = Some c → claudeDirExists w = true.
Proof. intros [H _]%findAlias_Some. by apply (claudeDir_stored w c). Qed.

(** With the directory missing, the store cannot be read or written. *)
Lemma store_bare w :
  claudeDirExists w = false →
  state (initConfig w) = w ∧ configFile w = None ∧ listAll w = [].
Proof.
  intros Hd. rewrite initConfig_bare by done. split; [done|].
  destruct (configFile w) eqn:E.
  - rewrite claudeDir_config in Hd by (rewrite E; eauto). done.
  - split; [done|]. by rewrite listAll_parse, E.
Qed.

Lemma addConfig_run a n t u kt w :
  addConfig a n t u kt w
  = match findAlias a (listAll w) with
    | Some _ => (state (initConfig w), Throw (AliasExists a))
    | None =>
        if claudeDirExists w
        then (withConfigFile
                (Some (default "" (configFile w)
                       +:+ String Str.nl (newLine a n t u kt))) w, Ok ())
        else (w, Throw ENOENT)
    end.
Proof.
  unfold addConfig. unfold mbind at 1. unfold M_bind, bind.
  rewrite getAllConfigs_run, <-listAll_parse.
  destruct (claudeDirExists w) eqn:Hd.
  - destruct (findAlias a (listAll w)); [done|].
    unfold readConfigFile, writeInClaudeDir. run.
    by rewrite claudeDir_initConfig, Hd, configFile_initConfig,
      withConfigFile_initConfig.
  - destruct (store_bare w Hd) as (-> & _ & ->). done.
Qed.

Lemma removeConfig_run a w :
  removeConfig a w
  = match findAlias a (listAll w) with
    | None => (state (initConfig w),
               Throw (if claudeDirExists w then AliasMissing a else ENOENT))
    | Some c =>
        let content :=
          Str.join Str.nl
            (renderConfig <$> filter (λ c, alias c ≠ Some a) (listAll w)) in
        let w' := withConfigFile (Some content) w in
        (match currentFile w with
         | Some cur =>
             if Str.startsWith cur (a +:+ "|")
             then withCurrentFile None w' else w'
         | None => w'
         end, Ok c)
    end.
Proof.
  unfold removeConfig. unfold mbind at 1. unfold M_bind, bind.
  rewrite getAllConfigs_run, <-listAll_parse.
  destruct (claudeDirExists w) eqn:Hd.
  - destruct (findAlias a (listAll w)); [|done].
    unfold writeInClaudeDir. run. rewrite claudeDir_initConfig, Hd.
    rewrite withConfigFile_initConfig. cbn [currentFile withConfigFile].
    destruct (currentFile w) as [cur|]; [|done].
    by destruct (Str.startsWith cur (a +:+ "|")).
  - destruct (store_bare w Hd) as (_ & _ & ->). done.
Qed.

End Store.

(** C4. With an alias that is already stored, [addConfig] fails with the
    duplicate-alias error and changes nothing.  With a new alias, on a host
    where [~/.claude] exists, it succeeds and appends one line; [listAll]
    then reads the records of that line after the earlier ones: exactly one
    record when no argument holds a line break, and the record of the
    arguments when none holds the field separator either. *)
Theorem addConfig_appends (a n t u : string) (kt : option string) (w : World) :
  ((∃ c, c ∈ listAll w ∧ alias c = Some a) →
     addConfig a n t u kt w = (w, Throw (AliasExists a)))
  ∧ (claudeDirExists w = true →
     (∀ c, c ∈ listAll w → alias c ≠ Some a) →
       outcome (addConfig a n t u kt w) = Ok ()
       ∧ listAll (state (addConfig a n t u kt w))
         = listAll w ++ parseConfigs (newLine a n t u kt))
  ∧ (lineFree a → lineFree n → lineFree t → lineFree u →
     lineFree (orElse kt "TOKEN") →
       parseConfigs (newLine a n t u kt) = [parseLine (newLine a n t u kt)])
  ∧ (pipeFree a → pipeFree n → pipeFree t → pipeFree u →
     pipeFree (orElse kt "TOKEN") →
       parseLine (newLine a n t u kt)
       = mkConfig (Some a) (Some n) (Some t) (Some u)
                  (Some (orElse kt "TOKEN"))).
Proof.
  rewrite addConfig_run. repeat split.
  - intros (c & Hc & Ha).
    destruct (findAlias a (listAll w)) eqn:Hf.
    + by rewrite initConfig_exists by eauto using listAll_nonempty_exists.
    + by destruct (proj1 (findAlias_None _ _) Hf c Hc).
  - by rewrite (proj2 (findAlias_None _ _) H0), H.
  - rewrite (proj2 (findAlias_None _ _) H0), H. unfold state. simpl.
    by rewrite (listAll_parse (withConfigFile _ _)), listAll_parse,
      <-parseConfigs_app.
  - intros. apply parseConfigs_one; [by apply five_lineFree|].
    apply five_has_pipe.
  - intros. unfold parseLine, newLine. rewrite split_five by done.
    f_equal. simpl. f_equal. apply orElse_idem.
Qed.

Lemma addConfig_appends_witness :
  addConfig "kimi" "Claude" "sk-2" "https://u" None twoProfiles
  = (twoProfiles, Throw (AliasExists "kimi"))
  ∧ listAll (state (addConfig "glm" "Claude" "sk-3" "https://open.bigmodel.cn"
                              (Some "KEY") twoProfiles))
    = listAll twoProfiles
      ++ [mkConfig (Some "glm") (Some "Claude") (Some "sk-3")
                   (Some "https://open.bigmodel.cn") (Some "KEY")].
Proof.
  destruct (addConfig_appends "kimi" "Claude" "sk-2" "https://u" None
              twoProfiles) as (Hdup & _).
  destruct (addConfig_appends "glm" "Claude" "sk-3" "https://open.bigmodel.cn"
              (Some "KEY") twoProfiles) as (_ & Hnew & Hone & Hrec).
  split.
  - apply Hdup. exists kimi. split; [decided|reflexivity].
  - destruct Hnew as [_ ->]; [reflexivity|apply Forall_forall; decided|].
    rewrite Hone, Hrec; reflexivity.
Defined.

(** C4, as stated, fails: a secret with a line break in it makes
    [addConfig] append two records to an empty store; and on a host without
    [~/.claude], where no profile is stored, [addConfig] appends nothing and
    fails with ENOENT. *)
Lemma addConfig_line_break_two_records :
  listAll emptyWorld = []
  ∧ outcome (addConfig "x" "Claude" twoLineSecret "https://u" None emptyWorld)
    = Ok ()
  ∧ listAll (state (addConfig "x" "Claude" twoLineSecret "https://u" None
                              emptyWorld))
    = [mkConfig (Some "x") (Some "Claude") (Some "sk-1") None (Some "TOKEN");
       mkConfig (Some "sk-2") (Some "https://u") (Some "TOKEN") None
                (Some "TOKEN")]
  ∧ listAll bareHost = []
  ∧ addConfig "x" "Claude" "sk-1" "https://u" None bareHost
    = (bareHost, Throw ENOENT).
Proof. vm_compute. done. Qed.

(** C5. On a host where [~/.claude] exists, [removeConfig] fails with the
    unknown-alias error exactly when no stored record has the alias; whenever
    it fails with that error, [listAll] is unchanged (so is an existing
    file).  When a stored record has the alias, it returns a stored record
    with that alias and, provided every remaining record has its four
    leading fields, [listAll] afterwards is the earlier sequence without the
    records of that alias, in the original order: without exactly that one
    record when the alias is unique. *)
Theorem removeConfig_deletes (a : string) (w : World) :
  (claudeDirExists w = true →
     (outcome (removeConfig a w) = Throw (AliasMissing a)
      ↔ ∀ c, c ∈ listAll w → alias c ≠ Some a))
  ∧ (outcome (removeConfig a w) = Throw (AliasMissing a) →
       listAll (state (removeConfig a w)) = listAll w
       ∧ (is_Some (configFile w) →
            configFile (state (removeConfig a w)) = configFile w))
  ∧ ((∃ c, c ∈ listAll w ∧ alias c = Some a) →
       ∃ c, outcome (removeConfig a w) = Ok c ∧ c ∈ listAll w
            ∧ alias c = Some a)
  ∧ (∀ c, outcome (removeConfig a w) = Ok c →
       (∀ c', c' ∈ listAll w → alias c' ≠ Some a → complete c') →
       listAll (state (removeConfig a w))
       = filter (λ c', alias c' ≠ Some a) (listAll w)
       ∧ ∀ l1 l2, listAll w = l1 ++ c :: l2 →
           (∀ c', c' ∈ l1 ++ l2 → alias c' ≠ Some a) →
           listAll (state (removeConfig a w)) = l1 ++ l2).
Proof.
  rewrite removeConfig_run.
  destruct (findAlias a (listAll w)) as [r|] eqn:Hf; cbn zeta; unfold outcome, state;
    cbn [fst snd].
  - apply findAlias_Some in Hf as Hr. destruct Hr as [Hr Ha].
    split; [|split; [done|split; [by eauto|]]].
    { intros _. split; [done|]. intros H. by destruct (H r Hr). }
    intros c [= <-] Hcomplete.
    assert (Hlist : ∀ w', configFile w' = Some (Str.join Str.nl (renderConfig <$>
                       filter (λ c', alias c' ≠ Some a) (listAll w))) →
              listAll w' = filter (λ c', alias c' ≠ Some a) (listAll w)).
    { intros w' Hw'. rewrite (listAll_parse w'), Hw'. simpl.
      rewrite parseConfigs_join.
      - rewrite <-(list_fmap_id (filter _ _)) at 2.
        apply list_fmap_ext. intros i c [Hc1 Hc2]%list_elem_of_lookup_2%list_elem_of_filter.
        rewrite listAll_parse in Hc2.
        apply (rendered_complete _ _ Hc2). apply Hcomplete; [|done].
        by rewrite listAll_parse.
      - apply Forall_forall. intros c [_ Hc]%list_elem_of_filter.
        rewrite listAll_parse in Hc. by apply parseConfigs_clean in Hc. }
    assert (Hafter : listAll
              match currentFile w with
              | Some cur =>
                  if Str.startsWith cur (a +:+ "|")
                  then withCurrentFile None (withConfigFile (Some (Str.join Str.nl
                         (renderConfig <$> filter (λ c', alias c' ≠ Some a) (listAll w)))) w)
                  else withConfigFile (Some (Str.join Str.nl
                         (renderConfig <$> filter (λ c', alias c' ≠ Some a) (listAll w)))) w
              | None => withConfigFile (Some (Str.join Str.nl
                         (renderConfig <$> filter (λ c', alias c' ≠ Some a) (listAll w)))) w
              end = filter (λ c', alias c' ≠ Some a) (listAll w)).
    { apply Hlist. destruct (currentFile w) as [cur|]; [|done].
      by destruct (Str.startsWith cur (a +:+ "|")). }
    split; [done|]. intros l1 l2 Hsplit Hothers. rewrite Hafter, Hsplit.
    rewrite filter_app, filter_cons_False by (by intros H; destruct H).
    rewrite <-filter_app. clear -Hothers.
    induction (l1 ++ l2) as [|x l IH]; [done|].
    rewrite filter_cons_True by (apply Hothers; left).
    f_equal. apply IH. intros c' Hc'. apply Hothers. by right.
  - pose proof (proj1 (findAlias_None _ _) Hf) as Hnone.
    split; [by intros ->|]. split.
    { intros _. split; [apply listAll_initConfig|].
      intros Hex. pose proof (initConfig_exists w Hex) as Hw.
      unfold state in Hw. by rewrite Hw. }
    split; [|done]. intros (c & Hc & Ha). by destruct (Hnone c Hc).
Qed.

Lemma removeConfig_deletes_witness :
  outcome (removeConfig "glm" twoProfiles) = Throw (AliasMissing "glm")
  ∧ listAll (state (removeConfig "glm" twoProfiles)) = listAll twoProfiles
  ∧ listAll (state (removeConfig "kimi" twoProfiles)) = [mirror].
Proof.
  destruct (removeConfig_deletes "glm" twoProfiles) as (Hiff & Hsame & _).
  destruct (removeConfig_deletes "kimi" twoProfiles) as (_ & _ & _ & Hok).
  destruct (Hiff eq_refl) as [_ Hfail].
  assert (Hglm : outcome (removeConfig "glm" twoProfiles)
                 = Throw (AliasMissing "glm")).
  { apply Hfail. apply Forall_forall. decided. }
  split; [exact Hglm|]. split; [apply Hsame, Hglm|].
  destruct (Hok kimi) as [_ Hone]; [reflexivity| |].
  - apply (proj1 (Forall_forall (λ c', alias c' ≠ Some "kimi" → complete c') _)).
    decided.
  - apply (Hone [] [mirror]); [reflexivity|].
    apply Forall_forall. decided.
Defined.

(** C5, as stated, fails: when a remaining line is short, the rewrite stores
    the word "undefined" for each field it lacks, and [listAll] afterwards
    differs from the earlier sequence without the removed record; and on a
    host without [~/.claude], where no profile is stored, [removeConfig]
    fails with ENOENT, not with the unknown-alias error. *)
Lemma removeConfig_rewrites_short_line :
  listAll shortLine = [kimi; draft]
  ∧ outcome (removeConfig "kimi" shortLine) = Ok kimi
  ∧ listAll (state (removeConfig "kimi" shortLine))
    = [mkConfig (Some "draft") (Some "undefined") (Some "undefined")
                (Some "undefined") (Some "TOKEN")]
  ∧ listAll (state (removeConfig "kimi" shortLine)) ≠ [draft]
  ∧ listAll bareHost = []
  ∧ outcome (removeConfig "kimi" bareHost) = Throw ENOENT.
Proof. vm_compute. repeat split; done. Qed.

(** C7. A non-blank stored line with fewer than four fields still gives a
    record; the fields it lacks are [undefined], not the empty string, and
    the kind is TOKEN. *)
Theorem getAllConfigs_short_line (w : World) (content line : string)
  (Hfile : configFile w = Some content)
  (Hline : line ∈ Str.split content Str.nl)
  (Hblank : Str.blank line = false)
  (Hshort : length (Str.split line Str.pipe) < 4) :
  parseLine line ∈ listAll w
  ∧ is_Some (alias (parseLine line))
  ∧ (length (Str.split line Str.pipe) ≤ 1 → name (parseLine line) = None)
  ∧ (length (Str.split line Str.pipe) ≤ 2 → token (parseLine line) = None)
  ∧ url (parseLine line) = None
  ∧ type (parseLine line) = Some "TOKEN".
Proof.
  rewrite listAll_parse, Hfile. simpl. repeat split.
  - unfold parseConfigs. apply list_elem_of_fmap_2. by apply list_elem_of_filter.
  - pose proof (split_not_nil line Str.pipe).
    unfold parseLine. destruct (Str.split line Str.pipe); [done|]. simpl. eauto.
  - intros. by apply lookup_ge_None_2.
  - intros. by apply lookup_ge_None_2.
  - apply lookup_ge_None_2. lia.
  - unfold parseLine. cbn [type].
    rewrite (lookup_ge_None_2 _ 4) by lia. done.
Qed.

Lemma getAllConfigs_short_line_witness :
  draft ∈ listAll shortLine ∧ url draft = None ∧ type draft = Some "TOKEN".
Proof.
  destruct (getAllConfigs_short_line shortLine
              ("kimi|Claude|sk-xxx|https://api.moonshot.cn/anthropic|TOKEN"
               +:+ Str.chr Str.nl +:+ "draft") "draft")
    as (Hin & _ & _ & _ & Hurl & Htype);
    [reflexivity|decided|reflexivity|vm_compute; lia|].
  done.
Defined.

(** C7, as stated, fails: the fields a short line lacks are not the empty
    string. *)
Lemma getAllConfigs_short_line_undefined :
  listAll shortLine = [kimi; draft]
  ∧ name draft = None
  ∧ name draft ≠ Some "".
Proof. vm_compute. repeat split; done. Qed.

(** ** Activation *)

Section Activation.

Implicit Types (w : World) (c : Config).

Lemma updateClaudeSettings_run (tk u : option string) w :
  updateClaudeSettings tk u w
  = match updatedSettings tk u (settingsDoc w) with
    | Ok doc =>
        if settingsWritable w
        then (withSettingsFile (Settings (Json.written doc)) w, Ok ())
        else (w, Throw SettingsWriteFailed)
    | Throw e => (w, Throw e)
    end.
Proof.
  unfold updateClaudeSettings, readClaudeSettings, writeClaudeSettings,
    updatedSettings, settingsDoc, lift. run.
  destruct (settingsFile w) as [| |doc];
    (destruct (setEnv _ "ANTHROPIC_AUTH_TOKEN" tk) as [d1|e1]; [|done]);
    by destruct (setEnv d1 "ANTHROPIC_BASE_URL" u).
Qed.

Lemma getProfileFile_run w :
  ∃ d p, getProfileFile w = (withDirs d w, Ok p).
Proof.
  unfold getProfileFile. run. cbn [id].
  generalize (detectShell w). intros sh.
  assert (Hw : withDirs (dirs w) w = w) by by destruct w.
  destruct (isWin w); repeat case_bool_decide;
    first [by eauto | exists (dirs w); eexists; by rewrite Hw].
Qed.

Lemma updateShellConfig_run c w :
  ∃ w', updateShellConfig c w = (w', Ok ())
        ∧ configFile w' = configFile w
        ∧ currentFile w' = currentFile w
        ∧ settingsFile w' = settingsFile w
        ∧ env w' = sessionEnv c (env w).
Proof.
  unfold updateShellConfig. unfold mbind at 1. unfold M_bind, bind.
  destruct (getProfileFile_run w) as (d & p & ->).
  unfold setCurrentSessionEnvironmentVariables,
    setWindowsEnvironmentVariable, updateWindowsPowerShellConfig,
    updateUnixShellConfig, readProfile, writeProfile, sessionEnv.
  run. generalize (detectShell (withDirs d w)). intros sh.
  cbn [isWin withDirs withEnv withFiles withUserEnv setxWorks env
       configFile currentFile settingsFile files userEnv dirs].
  destruct (isWin w); [|by eauto 10].
  destruct (bool_decide (sh = "cmd") || negb (Str.truthy p)); [|by eauto 10].
  cbn [isWin withDirs withEnv withFiles withUserEnv setxWorks env
       configFile currentFile settingsFile files userEnv dirs].
  destruct (setxWorks w) eqn:Hsetx;
    cbn [isWin withDirs withEnv withFiles withUserEnv setxWorks env
         configFile currentFile settingsFile files userEnv dirs];
    rewrite ?Hsetx; eauto 10.
Qed.

Lemma setCurrentConfig_run c w :
  setCurrentConfig c w
  = if claudeDirExists w then
      match updateClaudeSettings (token c) (url c) (pointed c w) with
      | (w1, Ok _) => (w1, Ok ())
      | (w1, Throw _) => updateShellConfig c w1
      end
    else (w, Throw ENOENT).
Proof.
  unfold setCurrentConfig, writeInClaudeDir, pointed. run.
  destruct (claudeDirExists w); [|done].
  destruct (updateClaudeSettings _ _ _) as [w1 [[]|e]]; done.
Qed.

(** Without [~/.claude] the pointer cannot be written, and activation
    stops there. *)
Lemma setCurrentConfig_bare c w :
  claudeDirExists w = false → setCurrentConfig c w = (w, Throw ENOENT).
Proof. intros H. by rewrite setCurrentConfig_run, H. Qed.

Lemma settingsUpdated_iff c w :
  settingsUpdated c w
  ↔ claudeDirExists w = true
    ∧ ∃ doc, updatedSettings (token c) (url c) (settingsDoc w) = Ok doc
             ∧ settingsWritable w = true.
Proof.
  unfold settingsUpdated. rewrite updateClaudeSettings_run.
  change (settingsDoc (pointed c w)) with (settingsDoc w).
  change (settingsWritable (pointed c w)) with (settingsWritable w).
  destruct (updatedSettings _ _ _) as [doc|e];
    [|split; [by intros [??]|by intros (?&?&?&?)]].
  destruct (settingsWritable w);
    [|split; [by intros [??]|by intros (?&?&?&?)]].
  split; intros [? _]; eauto.
Qed.

(** What [setCurrentConfig] leaves behind, on the two paths. *)
Lemma setCurrentConfig_state c w :
  claudeDirExists w = true →
  ∃ w', setCurrentConfig c w = (w', Ok ())
        ∧ configFile w' = configFile w
        ∧ currentFile w' = Some (renderConfig c)
        ∧ (settingsUpdated c w →
             env w' = env w
             ∧ ∃ doc, updatedSettings (token c) (url c) (settingsDoc w) = Ok doc
                      ∧ settingsFile w' = Settings (Json.written doc))
        ∧ (¬ settingsUpdated c w →
             env w' = sessionEnv c (env w) ∧ settingsFile w' = settingsFile w).
Proof.
  intros Hdir. rewrite setCurrentConfig_run, Hdir.
  pose proof (settingsUpdated_iff c w) as Hiff.
  rewrite updateClaudeSettings_run.
  change (settingsDoc (pointed c w)) with (settingsDoc w).
  change (settingsWritable (pointed c w)) with (settingsWritable w).
  destruct (updatedSettings _ _ _) as [doc|e] eqn:Hdoc.
  - destruct (settingsWritable w) eqn:Hw.
    + eexists. split; [reflexivity|]. split; [done|]. split; [done|]. split.
      * intros _. split; [done|]. eauto.
      * intros Hn. destruct Hn. apply Hiff. eauto.
    + destruct (updateShellConfig_run c (pointed c w))
        as (w' & -> & ? & ? & ? & ?).
      exists w'. split; [done|]. split; [done|]. split; [done|]. split.
      * intros Hup. by apply Hiff in Hup as (? & ? & ? & ?).
      * done.
  - destruct (updateShellConfig_run c (pointed c w))
      as (w' & -> & ? & ? & ? & ?).
    exists w'. split; [done|]. split; [done|]. split; [done|]. split.
    + intros Hup. by apply Hiff in Hup as (? & ? & ? & ?).
    + done.
Qed.

Lemma envVarOf_cases c :
  (type c = Some "KEY" →
     envVarOf c = "ANTHROPIC_API_KEY"
     ∧ otherEnvVarOf c = "ANTHROPIC_AUTH_TOKEN")
  ∧ (type c ≠ Some "KEY" →
     envVarOf c = "ANTHROPIC_AUTH_TOKEN"
     ∧ otherEnvVarOf c = "ANTHROPIC_API_KEY").
Proof.
  unfold envVarOf, otherEnvVarOf. split; intros H.
  - by rewrite !bool_decide_eq_true_2.
  - by rewrite !bool_decide_eq_false_2.
Qed.

Lemma sessionEnv_lookup c (e : gmap string string) :
  sessionEnv c e !! envVarOf c = Some (toStr (token c))
  ∧ sessionEnv c e !! otherEnvVarOf c = None
  ∧ sessionEnv c e !! "ANTHROPIC_BASE_URL" = Some (toStr (url c)).
Proof.
  unfold sessionEnv, envVarOf, otherEnvVarOf.
  case_bool_decide; repeat split.
  all: repeat first
         [ rewrite lookup_insert_eq
         | rewrite lookup_insert_ne by done
         | rewrite lookup_delete_eq
         | rewrite lookup_delete_ne by done ]; done.
Qed.

Lemma envVarOf_rendered c : envVarOf (rendered c) = envVarOf c.
Proof.
  unfold envVarOf, rendered. cbn [type].
  destruct (type c) as [ty|] eqn:E; cbn [orElse].
  - destruct (Str.truthy ty) eqn:Ht.
    + done.
    + destruct ty; [|done]. by rewrite !bool_decide_eq_false_2.
  - by rewrite !bool_decide_eq_false_2.
Qed.

Lemma getCurrent_pointer c w :
  pipeFreeConfig c → currentFile w = Some (renderConfig c) →
  getCurrent w
  = Some {| current := rendered c;
            isActive :=
              bool_decide (env w !! envVarOf c = Some (toStr (token c)))
              && bool_decide (env w !! "ANTHROPIC_BASE_URL"
                              = Some (toStr (url c))) |}.
Proof.
  intros Hp Hcur. unfold getCurrent, getCurrentConfig. run. rewrite Hcur.
  pose proof (parseLine_render c Hp) as Hparse. unfold parseLine in Hparse.
  rewrite Hparse. cbn [id]. unfold getenv. by rewrite envVarOf_rendered.
Qed.

End Activation.

(** C1. After a successful [setCurrentConfig] the process environment
    should hold the credential of the profile, whichever path was taken.
    The code does otherwise when the settings update goes through: it
    returns normally and leaves the process environment alone.  After [kimi]
    (TOKEN) is activated in a process that holds the variables of [mirror]
    (KEY), the token variable is absent, the key variable still holds the
    old secret, and the base URL is the old one. *)
Lemma setCurrentConfig_settings_path_keeps_env :
  outcome (setCurrentConfig kimi mirrorSession) = Ok ()
  ∧ env (state (setCurrentConfig kimi mirrorSession)) !! "ANTHROPIC_AUTH_TOKEN"
    = None
  ∧ env (state (setCurrentConfig kimi mirrorSession)) !! "ANTHROPIC_API_KEY"
    = Some "sk-ant-XXXX"
  ∧ env (state (setCurrentConfig kimi mirrorSession)) !! "ANTHROPIC_BASE_URL"
    = Some "https://api.aicodemirror.com/api/claudecode".
Proof. vm_compute. done. Qed.

(** C2. Right after [setCurrentConfig], [getCurrentConfig] should report
    [isActive = true].  The code does otherwise when the settings update
    goes through: the process environment is not touched, and
    [getCurrentConfig] right after [setCurrentConfig] returns the profile
    with [isActive = false]. *)
Lemma getCurrentConfig_inactive_after_activation :
  outcome (setCurrentConfig kimi emptyWorld) = Ok ()
  ∧ getCurrent (state (setCurrentConfig kimi emptyWorld))
    = Some {| current := kimi; isActive := false |}.
Proof. vm_compute. done. Qed.

(** X24. When the settings update fails and the shell configuration is used
    instead, on a host where [~/.claude] exists, [setCurrentConfig] returns
    normally and the process environment afterwards holds the secret under
    the variable of the profile's kind (ANTHROPIC_API_KEY for KEY,
    ANTHROPIC_AUTH_TOKEN otherwise), lacks the other credential variable,
    and holds the base URL under ANTHROPIC_BASE_URL. *)
Theorem setCurrentConfig_fallback_environment (c : Config) (w : World)
  (Hdir : claudeDirExists w = true) (Hfail : ¬ settingsUpdated c w) :
  outcome (setCurrentConfig c w) = Ok ()
  ∧ env (state (setCurrentConfig c w)) !! envVarOf c = Some (toStr (token c))
  ∧ env (state (setCurrentConfig c w)) !! otherEnvVarOf c = None
  ∧ env (state (setCurrentConfig c w)) !! "ANTHROPIC_BASE_URL"
    = Some (toStr (url c))
  ∧ (type c = Some "KEY" →
       envVarOf c = "ANTHROPIC_API_KEY"
       ∧ otherEnvVarOf c = "ANTHROPIC_AUTH_TOKEN")
  ∧ (type c ≠ Some "KEY" →
       envVarOf c = "ANTHROPIC_AUTH_TOKEN"
       ∧ otherEnvVarOf c = "ANTHROPIC_API_KEY").
Proof.
  destruct (setCurrentConfig_state c w Hdir) as (w' & -> & _ & _ & _ & Hfall).
  unfold outcome, state. cbn [fst snd]. destruct (Hfall Hfail) as [-> _].
  split; [done|]. destruct (sessionEnv_lookup c (env w)) as (? & ? & ?).
  split; [done|]. split; [done|]. split; [done|]. apply envVarOf_cases.
Qed.

Lemma setCurrentConfig_fallback_environment_witness :
  env (state (setCurrentConfig mirror arraySettings)) !! "ANTHROPIC_API_KEY"
  = Some "sk-ant-XXXX"
  ∧ env (state (setCurrentConfig mirror arraySettings)) !! "ANTHROPIC_AUTH_TOKEN"
    = None.
Proof.
  destruct (setCurrentConfig_fallback_environment mirror arraySettings)
    as (_ & Hvar & Hother & _ & Hkey & _);
    [reflexivity|intros [_ H]; discriminate H|].
  destruct Hkey as [Hv Ho]; [reflexivity|].
  rewrite Hv in Hvar. rewrite Ho in Hother. split; [exact Hvar|exact Hother].
Defined.

(** X25. After an activation that took the shell-configuration path, on a
    host where [~/.claude] exists and for a profile whose fields hold no
    field separator, [getCurrentConfig] returns the profile as the pointer
    file renders it, which is the profile itself when it has its four
    leading fields and a kind, and reports [isActive = true].  On either
    path [isActive] is false once the credential variable of the profile's
    kind is set to another value, or removed. *)
Theorem getCurrentConfig_fallback_liveness (c : Config) (w : World)
  (Hdir : claudeDirExists w = true) (Hpipe : pipeFreeConfig c) :
  (¬ settingsUpdated c w →
     ∃ r, getCurrent (state (setCurrentConfig c w)) = Some r
          ∧ current r = rendered c
          ∧ isActive r = true)
  ∧ (complete c → (∃ ty, type c = Some ty ∧ ty ≠ "") → rendered c = c)
  ∧ (∀ v, v ≠ toStr (token c) →
       ∃ r, getCurrent (withEnv (<[envVarOf c := v]>
                                   (env (state (setCurrentConfig c w))))
                                (state (setCurrentConfig c w))) = Some r
            ∧ isActive r = false)
  ∧ (∃ r, getCurrent (withEnv (delete (envVarOf c)
                                 (env (state (setCurrentConfig c w))))
                              (state (setCurrentConfig c w))) = Some r
          ∧ isActive r = false).
Proof.
  destruct (setCurrentConfig_state c w Hdir)
    as (w' & -> & _ & Hcur & Hok & Hfall).
  unfold state. cbn [fst]. split; [|split; [|split]].
  - intros Hn. eexists. split; [by apply getCurrent_pointer|]. split; [done|].
    cbn [isActive]. destruct (Hfall Hn) as [-> _].
    destruct (sessionEnv_lookup c (env w)) as (-> & _ & ->).
    by rewrite !bool_decide_eq_true_2.
  - intros ([a Ha] & [n Hn] & [t Ht] & [u Hu]) (ty & Hty & Hne).
    destruct c as [? ? ? ? ?]. cbn in *. subst. unfold rendered.
    cbn [alias name token url type toStr orElse]. by destruct ty.
  - intros v Hv. eexists. split; [by apply getCurrent_pointer|].
    cbn [isActive env withEnv]. rewrite lookup_insert_eq.
    rewrite bool_decide_eq_false_2; [done|]. by intros [= ->].
  - eexists. split; [by apply getCurrent_pointer|].
    cbn [isActive env withEnv]. rewrite lookup_delete_eq.
    by rewrite bool_decide_eq_false_2.
Qed.

Lemma getCurrentConfig_fallback_liveness_witness :
  (∃ r, getCurrent (state (setCurrentConfig kimi arraySettings)) = Some r
        ∧ current r = kimi ∧ isActive r = true)
  ∧ (∃ r, getCurrent
            (withEnv (<["ANTHROPIC_AUTH_TOKEN" := "sk-other"]>
                        (env (state (setCurrentConfig kimi arraySettings))))
                     (state (setCurrentConfig kimi arraySettings))) = Some r
          ∧ isActive r = false).
Proof.
  destruct (getCurrentConfig_fallback_liveness kimi arraySettings)
    as (Hfall & _ & Hset & _); [reflexivity|by repeat split|].
  split.
  - destruct Hfall as (r & Hr & Hc & Ha); [intros [_ H]; discriminate H|].
    exists r. split; [exact Hr|]. split; [exact Hc|exact Ha].
  - apply (Hset "sk-other"). discriminate.
Defined.

(** C6. After a stored profile is activated and then removed,
    [getCurrentConfig] returns nothing: the removal deleted the pointer
    file. *)
Theorem removeConfig_clears_pointer (c : Config) (a : string) (w : World)
  (Hstored : c ∈ listAll w) (Halias : alias c = Some a) :
  outcome (setCurrentConfig c w) = Ok ()
  ∧ (∃ r, outcome (removeConfig a (state (setCurrentConfig c w))) = Ok r
          ∧ alias r = Some a)
  ∧ getCurrentConfig (state (removeConfig a (state (setCurrentConfig c w))))
    = (state (removeConfig a (state (setCurrentConfig c w))), Ok None)
  ∧ outcome ((setCurrentConfig c;; removeConfig a;; getCurrentConfig) w)
    = Ok None.
Proof.
  destruct (setCurrentConfig_state c w (claudeDir_stored w c Hstored))
    as (w1 & Hset & Hconf & Hcur & _).
  assert (Hlist : listAll w1 = listAll w) by by rewrite !listAll_parse, Hconf.
  destruct (findAlias a (listAll w)) as [r|] eqn:Hfind.
  2: { by destruct (proj1 (findAlias_None _ _) Hfind c Hstored). }
  assert (Hstart : Str.startsWith (renderConfig c) (a +:+ "|") = true).
  { unfold renderConfig. rewrite Halias. cbn [toStr].
    rewrite <-app_assoc. apply startsWith_app. }
  pose proof (removeConfig_run a w1) as Hrem.
  rewrite Hlist, Hfind, Hcur, Hstart in Hrem. cbn zeta in Hrem.
  run. rewrite Hset. unfold state, outcome. cbn [fst snd]. rewrite Hrem.
  cbn [fst snd]. repeat split; try done.
  exists r. split; [done|]. by apply findAlias_Some in Hfind as [_ ?].
Qed.

Lemma removeConfig_clears_pointer_witness :
  outcome ((setCurrentConfig kimi;; removeConfig "kimi";; getCurrentConfig)
             twoProfiles) = Ok None.
Proof.
  apply (removeConfig_clears_pointer kimi "kimi" twoProfiles);
    [decided|reflexivity].
Defined.

(** ** The settings document *)

Section Settings.

Implicit Types (o : list (string * json)) (k : string) (doc : json).

Lemma get_set_eq k (v : json) o : Obj.get k (Obj.set k v o) = Some v.
Proof.
  induction o as [|[k' v'] o IH]; simpl.
  - by rewrite bool_decide_eq_true_2.
  - case_bool_decide as Hk; simpl.
    + by rewrite bool_decide_eq_true_2.
    + by rewrite bool_decide_eq_false_2.
Qed.

Lemma get_set_ne k k' (v : json) o :
  k' ≠ k → Obj.get k' (Obj.set k v o) = Obj.get k' o.
Proof.
  intros Hne. induction o as [|[k0 v0] o IH]; simpl.
  - by rewrite bool_decide_eq_false_2.
  - case_bool_decide as Hk; simpl.
    + subst. by rewrite !bool_decide_eq_false_2.
    + by rewrite IH.
Qed.

Lemma get_remove_eq k o : Obj.get k (Obj.remove k o) = None.
Proof.
  unfold Obj.remove. induction o as [|[k0 v0] o IH]; [done|].
  rewrite filter_cons. case_decide as Hk; simpl in *; [|done].
  by rewrite bool_decide_eq_false_2.
Qed.

Lemma get_remove_ne k k' o :
  k' ≠ k → Obj.get k' (Obj.remove k o) = Obj.get k' o.
Proof.
  intros Hne. unfold Obj.remove. induction o as [|[k0 v0] o IH]; [done|].
  rewrite filter_cons. case_decide as Hk; simpl in *.
  - by rewrite IH.
  - destruct (decide (k0 = k)) as [->|]; [|done].
    by rewrite bool_decide_eq_false_2.
Qed.

Lemma get_assign_eq k (v : option string) o :
  Obj.get k (Obj.assign k v o) = JStr <$> v.
Proof. destruct v; [apply get_set_eq|apply get_remove_eq]. Qed.

Lemma get_assign_ne k k' (v : option string) o :
  k' ≠ k → Obj.get k' (Obj.assign k v o) = Obj.get k' o.
Proof. destruct v; [apply get_set_ne|apply get_remove_ne]. Qed.

(** One assignment to an entry of [env] leaves every other property of
    the document and every other entry of [env] as they were. *)
Lemma setEnv_frame doc k (v : option string) doc' :
  setEnv doc k v = Ok doc' →
  (∀ k', k' ≠ "env" → docGet k' doc' = docGet k' doc)
  ∧ is_Some (docGet "env" doc')
  ∧ (∀ k', k' ≠ k → envGet k' doc' = envGet k' doc)
  ∧ (∀ e, docGet "env" doc = Some (JObj e) →
       ∃ e', docGet "env" doc' = Some (JObj e')
             ∧ envGet k doc' = JStr <$> v).
Proof.
  unfold setEnv. destruct doc as [| | | | |props]; try done.
  destruct (Obj.get "env" props) as [[| | | |items|e]|] eqn:Henv; try done.
  - intros [= <-]. unfold envGet. simpl. rewrite Henv. by eauto.
  - intros [= <-]. unfold envGet. simpl. rewrite get_set_eq. simpl.
    repeat split.
    + intros k' Hk'. by apply get_set_ne.
    + eauto.
    + intros k' Hk'. rewrite Henv. simpl. by apply get_assign_ne.
    + intros e0 _. eexists. split; [done|]. apply get_assign_eq.
Qed.

Lemma updatedSettings_frame (tk u : option string) doc doc' :
  updatedSettings tk u doc = Ok doc' →
  (∀ k, k ≠ "env" → docGet k doc' = docGet k doc)
  ∧ is_Some (docGet "env" doc')
  ∧ (∀ k, k ∉ credentialEntries → envGet k doc' = envGet k doc)
  ∧ envGet "ANTHROPIC_API_KEY" doc' = envGet "ANTHROPIC_API_KEY" doc
  ∧ (∀ e, docGet "env" doc = Some (JObj e) →
       envGet "ANTHROPIC_AUTH_TOKEN" doc' = JStr <$> tk
       ∧ envGet "ANTHROPIC_BASE_URL" doc' = JStr <$> u).
Proof.
  unfold updatedSettings.
  destruct (setEnv doc "ANTHROPIC_AUTH_TOKEN" tk) as [d1|] eqn:H1; [|done].
  intros H2.
  apply setEnv_frame in H1 as (Ha1 & Hb1 & Hc1 & Hd1).
  apply setEnv_frame in H2 as (Ha2 & Hb2 & Hc2 & Hd2).
  repeat split.
  - intros k Hk. by rewrite Ha2, Ha1.
  - done.
  - intros k Hk. unfold credentialEntries in Hk.
    apply not_elem_of_cons in Hk as [? Hk].
    apply not_elem_of_cons in Hk as [? Hk].
    apply not_elem_of_cons in Hk as [? _].
    by rewrite Hc2, Hc1.
  - by rewrite Hc2, Hc1.
  - destruct (Hd1 e H) as (e1 & He1 & Hv1). by rewrite Hc2.
  - destruct (Hd1 e H) as (e1 & He1 & Hv1).
    by destruct (Hd2 e1 He1) as (e2 & He2 & Hv2).
Qed.

(** What [JSON.stringify] writes of a document holds, under each key, what
    it writes of the value under that key. *)
Lemma get_written k o :
  Obj.get k (List.map (λ kv, (kv.1, Json.written kv.2)) o)
  = Json.written <$> Obj.get k o.
Proof.
  induction o as [|[k' v'] o IH]; [done|]. cbn [List.map Obj.get fst snd].
  by case_bool_decide.
Qed.

Lemma docGet_written k doc :
  docGet k (Json.written doc) = Json.written <$> docGet k doc.
Proof.
  destruct doc as [| |lit| | |props]; try done.
  - cbn [Json.written]. by destruct (Number.written lit).
  - apply get_written.
Qed.

Lemma envGet_written k doc :
  envGet k (Json.written doc) = Json.written <$> envGet k doc.
Proof.
  unfold envGet. rewrite docGet_written.
  destruct (docGet "env" doc) as [e|]; [|done]. apply docGet_written.
Qed.

End Settings.

(** C8. When the settings file holds a JSON document and the update goes
    through, every property of the document other than [env], and every
    entry of [env] other than ANTHROPIC_AUTH_TOKEN, ANTHROPIC_API_KEY and
    ANTHROPIC_BASE_URL, is present in the file with the value
    [JSON.stringify] writes for it: a value whose numbers are in the form
    [JSON.stringify] gives them is unchanged.  When the update fails, the
    file is left as it was. *)
Theorem setCurrentConfig_preserves_settings (c : Config) (w : World)
  (doc : json) (Hdoc : settingsFile w = Settings doc) :
  ∃ doc', settingsFile (state (setCurrentConfig c w)) = Settings doc'
    ∧ (settingsUpdated c w →
         (∀ k, k ≠ "env" → docGet k doc' = Json.written <$> docGet k doc)
         ∧ (∀ k, k ∉ credentialEntries →
              envGet k doc' = Json.written <$> envGet k doc))
    ∧ (¬ settingsUpdated c w → doc' = doc)
    ∧ (is_Some (docGet "env" doc) → is_Some (docGet "env" doc'))
    ∧ (∀ k v, k ≠ "env" → docGet k doc = Some v → Json.written v = v →
         docGet k doc' = Some v)
    ∧ (∀ k v, k ∉ credentialEntries → envGet k doc = Some v →
         Json.written v = v → envGet k doc' = Some v).
Proof.
  assert (Hdir : claudeDirExists w = true).
  { apply claudeDir_settings. by rewrite Hdoc. }
  destruct (setCurrentConfig_state c w Hdir)
    as (w' & -> & _ & _ & Hok & Hfall).
  unfold state. cbn [fst].
  destruct (decide (settingsUpdated c w)) as [Hup|Hn].
  - destruct (Hok Hup) as (_ & doc' & Hdoc' & ->).
    unfold settingsDoc in Hdoc'. rewrite Hdoc in Hdoc'.
    apply updatedSettings_frame in Hdoc' as (Htop & Henv & Hother & _).
    exists (Json.written doc'). split; [done|].
    assert (Hkeys : ∀ k, k ≠ "env" →
              docGet k (Json.written doc') = Json.written <$> docGet k doc).
    { intros k Hk. by rewrite docGet_written, Htop. }
    assert (Hentries : ∀ k, k ∉ credentialEntries →
              envGet k (Json.written doc') = Json.written <$> envGet k doc).
    { intros k Hk. by rewrite envGet_written, Hother. }
    split; [done|]. split; [done|]. split; [|split].
    + intros _. rewrite docGet_written. destruct Henv as [e ->]. by eexists.
    + intros k v Hk Hv Hfix. by rewrite Hkeys, Hv; cbn; rewrite ?Hfix.
    + intros k v Hk Hv Hfix. by rewrite Hentries, Hv; cbn; rewrite ?Hfix.
  - destruct (Hfall Hn) as [_ ->]. exists doc. by repeat split.
Qed.

Lemma setCurrentConfig_preserves_settings_witness :
  ∃ doc', settingsFile (state (setCurrentConfig kimi customSettings))
          = Settings doc'
    ∧ docGet "model" doc' = Some (JStr "opus")
    ∧ docGet "permissions" doc'
      = Some (JObj [("allow", JArr [JStr "Bash"]); ("deny", JArr [])])
    ∧ envGet "HTTP_PROXY" doc' = Some (JStr "http://proxy:8080").
Proof.
  destruct (setCurrentConfig_preserves_settings kimi customSettings _ eq_refl)
    as (doc' & Hfile & _ & _ & _ & Htop & Henv).
  exists doc'. split; [exact Hfile|].
  split; [apply Htop; [discriminate|reflexivity|reflexivity]|].
  split; [apply Htop; [discriminate|reflexivity|reflexivity]|].
  apply Henv; [decided|reflexivity|reflexivity].
Defined.

(** C8, as stated, fails: the rewritten file holds the numbers as
    [JSON.stringify] writes the doubles [JSON.parse] read.  An unrelated
    entry 12345678901234567890 of [env] becomes 12345678901234567000, and an
    unrelated property 1e400 becomes [null]. *)
Lemma setCurrentConfig_rewrites_numbers :
  envGet "API_TIMEOUT_MS" (settingsDoc longTimeout)
  = Some (JNum "12345678901234567890")
  ∧ docGet "maxTokens" (settingsDoc longTimeout) = Some (JNum "1e400")
  ∧ outcome (setCurrentConfig kimi longTimeout) = Ok ()
  ∧ settingsFile (state (setCurrentConfig kimi longTimeout))
    = Settings
        (JObj [("env",
                JObj [("API_TIMEOUT_MS", JNum "12345678901234567000");
                      ("ANTHROPIC_AUTH_TOKEN", JStr "sk-xxx");
                      ("ANTHROPIC_BASE_URL",
                       JStr "https://api.moonshot.cn/anthropic")]);
               ("maxTokens", JNull);
               ("retries", JNum "3")]).
Proof. vm_compute. done. Qed.



(** ** String search *)

Section Search.

Implicit Types (s t u v n : string) (i j : nat).

Lemma take_drop i s : Str.take i s +:+ Str.drop i s = s.
Proof.
  revert s. induction i as [|i IH]; intros [|a s]; try done.
  simpl. by rewrite app_cons, IH.
Qed.

Lemma drop_app_le j u v :
  j ≤ Str.length u → Str.drop j (u +:+ v) = Str.drop j u +:+ v.
Proof.
  revert u. induction j as [|j IH]; intros [|a u] Hj; try done.
  - simpl in Hj. lia.
  - rewrite app_cons. simpl. apply IH. unfold Str.length in *. simpl in Hj. lia.
Qed.

Lemma drop_drop i j s : Str.drop i (Str.drop j s) = Str.drop (j + i) s.
Proof.
  revert s. induction j as [|j IH]; intros [|a s]; try done.
  - by destruct i.
  - simpl. apply IH.
Qed.

Lemma length_drop_le j s : Str.length (Str.drop j s) ≤ Str.length s.
Proof.
  revert s. induction j as [|j IH]; intros [|a s]; try done.
  unfold Str.length in *. simpl. specialize (IH s). lia.
Qed.

Lemma startsWith_inv s n :
  Str.startsWith s n = true → s = n +:+ Str.drop (Str.length n) s.
Proof.
  revert s. induction n as [|b n IH]; intros [|a s]; try done.
  simpl. intros [->%bool_decide_eq_true_1 H]%andb_true_iff.
  rewrite app_cons. f_equal. by apply IH.
Qed.

Lemma startsWith_length s n :
  Str.startsWith s n = true → Str.length n ≤ Str.length s.
Proof.
  intros H%startsWith_inv. rewrite H, length_app. lia.
Qed.

Lemma startsWith_app_l u v n :
  Str.startsWith u n = true → Str.startsWith (u +:+ v) n = true.
Proof.
  intros H%startsWith_inv. rewrite H, app_assoc. apply startsWith_app.
Qed.

(** A needle without a line break that starts before a line break lies
    before it. *)
Lemma startsWith_before_nl u v n :
  lineFree n → Str.startsWith (u +:+ String Str.nl v) n = true →
  Str.startsWith u n = true.
Proof.
  unfold lineFree. revert u. induction n as [|b n IH]; intros u Hn; [done|].
  simpl in Hn. apply orb_false_iff in Hn as [Hb Hn].
  destruct u as [|a u].
  - rewrite app_nil_l. simpl. intros [Ha _]%andb_true_iff.
    apply bool_decide_eq_true_1 in Ha. apply bool_decide_eq_false_1 in Hb.
    by destruct Hb.
  - rewrite app_cons. simpl. intros [-> H]%andb_true_iff. simpl. eauto.
Qed.

(** A needle starts with a character the text does not have there. *)
Lemma startsWith_first s n (a : ascii) :
  Str.has (Str.take 1 s) a = false → Str.startsWith s (String a n) = false.
Proof.
  destruct s as [|b s]; [done|]. simpl. rewrite orb_false_r. by intros ->.
Qed.

Lemma find_here s n : Str.startsWith s n = true → Str.find s n = Some 0.
Proof. intros H. destruct s; simpl; by rewrite H. Qed.

Lemma find_Some s n i :
  Str.find s n = Some i →
  Str.startsWith (Str.drop i s) n = true
  ∧ i ≤ Str.length s
  ∧ ∀ j, j < i → Str.startsWith (Str.drop j s) n = false.
Proof.
  revert i. induction s as [|a s IH]; intros i; simpl.
  - destruct (Str.startsWith "" n) eqn:H; [|done].
    intros [= <-]. split; [done|]. split; [done|]. lia.
  - destruct (Str.startsWith (String a s) n) eqn:H.
    + intros [= <-]. split; [done|]. split; [lia|]. lia.
    + destruct (Str.find s n) as [k|] eqn:Hk; [|done].
      intros [= <-]. destruct (IH k eq_refl) as (H1 & H2 & H3).
      split; [done|]. split; [unfold Str.length in *; simpl; lia|].
      intros [|j] Hj; [done|]. apply H3. lia.
Qed.

Lemma find_None s n j :
  Str.find s n = None → Str.startsWith (Str.drop j s) n = false.
Proof.
  revert j. induction s as [|a s IH]; intros j; simpl.
  - destruct (Str.startsWith "" n) eqn:H; [done|]. by destruct j.
  - destruct (Str.startsWith (String a s) n) eqn:H; [done|].
    destruct (Str.find s n) eqn:Hk; [done|]. intros _.
    destruct j; [done|]. by apply IH.
Qed.

(** No occurrence starts in [u]: the search goes on in [v]. *)
Lemma find_skip u v n :
  (∀ j, j < Str.length u → Str.startsWith (Str.drop j (u +:+ v)) n = false) →
  Str.find (u +:+ v) n = (λ i, Str.length u + i) <$> Str.find v n.
Proof.
  induction u as [|a u IH]; intros H.
  - rewrite app_nil_l. by destruct (Str.find v n).
  - assert (H0 : Str.startsWith (String a (u +:+ v)) n = false).
    { apply (H 0). unfold Str.length. simpl. lia. }
    rewrite app_cons. simpl. rewrite H0, IH.
    + by destruct (Str.find v n).
    + intros j Hj. apply (H (S j)). unfold Str.length in *. simpl. lia.
Qed.

Lemma occurrences_skip u v n :
  (∀ j, j < Str.length u → Str.startsWith (Str.drop j (u +:+ v)) n = false) →
  occurrences (u +:+ v) n = occurrences v n.
Proof.
  induction u as [|a u IH]; intros H; [done|].
  assert (H0 : Str.startsWith (String a (u +:+ v)) n = false).
  { apply (H 0). unfold Str.length. simpl. lia. }
  rewrite app_cons. simpl. rewrite H0. simpl.
  apply IH. intros j Hj. apply (H (S j)). unfold Str.length in *. simpl. lia.
Qed.

(** No needle starts in a stretch that lacks its first character. *)
Lemma no_start_without_first u v n (a : ascii) j :
  Str.has u a = false → j < Str.length u →
  Str.startsWith (Str.drop j (u +:+ v)) (String a n) = false.
Proof.
  revert j. induction u as [|b u IH]; intros j Hu Hj.
  - unfold Str.length in Hj. simpl in Hj. lia.
  - simpl in Hu. apply orb_false_iff in Hu as [Hb Hu]. rewrite app_cons.
    destruct j as [|j]; simpl.
    + by rewrite Hb.
    + apply IH; [done|]. unfold Str.length in *. simpl in Hj. lia.
Qed.

(** No needle without a line break starts in [u] before a line break,
    unless it occurs in [u]. *)
Lemma no_start_before_nl u v n j :
  lineFree n → j ≤ Str.length u →
  Str.startsWith (Str.drop j u) n = false →
  Str.startsWith (Str.drop j (u +:+ String Str.nl v)) n = false.
Proof.
  intros Hn Hj Hu. rewrite drop_app_le by done.
  destruct (Str.startsWith (Str.drop j u +:+ String Str.nl v) n) eqn:H; [|done].
  apply startsWith_before_nl in H; [|done]. congruence.
Qed.

(** *** [indexOf] and [substring] in terms of [find], [take] and [drop] *)

Lemma indexOf_none s n : Str.indexOf s n = (-1)%Z ↔ Str.find s n = None.
Proof. unfold Str.indexOf. destruct (Str.find s n); split; (done || lia). Qed.

Lemma indexOf_some s n i :
  Str.indexOf s n = Z.of_nat i ↔ Str.find s n = Some i.
Proof.
  unfold Str.indexOf. destruct (Str.find s n) as [k|]; split; intros H.
  - f_equal. lia.
  - injection H as ->. done.
  - lia.
  - done.
Qed.

Lemma substring_take s i :
  i ≤ Str.length s → Str.substring s 0 (Z.of_nat i) = Str.take i s.
Proof.
  intros Hi. unfold Str.substring, Str.clamp.
  replace (Z.to_nat (Z.min (Z.max 0 0) (Z.of_nat (Str.length s)))) with 0 by lia.
  replace (Z.to_nat (Z.min (Z.max (Z.of_nat i) 0) (Z.of_nat (Str.length s))))
    with i by lia.
  rewrite Nat.max_r, Nat.min_l, Nat.sub_0_r by lia. done.
Qed.

Lemma substringFrom_drop s i :
  i ≤ Str.length s → Str.substringFrom s (Z.of_nat i) = Str.drop i s.
Proof.
  intros Hi. unfold Str.substringFrom, Str.clamp. f_equal. lia.
Qed.


Lemma length_drop j s : Str.length (Str.drop j s) = Str.length s - j.
Proof.
  revert s. induction j as [|j IH]; intros [|a s]; try done.
  unfold Str.length in *. simpl. apply IH.
Qed.

Lemma length_take j s : j ≤ Str.length s → Str.length (Str.take j s) = j.
Proof.
  revert s. induction j as [|j IH]; intros [|a s] Hj; try done.
  - unfold Str.length in Hj. simpl in Hj. lia.
  - unfold Str.length in *. simpl in *. rewrite IH; lia.
Qed.

Lemma drop_app_add u v j :
  Str.drop (Str.length u + j) (u +:+ v) = Str.drop j v.
Proof. by rewrite <-drop_drop, drop_app. Qed.

Lemma startsWith_app_short u v n :
  Str.length n ≤ Str.length u →
  Str.startsWith (u +:+ v) n = Str.startsWith u n.
Proof.
  revert u. induction n as [|b n IH]; intros [|a u] Hn; try done.
  - unfold Str.length in Hn. simpl in Hn. lia.
  - rewrite app_cons. simpl. rewrite IH; [done|].
    unfold Str.length in *. simpl in Hn. lia.
Qed.

Lemma find_app_found u v n k :
  Str.find u n = Some k → Str.find (u +:+ v) n = Some k.
Proof.
  revert k. induction u as [|a u IH]; intros k Hk; simpl in Hk.
  - destruct (Str.startsWith "" n) eqn:H; [|done]. injection Hk as <-.
    rewrite app_nil_l. apply find_here. by destruct n.
  - destruct (Str.startsWith (String a u) n) eqn:H.
    + injection Hk as <-. apply find_here. by apply startsWith_app_l.
    + destruct (Str.find u n) as [k'|] eqn:Hk'; [|done]. injection Hk as <-.
      assert (Hshort : Str.length n ≤ Str.length (String a u)).
      { apply find_Some in Hk' as (Hk' & _ & _).
        apply startsWith_length in Hk'. rewrite length_drop in Hk'.
        unfold Str.length in *. simpl. lia. }
      pose proof (startsWith_app_short (String a u) v n Hshort) as Hsw.
      rewrite H, app_cons in Hsw. rewrite app_cons. simpl.
      by rewrite Hsw, (IH k').
Qed.

End Search.

(** ** The sentinel block *)

Section Splice.

Implicit Types (content body block A B : string) (c : Config).

Lemma marker_lineFree : lineFree envVarStart ∧ lineFree envVarEnd.
Proof. done. Qed.

Lemma start_not_end v :
  Str.startsWith (envVarStart +:+ v) envVarEnd = false
  ∧ Str.startsWith (envVarEnd +:+ v) envVarStart = false.
Proof. done. Qed.

Lemma blockOf_end body :
  blockOf body = (envVarStart +:+ String Str.nl body) +:+ envVarEnd.
Proof. unfold blockOf. by rewrite app_assoc. Qed.

Lemma splice_found content block i e :
  Str.find content envVarStart = Some i →
  Str.find content envVarEnd = Some e →
  spliceEnvVars content block
  = Str.take i content +:+ block
      +:+ Str.drop (e + Str.length envVarEnd) content.
Proof.
  intros Hi He. unfold spliceEnvVars, Str.indexOf. rewrite Hi, He.
  rewrite !bool_decide_eq_true_2 by lia. cbn [andb].
  apply find_Some in Hi as (_ & Hi & _).
  apply find_Some in He as (He & _ & _).
  apply startsWith_length in He. rewrite length_drop in He.
  rewrite substring_take, <-Nat2Z.inj_add, substringFrom_drop; [done| |done].
  assert (0 < Str.length envVarEnd) by (vm_compute; lia). lia.
Qed.

Lemma splice_append content block :
  Str.find content envVarStart = None ∨ Str.find content envVarEnd = None →
  spliceEnvVars content block
  = padded content +:+ Str.chr Str.nl +:+ block +:+ Str.chr Str.nl.
Proof.
  intros H. unfold spliceEnvVars, Str.indexOf.
  destruct H as [-> | ->].
  - by rewrite (bool_decide_eq_false_2 (_ ≠ _)) by (intros H; by apply H).
  - rewrite (bool_decide_eq_false_2 ((-1)%Z ≠ _)) by (intros H; by apply H).
    by rewrite andb_false_r.
Qed.

(** A content of the form [A ++ block ++ B], where no marker starts in
    [A] and the block holds its end marker at its end only, is what the
    update of it gives. *)
Lemma splice_fixed A B body :
  endsOnce (blockOf body) →
  (∀ j, j < Str.length A →
     Str.startsWith (Str.drop j (A +:+ blockOf body +:+ B)) envVarStart = false) →
  (∀ j, j < Str.length A →
     Str.startsWith (Str.drop j (A +:+ blockOf body +:+ B)) envVarEnd = false) →
  spliceEnvVars (A +:+ blockOf body +:+ B) (blockOf body)
  = A +:+ blockOf body +:+ B.
Proof.
  intros Hend HS HE. apply indexOf_some in Hend.
  assert (Hlen : Str.length envVarEnd ≤ Str.length (blockOf body)).
  { rewrite blockOf_end, length_app. lia. }
  rewrite (splice_found _ _ (Str.length A + 0)
             (Str.length A + (Str.length (blockOf body) - Str.length envVarEnd))).
  - rewrite Nat.add_0_r, take_app. do 2 f_equal.
    replace (Str.length A + (Str.length (blockOf body) - Str.length envVarEnd)
             + Str.length envVarEnd)
      with (Str.length A + (Str.length (blockOf body) + 0)) by lia.
    by rewrite !drop_app_add.
  - rewrite find_skip by exact HS. rewrite find_here; [reflexivity|].
    unfold blockOf. rewrite app_assoc. apply startsWith_app.
  - rewrite find_skip by exact HE.
    rewrite (find_app_found _ _ _ _ Hend). reflexivity.
Qed.

(** No marker starts in the padded content and the line break after it,
    when the content holds none. *)
Lemma no_start_padded content n rest j :
  lineFree (String Str.hash n) →
  Str.find content (String Str.hash n) = None →
  j < Str.length (padded content +:+ Str.chr Str.nl) →
  Str.startsWith
    (Str.drop j ((padded content +:+ Str.chr Str.nl) +:+ rest))
    (String Str.hash n) = false.
Proof.
  intros Hn Hnone Hj. unfold padded in *.
  destruct (Str.truthy content && negb (Str.endsWith content (Str.chr Str.nl))).
  - rewrite !app_assoc, !chr_app in *. rewrite length_app in Hj.
    unfold Str.length at 2 in Hj. simpl in Hj.
    destruct (decide (j ≤ Str.length content)) as [Hle|Hgt].
    + apply no_start_before_nl; [done..|]. by apply find_None.
    + replace j with (Str.length content + 1) by lia.
      rewrite drop_app_add. done.
  - rewrite !app_assoc, !chr_app in *. rewrite length_app in Hj.
    unfold Str.length at 2 in Hj. simpl in Hj.
    apply no_start_before_nl; [done|lia|]. by apply find_None.
Qed.

(** No marker starts before the first start marker of the content, in the
    content whose block has been replaced. *)
Lemma no_start_replaced content body B n i j :
  lineFree n →
  Str.find content envVarStart = Some i →
  (∀ j', j' < i → Str.startsWith (Str.drop j' content) n = false) →
  j < Str.length (Str.take i content) →
  Str.startsWith
    (Str.drop j (Str.take i content +:+ blockOf body +:+ B)) n = false.
Proof.
  intros Hn Hi Hmin Hj.
  apply find_Some in Hi as (Hstart & Hlen & _).
  rewrite length_take in Hj by done.
  unfold blockOf. rewrite (app_assoc envVarStart), <-(app_assoc (Str.take i content)).
  rewrite app_cons.
  apply no_start_before_nl; [exact Hn| |].
  { rewrite length_app, length_take by exact Hlen. lia. }
  destruct (Str.startsWith _ n) eqn:H; [|reflexivity].
  apply (startsWith_app_l _ (Str.drop (Str.length envVarStart)
                                      (Str.drop i content))) in H.
  rewrite <-drop_app_le, app_assoc, <-startsWith_inv, take_drop in H;
    [|exact Hstart|].
  - by rewrite Hmin in H.
  - rewrite length_app, length_take by exact Hlen. lia.
Qed.

Lemma splice_idempotent content body :
  endsOnce (blockOf body) → wellMarked content →
  spliceEnvVars (spliceEnvVars content (blockOf body)) (blockOf body)
  = spliceEnvVars content (blockOf body).
Proof.
  intros Hend [[HS HE]|Horder].
  - apply indexOf_none in HS. apply indexOf_none in HE.
    rewrite (splice_append content) by (left; exact HS).
    rewrite <-(app_assoc (padded content)), <-app_assoc.
    rewrite (app_assoc (padded content +:+ Str.chr Str.nl)).
    apply splice_fixed; [exact Hend|..]; intros j Hj.
    + apply no_start_padded; [reflexivity|exact HS|exact Hj].
    + apply no_start_padded; [reflexivity|exact HE|exact Hj].
  - unfold Str.indexOf in Horder.
    destruct (Str.find content envVarStart) as [i|] eqn:Hi; [|lia].
    destruct (Str.find content envVarEnd) as [e|] eqn:He; [|lia].
    rewrite (splice_found content _ i e) by assumption.
    apply splice_fixed; [exact Hend|..]; intros j Hj.
    + apply (no_start_replaced content body _ _ i);
        [reflexivity|exact Hi| |exact Hj].
      by apply find_Some in Hi as (_ & _ & ?).
    + apply (no_start_replaced content body _ _ i);
        [reflexivity|exact Hi| |exact Hj].
      intros j' Hj'. apply find_Some in He as (_ & _ & Hmin).
      apply Hmin. lia.
Qed.


(** *** Blocks whose assignment lines hold no '#' *)

Lemma blockOf_head body v :
  blockOf body +:+ v
  = String Str.hash
      ((Str.drop 1 envVarStart +:+ String Str.nl body) +:+ envVarEnd +:+ v).
Proof. rewrite blockOf_end, !app_assoc. reflexivity. Qed.

Lemma no_start_in_block body v n j :
  hashFree body →
  j < Str.length (Str.drop 1 envVarStart +:+ String Str.nl body) →
  Str.startsWith
    (Str.drop j ((Str.drop 1 envVarStart +:+ String Str.nl body) +:+ v))
    (String Str.hash n) = false.
Proof.
  intros Hbody Hj. apply no_start_without_first; [|done].
  rewrite has_app. simpl. rewrite Hbody. reflexivity.
Qed.

Lemma find_cons (a : ascii) s n :
  Str.find (String a s) n
  = if Str.startsWith (String a s) n then Some 0 else S <$> Str.find s n.
Proof. reflexivity. Qed.

Lemma occurrences_cons (a : ascii) s n :
  occurrences (String a s) n
  = (if Str.startsWith (String a s) n then 1 else 0) + occurrences s n.
Proof. reflexivity. Qed.

Lemma block_head body v :
  Str.startsWith (blockOf body +:+ v) envVarStart = true
  ∧ Str.startsWith (blockOf body +:+ v) envVarEnd = false.
Proof.
  unfold blockOf. rewrite app_assoc. split.
  - apply startsWith_app.
  - apply start_not_end.
Qed.

Lemma length_cons (a : ascii) s : Str.length (String a s) = S (Str.length s).
Proof. reflexivity. Qed.

Lemma endsOnce_hashFree body : hashFree body → endsOnce (blockOf body).
Proof.
  intros Hbody. unfold endsOnce. apply indexOf_some.
  destruct (block_head body "") as [_ Hhead].
  rewrite <-(app_nil_r (blockOf body)).
  rewrite blockOf_head in *. rewrite find_cons, Hhead.
  rewrite find_skip by (intros j Hj; by apply no_start_in_block).
  rewrite find_here by apply startsWith_app.
  cbn [fmap option_fmap option_map]. f_equal.
  rewrite length_cons, !length_app. change (Str.length "") with 0. lia.
Qed.

Lemma occurrences_block body :
  hashFree body →
  occurrences (blockOf body +:+ Str.chr Str.nl) envVarStart = 1
  ∧ occurrences (blockOf body +:+ Str.chr Str.nl) envVarEnd = 1.
Proof.
  intros Hbody. destruct (block_head body (Str.chr Str.nl)) as [Hs He].
  rewrite blockOf_head in *. rewrite !occurrences_cons, Hs, He.
  split.
  - rewrite (occurrences_skip (_ +:+ String Str.nl body))
      by (intros j Hj; by apply no_start_in_block).
    vm_compute. reflexivity.
  - rewrite (occurrences_skip (_ +:+ String Str.nl body))
      by (intros j Hj; by apply no_start_in_block).
    vm_compute. reflexivity.
Qed.

Lemma splice_one_block content body :
  hashFree body →
  Str.indexOf content envVarStart = (-1)%Z →
  Str.indexOf content envVarEnd = (-1)%Z →
  occurrences (spliceEnvVars content (blockOf body)) envVarStart = 1
  ∧ occurrences (spliceEnvVars content (blockOf body)) envVarEnd = 1.
Proof.
  intros Hbody HS%indexOf_none HE%indexOf_none.
  rewrite splice_append by eauto.
  rewrite <-(app_assoc (padded content)).
  rewrite !(occurrences_skip (padded content +:+ Str.chr Str.nl))
    by (intros j Hj; by apply no_start_padded).
  by apply occurrences_block.
Qed.

Lemma unixEnvVars_block c : unixEnvVars c = blockOf (unixBody c).
Proof.
  unfold unixEnvVars, blockOf, unixBody. rewrite !app_assoc. reflexivity.
Qed.

Lemma powerShellEnvVars_block c :
  powerShellEnvVars c = blockOf (powerShellBody c).
Proof.
  unfold powerShellEnvVars, blockOf, powerShellBody. rewrite !app_assoc.
  reflexivity.
Qed.

Lemma body_hashFree c :
  hashFree (toStr (url c)) → hashFree (toStr (token c)) →
  hashFree (unixBody c) ∧ hashFree (powerShellBody c).
Proof.
  unfold hashFree, unixBody, powerShellBody, envVarOf. intros Hu Ht.
  rewrite !has_app, Hu, Ht. by case_bool_decide.
Qed.

Lemma updateUnixShellConfig_run c (f : string) w :
  updateUnixShellConfig c f w
  = (withFiles (<[f := spliceEnvVars (default "" (files w !! f))
                                     (unixEnvVars c)]> (files w)) w, Ok ()).
Proof. reflexivity. Qed.

Lemma updateWindowsPowerShellConfig_run c (f : string) w :
  updateWindowsPowerShellConfig c f w
  = (withFiles (<[f := spliceEnvVars (default "" (files w !! f))
                                     (powerShellEnvVars c)]> (files w)) w,
     Ok ()).
Proof. reflexivity. Qed.

Lemma edit_twice block (f : string) w :
  spliceEnvVars (spliceEnvVars (default "" (files w !! f)) block) block
  = spliceEnvVars (default "" (files w !! f)) block →
  withFiles
    (<[f := spliceEnvVars
              (default "" (<[f := spliceEnvVars (default "" (files w !! f))
                                                block]> (files w) !! f))
              block]>
       (<[f := spliceEnvVars (default "" (files w !! f)) block]> (files w)))
    (withFiles (<[f := spliceEnvVars (default "" (files w !! f)) block]>
                  (files w)) w)
  = withFiles (<[f := spliceEnvVars (default "" (files w !! f)) block]>
                 (files w)) w.
Proof.
  intros Hidem. rewrite lookup_insert_eq. cbn [default from_option id].
  rewrite Hidem, insert_insert_eq. reflexivity.
Qed.

End Splice.

(** C9. The edit of a shell start-up file gives the same file when it is
    applied twice as when it is applied once, for the Unix and for the
    PowerShell form alike, provided the prior content holds neither marker
    or has its first start marker before its first end marker, and the end
    marker occurs in the block of the profile at the end of the block only;
    the latter holds when the secret and the base URL hold no '#'.  When, in
    addition, the prior content holds no marker, the file holds exactly one
    start marker and one end marker afterwards. *)
Theorem shell_edit_idempotent (c : Config) (f : string) (w : World)
  (Hmarked : wellMarked (default "" (files w !! f))) :
  (endsOnce (unixEnvVars c) →
     state ((updateUnixShellConfig c f;; updateUnixShellConfig c f) w)
     = state (updateUnixShellConfig c f w))
  ∧ (endsOnce (powerShellEnvVars c) →
     state ((updateWindowsPowerShellConfig c f;;
             updateWindowsPowerShellConfig c f) w)
     = state (updateWindowsPowerShellConfig c f w))
  ∧ (hashFree (toStr (url c)) → hashFree (toStr (token c)) →
     endsOnce (unixEnvVars c) ∧ endsOnce (powerShellEnvVars c))
  ∧ (hashFree (toStr (url c)) → hashFree (toStr (token c)) →
     Str.indexOf (default "" (files w !! f)) envVarStart = (-1)%Z →
     Str.indexOf (default "" (files w !! f)) envVarEnd = (-1)%Z →
     ∃ unix ps,
       files (state (updateUnixShellConfig c f w)) !! f = Some unix
       ∧ occurrences unix envVarStart = 1 ∧ occurrences unix envVarEnd = 1
       ∧ files (state (updateWindowsPowerShellConfig c f w)) !! f = Some ps
       ∧ occurrences ps envVarStart = 1 ∧ occurrences ps envVarEnd = 1).
Proof.
  split; [|split; [|split]].
  - intros Hend. run. rewrite !updateUnixShellConfig_run. unfold state.
    cbn [fst snd files withFiles]. apply edit_twice.
    rewrite unixEnvVars_block in *. by apply splice_idempotent.
  - intros Hend. run. rewrite !updateWindowsPowerShellConfig_run. unfold state.
    cbn [fst snd files withFiles]. apply edit_twice.
    rewrite powerShellEnvVars_block in *. by apply splice_idempotent.
  - intros Hu Ht. destruct (body_hashFree c Hu Ht).
    rewrite unixEnvVars_block, powerShellEnvVars_block.
    split; by apply endsOnce_hashFree.
  - intros Hu Ht HS HE. destruct (body_hashFree c Hu Ht) as [Hunix Hps].
    rewrite updateUnixShellConfig_run, updateWindowsPowerShellConfig_run.
    unfold state. cbn [fst files withFiles]. rewrite !lookup_insert_eq.
    do 2 eexists. split; [done|].
    rewrite unixEnvVars_block, powerShellEnvVars_block.
    destruct (splice_one_block _ _ Hunix HS HE) as [-> ->].
    destruct (splice_one_block _ _ Hps HS HE) as [-> ->]. done.
Qed.

Lemma shell_edit_idempotent_witness :
  state ((updateUnixShellConfig kimi "/home/u/.zshrc";;
          updateUnixShellConfig kimi "/home/u/.zshrc") emptyWorld)
  = state (updateUnixShellConfig kimi "/home/u/.zshrc" emptyWorld)
  ∧ state ((updateUnixShellConfig mirror "/home/u/.profile";;
            updateUnixShellConfig mirror "/home/u/.profile") kimiBlock)
    = state (updateUnixShellConfig mirror "/home/u/.profile" kimiBlock).
Proof.
  destruct (shell_edit_idempotent kimi "/home/u/.zshrc" emptyWorld)
    as (Hfresh & _ & Hends & _); [left; split; reflexivity|].
  destruct (shell_edit_idempotent mirror "/home/u/.profile" kimiBlock)
    as (Hblock & _ & Hends' & _); [right; decided|].
  split.
  - apply Hfresh. apply Hends; reflexivity.
  - apply Hblock. apply Hends'; reflexivity.
Defined.

(** C9, as stated, fails: on a start-up file that holds the line of the
    start marker and no end marker, the first update appends a block, which
    leaves two start markers, and the second update replaces the text from
    the stray marker on, which gives another file. *)
Lemma shell_edit_stray_marker :
  files strayMarker !! "/home/u/.profile"
  = Some (envVarStart +:+ Str.chr Str.nl)
  ∧ files (state (updateUnixShellConfig kimi "/home/u/.profile" strayMarker))
      !! "/home/u/.profile"
    = Some (envVarStart +:+ Str.chr Str.nl +:+ Str.chr Str.nl
            +:+ unixEnvVars kimi +:+ Str.chr Str.nl)
  ∧ files (state ((updateUnixShellConfig kimi "/home/u/.profile";;
                   updateUnixShellConfig kimi "/home/u/.profile") strayMarker))
      !! "/home/u/.profile"
    = Some (unixEnvVars kimi +:+ Str.chr Str.nl)
  ∧ occurrences (envVarStart +:+ Str.chr Str.nl +:+ Str.chr Str.nl
                 +:+ unixEnvVars kimi +:+ Str.chr Str.nl) envVarStart = 2.
Proof. vm_compute. done. Qed.

(** * Further properties of the code *)

(** ** The profile store: lookups *)

Section Lookups.

Implicit Types (w : World) (c : Config) (a b : string).

Lemma lookupAlias_find a w : lookupAlias a w = findAlias a (listAll w).
Proof.
  unfold lookupAlias, getConfig. run. rewrite getAllConfigs_run.
  destruct (claudeDirExists w) eqn:Hd; [by rewrite listAll_parse|].
  by destruct (store_bare w Hd) as (_ & _ & ->).
Qed.

Lemma findAlias_app a l1 l2 :
  findAlias a (l1 ++ l2)
  = match findAlias a l1 with
    | Some c => Some c
    | None => findAlias a l2
    end.
Proof.
  unfold findAlias. induction l1 as [|c l1 IH]; [done|]. simpl.
  by destruct (bool_decide (alias c = Some a)).
Qed.

Lemma findAlias_filter_ne a b (l : list Config) :
  a ≠ b →
  findAlias b (filter (λ c, alias c ≠ Some a) l) = findAlias b l.
Proof.
  intros Hne. unfold findAlias. induction l as [|c l IH]; [done|].
  rewrite filter_cons. case_decide as Hc; simpl.
  - by rewrite IH.
  - rewrite IH.
    rewrite bool_decide_eq_false_2; [done|]. rewrite Hc. by intros [= ->].
Qed.

Lemma findAlias_filter_eq a (l : list Config) :
  findAlias a (filter (λ c, alias c ≠ Some a) l) = None.
Proof.
  apply findAlias_None. by intros c [? _]%list_elem_of_filter.
Qed.

Lemma findAlias_fmap_rendered a (l : list Config) :
  (∀ c, c ∈ l → is_Some (alias c)) →
  findAlias a (rendered <$> l) = rendered <$> findAlias a l.
Proof.
  unfold findAlias. induction l as [|c l IH]; intros Hl; [done|].
  rewrite fmap_cons. cbn [List.find].
  destruct (Hl c) as [x Hx]; [left|].
  assert (Ha : alias (rendered c) = alias c) by (unfold rendered; by rewrite Hx).
  rewrite Ha. destruct (bool_decide (alias c = Some a)); [done|].
  apply IH. intros c' Hc'. apply Hl. by right.
Qed.

(** The profile list after a removal that goes through. *)
Lemma listAll_removed a w c :
  findAlias a (listAll w) = Some c →
  listAll (state (removeConfig a w))
  = rendered <$> filter (λ c', alias c' ≠ Some a) (listAll w).
Proof.
  intros Hf. rewrite removeConfig_run, Hf. cbn zeta. unfold state. cbn [fst].
  assert (Hfile : ∀ w', configFile w' = Some (Str.join Str.nl (renderConfig <$>
                     filter (λ c', alias c' ≠ Some a) (listAll w))) →
            listAll w' = rendered <$> filter (λ c', alias c' ≠ Some a) (listAll w)).
  { intros w' Hw'. rewrite (listAll_parse w'), Hw'. cbn [default from_option id].
    apply parseConfigs_join. apply Forall_forall.
    intros c' [_ Hc']%list_elem_of_filter. rewrite listAll_parse in Hc'.
    by apply parseConfigs_clean in Hc'. }
  apply Hfile. destruct (currentFile w) as [cur|]; [|reflexivity].
  by destruct (Str.startsWith cur (a +:+ "|")).
Qed.


Lemma filter_all {A} (P : A → Prop) `{∀ x, Decision (P x)} (l : list A) :
  (∀ x, x ∈ l → P x) → filter P l = l.
Proof.
  induction l as [|x l IH]; intros Hl; [done|].
  rewrite filter_cons_True by (apply Hl; left). f_equal.
  apply IH. intros y Hy. apply Hl. by right.
Qed.

Lemma newLine_record a (n t u : string) (kt : option string) :
  cleanField a → cleanField n → cleanField t → cleanField u →
  cleanField (orElse kt "TOKEN") →
  parseConfigs (newLine a n t u kt)
  = [mkConfig (Some a) (Some n) (Some t) (Some u) (Some (orElse kt "TOKEN"))].
Proof.
  intros [??] [??] [??] [??] [??].
  rewrite parseConfigs_one; [|by apply five_lineFree|apply five_has_pipe].
  unfold parseLine, newLine. rewrite split_five by assumption.
  f_equal. f_equal. cbn [lookup list_lookup]. f_equal. apply orElse_idem.
Qed.

Lemma listAll_added a (n t u : string) (kt : option string) w :
  claudeDirExists w = true →
  findAlias a (listAll w) = None →
  addConfig a n t u kt w
  = (withConfigFile (Some (default "" (configFile w)
                           +:+ String Str.nl (newLine a n t u kt))) w, Ok ())
  ∧ listAll (state (addConfig a n t u kt w))
    = listAll w ++ parseConfigs (newLine a n t u kt).
Proof.
  intros Hd Hf. rewrite addConfig_run, Hf, Hd. split; [reflexivity|].
  unfold state. cbn [fst].
  rewrite (listAll_parse (withConfigFile _ _)), listAll_parse.
  apply parseConfigs_app.
Qed.

Lemma sameButConfigFile_init w : sameButConfigFile w (state (initConfig w)).
Proof.
  unfold sameButConfigFile, initConfig, writeInClaudeDir, state.
  destruct (configFile w) eqn:E; cbn [fst].
  - destruct w. cbn in E. by subst.
  - destruct (claudeDirExists w); cbn [fst]; [done|].
    destruct w. cbn in E. by subst.
Qed.

Lemma claudeDir_lookup a w c :
  lookupAlias a w = Some c → claudeDirExists w = true.
Proof. rewrite lookupAlias_find. apply claudeDir_found. Qed.

End Lookups.

(** X1. A profile that was added is found: on a host where [~/.claude]
    exists, [addConfig] with a new alias and fields that hold neither '|'
    nor a line break returns normally, and [getConfig] then returns the
    record of the arguments, the kind being TOKEN when none was given. *)
Theorem addConfig_getConfig (a n t u : string) (kt : option string) (w : World)
  (Hdir : claudeDirExists w = true)
  (Hfresh : lookupAlias a w = None)
  (Ha : cleanField a) (Hn : cleanField n) (Ht : cleanField t)
  (Hu : cleanField u) (Hk : cleanField (orElse kt "TOKEN")) :
  outcome (addConfig a n t u kt w) = Ok ()
  ∧ lookupAlias a (state (addConfig a n t u kt w))
    = Some (mkConfig (Some a) (Some n) (Some t) (Some u)
                     (Some (orElse kt "TOKEN"))).
Proof.
  rewrite lookupAlias_find in Hfresh.
  destruct (listAll_added a n t u kt w Hdir Hfresh) as [Hrun Hlist].
  split; [by rewrite Hrun|].
  rewrite lookupAlias_find, Hlist, findAlias_app, Hfresh, newLine_record by done.
  unfold findAlias. cbn [List.find alias]. by rewrite bool_decide_eq_true_2.
Qed.

Lemma addConfig_getConfig_witness :
  lookupAlias "glm" (state (addConfig "glm" "Claude" "sk-3" "https://open.bigmodel.cn"
                                      None twoProfiles))
  = Some (mkConfig (Some "glm") (Some "Claude") (Some "sk-3")
                   (Some "https://open.bigmodel.cn") (Some "TOKEN")).
Proof.
  apply (addConfig_getConfig "glm" "Claude" "sk-3" "https://open.bigmodel.cn"
           None twoProfiles); by vm_compute.
Defined.

(** X2. [addConfig] does not disturb the profiles that are stored: whatever
    its arguments and whether it fails or not, an alias that [getConfig]
    found before is found with the same record afterwards, and nothing but
    the profile-list file is changed. *)
Theorem addConfig_keeps_lookups (a n t u b : string) (kt : option string)
  (w : World) (c : Config)
  (Hfound : lookupAlias b w = Some c) :
  lookupAlias b (state (addConfig a n t u kt w)) = Some c
  ∧ sameButConfigFile w (state (addConfig a n t u kt w)).
Proof.
  rewrite lookupAlias_find in *.
  destruct (findAlias a (listAll w)) as [c0|] eqn:Hf.
  - rewrite addConfig_run, Hf. unfold state at 1 3. cbn [fst]. split.
    + by rewrite listAll_initConfig.
    + apply sameButConfigFile_init.
  - destruct (listAll_added a n t u kt w (claudeDir_found b w c Hfound) Hf)
      as [Hrun Hlist]. split.
    + by rewrite Hlist, findAlias_app, Hfound.
    + rewrite Hrun. reflexivity.
Qed.

Lemma addConfig_keeps_lookups_witness :
  lookupAlias "kimi" (state (addConfig "x" "Claude" twoLineSecret "https://u"
                                       None twoProfiles)) = Some kimi.
Proof.
  apply (addConfig_keeps_lookups "x" "Claude" twoLineSecret "https://u" "kimi"
           None twoProfiles kimi). reflexivity.
Defined.

(** X3. A profile that was removed is gone: after [removeConfig] returns a
    record, [getConfig] finds nothing under the alias, whatever else the
    store holds, and a second [removeConfig] of the alias fails. *)
Theorem removeConfig_getConfig (a : string) (w : World) (c : Config)
  (Hremoved : outcome (removeConfig a w) = Ok c) :
  lookupAlias a (state (removeConfig a w)) = None
  ∧ outcome (removeConfig a (state (removeConfig a w)))
    = Throw (AliasMissing a).
Proof.
  assert (Hf : findAlias a (listAll w) = Some c).
  { rewrite removeConfig_run in Hremoved.
    destruct (findAlias a (listAll w)); [|discriminate Hremoved].
    by injection Hremoved as ->. }
  assert (Hgone : findAlias a (listAll (state (removeConfig a w))) = None).
  { rewrite (listAll_removed a w c Hf), findAlias_fmap_rendered.
    - by rewrite findAlias_filter_eq.
    - intros c' [_ Hc']%list_elem_of_filter. rewrite listAll_parse in Hc'.
      by apply parseConfigs_alias in Hc'. }
  split; [by rewrite lookupAlias_find|].
  rewrite (removeConfig_run a (state _)), Hgone. cbn [outcome snd].
  rewrite claudeDir_config; [done|].
  rewrite removeConfig_run, Hf. cbn zeta. unfold state. cbn [fst].
  destruct (currentFile w) as [cur|]; [|by eexists].
  destruct (Str.startsWith cur (a +:+ "|")); by eexists.
Qed.

Lemma removeConfig_getConfig_witness :
  lookupAlias "kimi" (state (removeConfig "kimi" shortLine)) = None
  ∧ outcome (removeConfig "kimi" (state (removeConfig "kimi" shortLine)))
    = Throw (AliasMissing "kimi").
Proof. apply (removeConfig_getConfig "kimi" shortLine kimi). reflexivity. Defined.

(** X4. [removeConfig] keeps the other profiles findable: after the removal
    of one alias, [getConfig] of another alias returns the record it
    returned before, as [renderConfig] and [parseLine] take it, which is the
    record itself when it has its four leading fields. *)
Theorem removeConfig_keeps_lookups (a b : string) (w : World) (c : Config)
  (Hremoved : outcome (removeConfig a w) = Ok c) (Hother : a ≠ b) :
  lookupAlias b (state (removeConfig a w)) = rendered <$> lookupAlias b w
  ∧ ∀ r, lookupAlias b w = Some r → complete r →
         lookupAlias b (state (removeConfig a w)) = Some r.
Proof.
  assert (Hf : findAlias a (listAll w) = Some c).
  { rewrite removeConfig_run in Hremoved.
    destruct (findAlias a (listAll w)); [|discriminate Hremoved].
    by injection Hremoved as ->. }
  assert (Hb : lookupAlias b (state (removeConfig a w))
               = rendered <$> lookupAlias b w).
  { rewrite !lookupAlias_find, (listAll_removed a w c Hf),
      findAlias_fmap_rendered.
    - by rewrite findAlias_filter_ne.
    - intros c' [_ Hc']%list_elem_of_filter. rewrite listAll_parse in Hc'.
      by apply parseConfigs_alias in Hc'. }
  split; [exact Hb|].
  intros r Hr Hcomplete. rewrite Hb, Hr. cbn [fmap option_fmap option_map].
  f_equal. rewrite lookupAlias_find in Hr.
  apply findAlias_Some in Hr as [Hr _]. rewrite listAll_parse in Hr.
  by apply (rendered_complete _ _ Hr).
Qed.

Lemma removeConfig_keeps_lookups_witness :
  lookupAlias "mirror" (state (removeConfig "kimi" twoProfiles)) = Some mirror.
Proof.
  destruct (removeConfig_keeps_lookups "kimi" "mirror" twoProfiles kimi)
    as [_ Hsame]; [reflexivity|discriminate|].
  apply Hsame; [reflexivity|]. by repeat split.
Defined.

(** X6. Adding a profile and removing it again gives the profile list back:
    on a host where [~/.claude] exists, for a new alias, fields that hold
    neither '|' nor a line break and a store whose records have their four
    leading fields, [removeConfig] after [addConfig] returns the record that
    was added and [listAll] is what it was. *)
Theorem addConfig_removeConfig (a n t u : string) (kt : option string)
  (w : World)
  (Hdir : claudeDirExists w = true)
  (Hfresh : lookupAlias a w = None)
  (Ha : cleanField a) (Hn : cleanField n) (Ht : cleanField t)
  (Hu : cleanField u) (Hk : cleanField (orElse kt "TOKEN"))
  (Hcomplete : ∀ c, c ∈ listAll w → complete c) :
  outcome (removeConfig a (state (addConfig a n t u kt w)))
  = Ok (mkConfig (Some a) (Some n) (Some t) (Some u) (Some (orElse kt "TOKEN")))
  ∧ listAll (state (removeConfig a (state (addConfig a n t u kt w))))
    = listAll w.
Proof.
  rewrite lookupAlias_find in Hfresh.
  destruct (listAll_added a n t u kt w Hdir Hfresh) as [_ Hlist].
  rewrite newLine_record in Hlist by done.
  set (r := mkConfig (Some a) (Some n) (Some t) (Some u)
                     (Some (orElse kt "TOKEN"))) in *.
  assert (Hf : findAlias a (listAll (state (addConfig a n t u kt w))) = Some r).
  { rewrite Hlist, findAlias_app, Hfresh. unfold findAlias.
    cbn [List.find alias r]. by rewrite bool_decide_eq_true_2. }
  split.
  - by rewrite removeConfig_run, Hf.
  - rewrite (listAll_removed _ _ r Hf), Hlist, filter_app.
    rewrite filter_cons_False by (by intros H; apply H).
    rewrite filter_nil, List.app_nil_r, filter_all.
    + rewrite <-(list_fmap_id (listAll w)) at 2. apply list_fmap_ext.
      intros i c Hc%list_elem_of_lookup_2.
      pose proof (Hcomplete c Hc) as Hcc. rewrite listAll_parse in Hc.
      by apply (rendered_complete _ _ Hc).
    + by apply findAlias_None.
Qed.

Lemma addConfig_removeConfig_witness :
  listAll (state (removeConfig "glm"
            (state (addConfig "glm" "Claude" "sk-3" "https://open.bigmodel.cn"
                              (Some "KEY") twoProfiles))))
  = listAll twoProfiles.
Proof.
  apply (addConfig_removeConfig "glm" "Claude" "sk-3"
           "https://open.bigmodel.cn" (Some "KEY") twoProfiles);
    try by vm_compute.
  apply Forall_forall. decided.
Defined.

(** ** The pointer and the environment *)

Section Pointer.

Implicit Types (w : World) (c p : Config) (a b : string).

Lemma startsWith_pipe_eq a b (r : string) :
  pipeFree a → pipeFree b →
  Str.startsWith (b +:+ String Str.pipe r) (a +:+ "|") = true → a = b.
Proof.
  unfold pipeFree. revert b. induction a as [|x a IH]; intros [|y b] Ha Hb.
  - done.
  - rewrite app_nil_l, app_cons. cbn [Str.startsWith].
    intros [Hy _]%andb_true_iff. apply bool_decide_eq_true_1 in Hy. subst y.
    simpl in Hb. try rewrite bool_decide_eq_true_2 in Hb by done. done.
  - rewrite app_nil_l, app_cons. cbn [Str.startsWith].
    intros [Hx _]%andb_true_iff. apply bool_decide_eq_true_1 in Hx. subst x.
    simpl in Ha. try rewrite bool_decide_eq_true_2 in Ha by done. done.
  - rewrite !app_cons. cbn [Str.startsWith].
    intros [Hxy H]%andb_true_iff. apply bool_decide_eq_true_1 in Hxy. subst y.
    simpl in Ha, Hb. apply orb_false_iff in Ha as [_ Ha].
    apply orb_false_iff in Hb as [_ Hb]. f_equal. by apply IH.
Qed.

Lemma sessionEnv_other c (e : gmap string string) (k : string) :
  k ∉ credentialEntries → sessionEnv c e !! k = e !! k.
Proof.
  unfold credentialEntries. intros Hk.
  apply not_elem_of_cons in Hk as [? Hk].
  apply not_elem_of_cons in Hk as [? Hk].
  apply not_elem_of_cons in Hk as [? _].
  unfold sessionEnv, envVarOf. case_bool_decide;
    rewrite !lookup_insert_ne, !lookup_delete_ne by done; done.
Qed.

End Pointer.

(** X5. Removing a profile keeps the pointer of another one: when the
    pointer file was written for a profile whose alias holds no '|' and
    differs from the alias removed, [removeConfig] leaves the pointer file
    as it is, and [getCurrentConfig] returns what it returned before. *)
Theorem removeConfig_keeps_pointer (a b : string) (w : World) (c p : Config)
  (Hremoved : outcome (removeConfig a w) = Ok c)
  (Hpointer : currentFile w = Some (renderConfig p))
  (Halias : alias p = Some b) (Hb : pipeFree b) (Hother : a ≠ b) :
  currentFile (state (removeConfig a w)) = currentFile w
  ∧ getCurrent (state (removeConfig a w)) = getCurrent w.
Proof.
  assert (Hf : findAlias a (listAll w) = Some c).
  { rewrite removeConfig_run in Hremoved.
    destruct (findAlias a (listAll w)); [|discriminate Hremoved].
    by injection Hremoved as ->. }
  assert (Ha : pipeFree a).
  { apply findAlias_Some in Hf as [Hc Hca]. rewrite listAll_parse in Hc.
    apply parseConfigs_clean in Hc as [(Hp & _) _]. by rewrite Hca in Hp. }
  assert (Hstart : Str.startsWith (renderConfig p) (a +:+ "|") = false).
  { destruct (Str.startsWith _ _) eqn:H; [|done].
    unfold renderConfig in H. rewrite Halias in H. cbn [toStr] in H.
    rewrite bar_app in H. by apply startsWith_pipe_eq in H. }
  rewrite removeConfig_run, Hf, Hpointer, Hstart. cbn zeta.
  unfold state. cbn [fst]. split; [done|].
  unfold getCurrent, getCurrentConfig, getenv. run.
  cbn [currentFile env withConfigFile id].
  by destruct (currentFile w).
Qed.

Lemma removeConfig_keeps_pointer_witness :
  getCurrent (state (removeConfig "kimi"
                       (state (setCurrentConfig mirror twoProfiles))))
  = getCurrent (state (setCurrentConfig mirror twoProfiles)).
Proof.
  apply (removeConfig_keeps_pointer "kimi" "mirror" _ kimi mirror);
    try reflexivity. discriminate.
Defined.

(** X7. Activation does not touch the profile list, and of the process
    environment it changes the three variables ANTHROPIC_AUTH_TOKEN,
    ANTHROPIC_API_KEY and ANTHROPIC_BASE_URL at most; on a host where
    [~/.claude] exists the pointer file holds the rendered profile
    afterwards, and on a host without it nothing is changed. *)
Theorem setCurrentConfig_frame (c : Config) (w : World) :
  listAll (state (setCurrentConfig c w)) = listAll w
  ∧ configFile (state (setCurrentConfig c w)) = configFile w
  ∧ (claudeDirExists w = true →
     currentFile (state (setCurrentConfig c w)) = Some (renderConfig c))
  ∧ (claudeDirExists w = false → state (setCurrentConfig c w) = w)
  ∧ ∀ k, k ∉ credentialEntries →
         env (state (setCurrentConfig c w)) !! k = env w !! k.
Proof.
  destruct (claudeDirExists w) eqn:Hdir.
  2: { by rewrite setCurrentConfig_bare. }
  destruct (setCurrentConfig_state c w Hdir)
    as (w' & -> & Hconf & Hcur & Hok & Hfall).
  unfold state. cbn [fst].
  split; [by rewrite !listAll_parse, Hconf|]. split; [done|]. split; [done|].
  split; [done|].
  intros k Hk. destruct (decide (settingsUpdated c w)) as [Hup|Hn].
  - by destruct (Hok Hup) as [-> _].
  - destruct (Hfall Hn) as [-> _]. by apply sessionEnv_other.
Qed.

Lemma setCurrentConfig_frame_witness :
  listAll (state (setCurrentConfig mirror strayMarker)) = listAll strayMarker
  ∧ env (state (setCurrentConfig mirror strayMarker)) !! "SHELL"
    = env strayMarker !! "SHELL".
Proof.
  destruct (setCurrentConfig_frame mirror strayMarker)
    as (Hlist & _ & _ & _ & Henv).
  split; [exact Hlist|]. apply Henv. decided.
Defined.

(** X8. On a host where [~/.claude] exists, a settings file that is missing
    or does not parse is replaced by the default document with the
    credential filled in: the secret under [env.ANTHROPIC_AUTH_TOKEN], the
    base URL under [env.ANTHROPIC_BASE_URL], the output cap "32000", the
    traffic flag 1 and empty permission lists.  The process environment is
    not touched on this path. *)
Theorem setCurrentConfig_default_settings (c : Config) (w : World)
  (t u : string)
  (Hdir : claudeDirExists w = true)
  (Hfile : settingsFile w = NoSettings ∨ settingsFile w = BadSettings)
  (Hwrite : settingsWritable w = true)
  (Htoken : token c = Some t) (Hurl : url c = Some u) :
  settingsFile (state (setCurrentConfig c w))
  = Settings
      (JObj [("env", JObj [("ANTHROPIC_AUTH_TOKEN", JStr t);
                           ("ANTHROPIC_BASE_URL", JStr u);
                           ("CLAUDE_CODE_MAX_OUTPUT_TOKENS", JStr "32000");
                           ("CLAUDE_CODE_DISABLE_NONESSENTIAL_TRAFFIC",
                            JNum "1")]);
             ("permissions", JObj [("allow", JArr []); ("deny", JArr [])])])
  ∧ env (state (setCurrentConfig c w)) = env w.
Proof.
  destruct (setCurrentConfig_state c w Hdir) as (w' & -> & _ & _ & Hok & _).
  unfold state. cbn [fst].
  assert (Hdoc : settingsDoc w = defaultSettings).
  { unfold settingsDoc. by destruct Hfile as [-> | ->]. }
  destruct Hok as (Henv & doc & Hupd & ->).
  { apply settingsUpdated_iff. rewrite Hdoc, Htoken, Hurl. eauto. }
  split; [|done]. rewrite Hdoc, Htoken, Hurl in Hupd.
  injection Hupd as <-. vm_compute. reflexivity.
Qed.

Lemma setCurrentConfig_default_settings_witness :
  env (state (setCurrentConfig mirror corruptSettings)) = env corruptSettings
  ∧ envGet "ANTHROPIC_AUTH_TOKEN"
           (settingsDoc (state (setCurrentConfig mirror corruptSettings)))
    = Some (JStr "sk-ant-XXXX").
Proof.
  destruct (setCurrentConfig_default_settings mirror corruptSettings
              "sk-ant-XXXX" "https://api.aicodemirror.com/api/claudecode")
    as [Hfile Henv]; [reflexivity|by right|reflexivity..|].
  split; [exact Henv|]. unfold settingsDoc. rewrite Hfile. reflexivity.
Defined.

(** X9. When the settings update cannot be made, because the file cannot
    be written or because the document in it has no [env], activation on a
    host where [~/.claude] exists returns normally, leaves the settings file
    as it is and sets the session variables instead. *)
Theorem setCurrentConfig_settings_failure (c : Config) (w : World)
  (Hdir : claudeDirExists w = true)
  (Hfail : settingsWritable w = false ∨ docGet "env" (settingsDoc w) = None) :
  outcome (setCurrentConfig c w) = Ok ()
  ∧ settingsFile (state (setCurrentConfig c w)) = settingsFile w
  ∧ env (state (setCurrentConfig c w)) = sessionEnv c (env w).
Proof.
  destruct (setCurrentConfig_state c w Hdir) as (w' & -> & _ & _ & _ & Hfall).
  unfold state, outcome. cbn [fst snd]. split; [done|].
  destruct Hfall as [-> ->]; [|done].
  intros (_ & doc & Hdoc & Hw)%settingsUpdated_iff.
  destruct Hfail as [Hfail|Hfail]; [congruence|].
  unfold updatedSettings, setEnv in Hdoc.
  destruct (settingsDoc w) as [| | | | |props]; try discriminate Hdoc.
  cbn [docGet] in Hfail. by rewrite Hfail in Hdoc.
Qed.

Lemma setCurrentConfig_settings_failure_witness :
  settingsFile (state (setCurrentConfig kimi noEnvSettings))
  = settingsFile noEnvSettings
  ∧ env (state (setCurrentConfig kimi noEnvSettings)) !! "ANTHROPIC_AUTH_TOKEN"
    = Some "sk-xxx".
Proof.
  destruct (setCurrentConfig_settings_failure kimi noEnvSettings)
    as (_ & Hfile & Henv); [reflexivity|by right|].
  split; [exact Hfile|]. rewrite Henv. reflexivity.
Defined.

(** ** The shell start-up file *)

Section Edits.

Implicit Types (w : World) (c p q : Config) (content body block A B f : string).

(** A content of the form [A ++ old ++ B], where no marker starts in [A] and
    the old block holds its end marker at its end only, has its old block
    replaced by the new one. *)
Lemma splice_replaced A B body block :
  endsOnce (blockOf body) →
  (∀ j, j < Str.length A →
     Str.startsWith (Str.drop j (A +:+ blockOf body +:+ B)) envVarStart = false) →
  (∀ j, j < Str.length A →
     Str.startsWith (Str.drop j (A +:+ blockOf body +:+ B)) envVarEnd = false) →
  spliceEnvVars (A +:+ blockOf body +:+ B) block = A +:+ block +:+ B.
Proof.
  intros Hend HS HE. apply indexOf_some in Hend.
  assert (Hlen : Str.length envVarEnd ≤ Str.length (blockOf body)).
  { rewrite blockOf_end, length_app. lia. }
  rewrite (splice_found _ _ (Str.length A + 0)
             (Str.length A + (Str.length (blockOf body) - Str.length envVarEnd))).
  - rewrite Nat.add_0_r, take_app. do 2 f_equal.
    replace (Str.length A + (Str.length (blockOf body) - Str.length envVarEnd)
             + Str.length envVarEnd)
      with (Str.length A + (Str.length (blockOf body) + 0)) by lia.
    by rewrite !drop_app_add.
  - rewrite find_skip by exact HS. rewrite find_here; [reflexivity|].
    unfold blockOf. rewrite app_assoc. apply startsWith_app.
  - rewrite find_skip by exact HE.
    rewrite (find_app_found _ _ _ _ Hend). reflexivity.
Qed.

Lemma splice_switch content body block :
  endsOnce (blockOf body) → wellMarked content →
  spliceEnvVars (spliceEnvVars content (blockOf body)) block
  = spliceEnvVars content block.
Proof.
  intros Hend [[HS HE]|Horder].
  - apply indexOf_none in HS. apply indexOf_none in HE.
    rewrite !(splice_append content) by (left; exact HS).
    rewrite <-(app_assoc (padded content)), <-!app_assoc.
    rewrite !(app_assoc (padded content +:+ Str.chr Str.nl)).
    apply splice_replaced; [exact Hend|..]; intros j Hj.
    + apply no_start_padded; [reflexivity|exact HS|exact Hj].
    + apply no_start_padded; [reflexivity|exact HE|exact Hj].
  - unfold Str.indexOf in Horder.
    destruct (Str.find content envVarStart) as [i|] eqn:Hi; [|lia].
    destruct (Str.find content envVarEnd) as [e|] eqn:He; [|lia].
    rewrite !(splice_found content _ i e) by assumption.
    apply splice_replaced; [exact Hend|..]; intros j Hj.
    + apply (no_start_replaced content body _ _ i);
        [reflexivity|exact Hi| |exact Hj].
      by apply find_Some in Hi as (_ & _ & ?).
    + apply (no_start_replaced content body _ _ i);
        [reflexivity|exact Hi| |exact Hj].
      intros j' Hj'. apply find_Some in He as (_ & _ & Hmin).
      apply Hmin. lia.
Qed.

Lemma edit_then_edit block1 block2 f w :
  spliceEnvVars (spliceEnvVars (default "" (files w !! f)) block1) block2
  = spliceEnvVars (default "" (files w !! f)) block2 →
  withFiles
    (<[f := spliceEnvVars
              (default "" (<[f := spliceEnvVars (default "" (files w !! f))
                                                block1]> (files w) !! f))
              block2]>
       (<[f := spliceEnvVars (default "" (files w !! f)) block1]> (files w)))
    (withFiles (<[f := spliceEnvVars (default "" (files w !! f)) block1]>
                  (files w)) w)
  = withFiles (<[f := spliceEnvVars (default "" (files w !! f)) block2]>
                 (files w)) w.
Proof.
  intros Hswitch. rewrite lookup_insert_eq. cbn [default from_option id].
  rewrite Hswitch, insert_insert_eq. reflexivity.
Qed.

Lemma take_add j k s :
  Str.take (j + k) s = Str.take j s +:+ Str.take k (Str.drop j s).
Proof.
  revert s. induction j as [|j IH]; intros [|a s]; try done.
  - by destruct k.
  - simpl. by rewrite app_cons, IH.
Qed.

Lemma startsWith_take s n k :
  Str.startsWith s n = true → Str.length n ≤ k →
  Str.startsWith (Str.take k s) n = true.
Proof.
  intros H%startsWith_inv Hk. rewrite H.
  replace k with (Str.length n + (k - Str.length n)) by lia.
  rewrite take_add, take_app. apply startsWith_app.
Qed.

Lemma startsWith_padded content :
  Str.startsWith (padded content) content = true.
Proof.
  unfold padded. destruct (_ && _).
  - apply startsWith_app.
  - rewrite <-(app_nil_r content) at 1. apply startsWith_app.
Qed.

End Edits.

(** X10. The last activation wins in the start-up file: an edit for one
    profile followed by an edit for another gives the file the second edit
    alone gives, in the Unix and in the PowerShell form, provided the prior
    content holds neither marker or has its first start marker before its
    first end marker, and the end marker occurs in the first block at its
    end only. *)
Theorem shell_edit_switch (p q : Config) (f : string) (w : World)
  (Hmarked : wellMarked (default "" (files w !! f))) :
  (endsOnce (unixEnvVars p) →
     state ((updateUnixShellConfig p f;; updateUnixShellConfig q f) w)
     = state (updateUnixShellConfig q f w))
  ∧ (endsOnce (powerShellEnvVars p) →
     state ((updateWindowsPowerShellConfig p f;;
             updateWindowsPowerShellConfig q f) w)
     = state (updateWindowsPowerShellConfig q f w)).
Proof.
  split; intros Hend; run.
  - rewrite !updateUnixShellConfig_run. unfold state.
    cbn [fst snd files withFiles]. apply edit_then_edit.
    rewrite unixEnvVars_block in *. by apply splice_switch.
  - rewrite !updateWindowsPowerShellConfig_run. unfold state.
    cbn [fst snd files withFiles]. apply edit_then_edit.
    rewrite powerShellEnvVars_block in *. by apply splice_switch.
Qed.

Lemma shell_edit_switch_witness :
  state ((updateUnixShellConfig kimi "/home/u/.profile";;
          updateUnixShellConfig mirror "/home/u/.profile") kimiBlock)
  = state (updateUnixShellConfig mirror "/home/u/.profile" kimiBlock).
Proof.
  destruct (shell_edit_switch kimi mirror "/home/u/.profile" kimiBlock)
    as [Hunix _]; [right; decided|].
  apply Hunix. rewrite unixEnvVars_block. by apply endsOnce_hashFree.
Defined.

(** X11. The edit keeps the text of the user.  When a marker is missing,
    the new content is the old content, a line break when the old content
    is not empty and does not end with one, a line break, the block and a
    line break.  When the first start marker comes before the first end
    marker, the old content is [A ++ mid ++ B], where [mid] runs from the
    first start marker to the end of the first end marker, and the new
    content is [A ++ block ++ B]. *)
Theorem spliceEnvVars_keeps_text (content block : string) :
  ((Str.indexOf content envVarStart = (-1)%Z
    ∨ Str.indexOf content envVarEnd = (-1)%Z) →
     Str.startsWith (spliceEnvVars content block) content = true
     ∧ (∃ before, spliceEnvVars content block
                  = before +:+ block +:+ Str.chr Str.nl)
     ∧ ∃ pad, (pad = "" ∨ pad = Str.chr Str.nl)
              ∧ (pad = Str.chr Str.nl
                 ↔ content ≠ ""
                   ∧ Str.endsWith content (Str.chr Str.nl) = false)
              ∧ spliceEnvVars content block
                = content +:+ pad +:+ Str.chr Str.nl +:+ block
                    +:+ Str.chr Str.nl)
  ∧ ((0 ≤ Str.indexOf content envVarStart < Str.indexOf content envVarEnd)%Z →
     ∃ A mid m B,
       content = A +:+ mid +:+ B
       ∧ Z.of_nat (Str.length A) = Str.indexOf content envVarStart
       ∧ Z.of_nat (Str.length A + Str.length m)
         = Str.indexOf content envVarEnd
       ∧ Str.startsWith mid envVarStart = true
       ∧ mid = m +:+ envVarEnd
       ∧ spliceEnvVars content block = A +:+ block +:+ B).
Proof.
  split.
  - intros Hnone. rewrite splice_append.
    + split; [|split].
      * apply startsWith_app_l, startsWith_padded.
      * exists (padded content +:+ Str.chr Str.nl). by rewrite !app_assoc.
      * unfold padded. destruct content as [|x content].
        { exists "". split; [by left|]. split; [|done].
          split; [done|]. by intros [? _]. }
        cbn [Str.truthy andb].
        destruct (Str.endsWith (String x content) (Str.chr Str.nl)) eqn:E;
          cbn [negb].
        { exists "". split; [by left|]. split; [|by rewrite app_nil_l].
          split; [done|]. by intros [_ ?]. }
        exists (Str.chr Str.nl). split; [by right|]. split; [done|].
        by rewrite !app_assoc.
    + destruct Hnone as [H|H]; apply indexOf_none in H; eauto.
  - intros Horder. unfold Str.indexOf in *.
    destruct (Str.find content envVarStart) as [i|] eqn:Hi; [|lia].
    destruct (Str.find content envVarEnd) as [e|] eqn:He; [|lia].
    pose proof (find_Some _ _ _ Hi) as (HiS & Hilen & _).
    pose proof (find_Some _ _ _ He) as (HeE & Helen & _).
    pose proof (startsWith_length _ _ HeE) as HL. rewrite length_drop in HL.
    assert (HlenE : Str.length envVarEnd = 39) by reflexivity.
    assert (HlenS : Str.length envVarStart = 35) by reflexivity.
    exists (Str.take i content),
      (Str.take (e - i + Str.length envVarEnd) (Str.drop i content)),
      (Str.take (e - i) (Str.drop i content)),
      (Str.drop (e + Str.length envVarEnd) content).
    split; [|split; [|split; [|split; [|split]]]].
    + rewrite <-(take_drop i content) at 1. f_equal.
      rewrite <-(take_drop (e - i + Str.length envVarEnd) (Str.drop i content)) at 1.
      f_equal. rewrite drop_drop. f_equal. lia.
    + by rewrite length_take.
    + rewrite !length_take; [lia|rewrite length_drop; lia|lia].
    + apply startsWith_take; [exact HiS|lia].
    + rewrite take_add. f_equal. rewrite drop_drop.
      replace (i + (e - i)) with e by lia.
      rewrite (startsWith_inv _ _ HeE) at 1. apply take_app.
    + by apply splice_found.
Qed.

Lemma spliceEnvVars_keeps_text_witness :
  Str.startsWith (spliceEnvVars "export EDITOR=vim" (unixEnvVars kimi))
                 "export EDITOR=vim" = true
  ∧ ∃ A mid m B,
      "PATH=/bin" +:+ Str.chr Str.nl +:+ unixEnvVars kimi +:+ Str.chr Str.nl
        +:+ "alias ll=ls" = A +:+ mid +:+ B
      ∧ Str.startsWith mid envVarStart = true
      ∧ mid = m +:+ envVarEnd
      ∧ spliceEnvVars
          ("PATH=/bin" +:+ Str.chr Str.nl +:+ unixEnvVars kimi
             +:+ Str.chr Str.nl +:+ "alias ll=ls")
          (unixEnvVars mirror)
        = A +:+ unixEnvVars mirror +:+ B.
Proof.
  destruct (spliceEnvVars_keeps_text "export EDITOR=vim" (unixEnvVars kimi))
    as [Happend _].
  destruct (spliceEnvVars_keeps_text
              ("PATH=/bin" +:+ Str.chr Str.nl +:+ unixEnvVars kimi
                 +:+ Str.chr Str.nl +:+ "alias ll=ls")
              (unixEnvVars mirror)) as [_ Hreplace].
  split.
  - apply Happend. left. reflexivity.
  - destruct Hreplace as (A & mid & m & B & Hc & _ & _ & Hs & Hm & Hr);
      [decided|].
    exists A, mid, m, B. split; [exact Hc|]. split; [exact Hs|].
    split; [exact Hm|exact Hr].
Defined.

(** ** The shell-configuration fallback, host by host *)

Section Fallback.

Implicit Types (w : World) (c : Config).

Lemma detectShell_windows w :
  isWin w = true → detectShell w = "powershell" ∨ detectShell w = "cmd".
Proof.
  intros Hwin. unfold detectShell. rewrite Hwin.
  repeat case_match; auto.
Qed.

Lemma truthy_pathJoin w (a b : string) :
  Str.truthy (pathJoin w a b) = true.
Proof. unfold pathJoin. destruct a, (isWin w); reflexivity. Qed.

Lemma pathJoin_inj w (a b1 b2 : string) :
  pathJoin w a b1 = pathJoin w a b2 → b1 = b2.
Proof.
  unfold pathJoin. intros H. apply (inj (String.app a)) in H.
  by apply (inj (String.app _)) in H.
Qed.

(** On a Unix host [getProfileFile] changes nothing and names one of four
    files; it names [.bash_profile] only if that file exists. *)
Lemma getProfileFile_unix w :
  isWin w = false →
  getProfileFile w = (w, Ok (unixProfile w))
  ∧ unixProfile w ∈ [pathJoin w (homedir w) ".zshrc";
                     pathJoin w (homedir w) ".bash_profile";
                     pathJoin w (homedir w) ".bashrc";
                     pathJoin w (homedir w) ".profile"]
  ∧ (unixProfile w = pathJoin w (homedir w) ".bash_profile" →
     is_Some (files w !! pathJoin w (homedir w) ".bash_profile")).
Proof.
  intros Hwin.
  assert (H : ∃ f, getProfileFile w = (w, Ok f)
            ∧ f ∈ [pathJoin w (homedir w) ".zshrc";
                   pathJoin w (homedir w) ".bash_profile";
                   pathJoin w (homedir w) ".bashrc";
                   pathJoin w (homedir w) ".profile"]
            ∧ (f = pathJoin w (homedir w) ".bash_profile" →
               is_Some (files w !! pathJoin w (homedir w) ".bash_profile"))).
  { unfold getProfileFile. run. cbn [id]. rewrite Hwin.
    generalize (detectShell w). intros sh.
    repeat case_bool_decide; eexists; (split; [reflexivity|]); split;
      try (intros Heq; apply pathJoin_inj in Heq; discriminate Heq);
      try done; rewrite !elem_of_cons; auto. }
  destruct H as (f & Hrun & Hin & Hbash).
  assert (Hf : unixProfile w = f) by (unfold unixProfile; by rewrite Hrun).
  by rewrite Hf.
Qed.

Lemma updateShellConfig_unix c w :
  isWin w = false →
  updateShellConfig c w
  = (withFiles
       (<[unixProfile w :=
            spliceEnvVars (default "" (files w !! unixProfile w))
                          (unixEnvVars c)]> (files w))
       (withEnv (sessionEnv c (env w)) w), Ok ()).
Proof.
  intros Hwin. unfold updateShellConfig. unfold mbind at 1. unfold M_bind, bind.
  destruct (getProfileFile_unix w Hwin) as (-> & _ & _).
  unfold setCurrentSessionEnvironmentVariables, updateUnixShellConfig,
    readProfile, writeProfile, sessionEnv.
  run. cbn [isWin withEnv files env]. rewrite Hwin. reflexivity.
Qed.

Lemma getProfileFile_cmd w :
  isWin w = true → detectShell w = "cmd" → getProfileFile w = (w, Ok "").
Proof.
  intros Hwin Hcmd. unfold getProfileFile. run. cbn [id].
  rewrite Hwin, Hcmd. reflexivity.
Qed.

Lemma getProfileFile_powershell w :
  isWin w = true → detectShell w = "powershell" →
  ∃ d, getProfileFile w
       = (withDirs d w,
          Ok (pathJoin w (pathJoin w (pathJoin w (homedir w) "Documents")
                                   "WindowsPowerShell")
                       "Microsoft.PowerShell_profile.ps1"))
       ∧ pathJoin w (pathJoin w (homedir w) "Documents") "WindowsPowerShell" ∈ d.
Proof.
  intros Hwin Hps. unfold getProfileFile. run. cbn [id].
  rewrite Hwin, Hps. rewrite bool_decide_eq_true_2 by reflexivity.
  case_bool_decide as Hd.
  - exists (dirs w). split; [|done]. by destruct w.
  - eexists. split; [reflexivity|]. set_solver.
Qed.

Lemma updateShellConfig_cmd_run c w :
  isWin w = true → detectShell w = "cmd" →
  updateShellConfig c w
  = (if setxWorks w
     then withUserEnv
            (<[envVarOf c := toStr (token c)]>
               (<["ANTHROPIC_BASE_URL" := toStr (url c)]> (userEnv w)))
            (withEnv (sessionEnv c (env w)) w)
     else withEnv (sessionEnv c (env w)) w, Ok ()).
Proof.
  intros Hwin Hcmd. unfold updateShellConfig. unfold mbind at 1.
  unfold M_bind, bind. rewrite getProfileFile_cmd by done.
  unfold setCurrentSessionEnvironmentVariables, setWindowsEnvironmentVariable,
    sessionEnv.
  run. cbn [isWin withEnv withUserEnv setxWorks env userEnv files dirs].
  rewrite Hwin, Hcmd. rewrite bool_decide_eq_true_2 by reflexivity.
  cbn [orb].
  assert (Hs1 : ∀ e x, setxWorks (withEnv e x) = setxWorks x) by done.
  assert (Hs2 : ∀ u x, setxWorks (withUserEnv u x) = setxWorks x) by done.
  destruct (setxWorks w) eqn:Hsetx;
    do 2 (rewrite ?Hs2, ?Hs1, ?Hsetx; cbn beta iota); reflexivity.
Qed.

Lemma updateShellConfig_powershell_run c w :
  isWin w = true → detectShell w = "powershell" →
  ∃ d, updateShellConfig c w
       = (withFiles
            (<[pathJoin w (pathJoin w (pathJoin w (homedir w) "Documents")
                                     "WindowsPowerShell")
                         "Microsoft.PowerShell_profile.ps1" :=
                 spliceEnvVars
                   (default "" (files w !! pathJoin w
                      (pathJoin w (pathJoin w (homedir w) "Documents")
                                "WindowsPowerShell")
                      "Microsoft.PowerShell_profile.ps1"))
                   (powerShellEnvVars c)]> (files w))
            (withEnv (sessionEnv c (env w)) (withDirs d w)), Ok ())
       ∧ pathJoin w (pathJoin w (homedir w) "Documents") "WindowsPowerShell" ∈ d.
Proof.
  intros Hwin Hsh. unfold updateShellConfig. unfold mbind at 1.
  unfold M_bind, bind.
  destruct (getProfileFile_powershell w Hwin Hsh) as (d & -> & Hd).
  exists d. split; [|exact Hd].
  unfold setCurrentSessionEnvironmentVariables, updateWindowsPowerShellConfig,
    readProfile, writeProfile, sessionEnv.
  run. change (detectShell (withDirs d w)) with (detectShell w).
  cbn [isWin withEnv withDirs withFiles env userEnv files dirs].
  rewrite Hwin, Hsh, truthy_pathJoin.
  rewrite bool_decide_eq_false_2 by discriminate. reflexivity.
Qed.

End Fallback.

(** X12. On a Unix host the shell-configuration fallback writes the block
    to one start-up file and to no other: [~/.zshrc], [~/.bash_profile],
    [~/.bashrc] or [~/.profile].  It sets the session variables and leaves
    the user-level variables and the directories alone, and it never
    creates [~/.bash_profile]. *)
Theorem updateShellConfig_unix_file (c : Config) (w : World)
  (Hunix : isWin w = false) :
  outcome (updateShellConfig c w) = Ok ()
  ∧ files (state (updateShellConfig c w))
    = <[unixProfile w :=
          spliceEnvVars (default "" (files w !! unixProfile w))
                        (unixEnvVars c)]> (files w)
  ∧ unixProfile w ∈ [pathJoin w (homedir w) ".zshrc";
                     pathJoin w (homedir w) ".bash_profile";
                     pathJoin w (homedir w) ".bashrc";
                     pathJoin w (homedir w) ".profile"]
  ∧ (is_Some (files (state (updateShellConfig c w))
              !! pathJoin w (homedir w) ".bash_profile") →
     is_Some (files w !! pathJoin w (homedir w) ".bash_profile"))
  ∧ env (state (updateShellConfig c w)) = sessionEnv c (env w)
  ∧ userEnv (state (updateShellConfig c w)) = userEnv w
  ∧ dirs (state (updateShellConfig c w)) = dirs w.
Proof.
  rewrite updateShellConfig_unix by done.
  destruct (getProfileFile_unix w Hunix) as (_ & Hin & Hbash).
  unfold state, outcome. cbn [fst snd files env userEnv dirs withFiles withEnv].
  repeat split; try done.
  destruct (decide (unixProfile w = pathJoin w (homedir w) ".bash_profile"))
    as [Heq|Hne]; [auto|].
  by rewrite lookup_insert_ne.
Qed.

Lemma updateShellConfig_unix_file_witness :
  files (state (updateShellConfig kimi bashHost)) !! "/home/u/.bash_profile"
  = None
  ∧ unixProfile bashHost = "/home/u/.bashrc".
Proof.
  destruct (updateShellConfig_unix_file kimi bashHost eq_refl)
    as (_ & _ & _ & Hbash & _).
  split; [|reflexivity].
  destruct (files (state (updateShellConfig kimi bashHost))
            !! "/home/u/.bash_profile") eqn:E; [|reflexivity].
  destruct Hbash as [x Hx]; [by eexists|]. discriminate Hx.
Defined.

(** X13. On a Windows host where [cmd] is detected the fallback writes no
    file: it stores the base URL and the credential with [setx], under the
    variable of the profile's kind, and returns normally, with the
    user-level variables unchanged, when [setx] fails. *)
Theorem updateShellConfig_cmd (c : Config) (w : World)
  (Hwin : isWin w = true) (Hcmd : detectShell w = "cmd") :
  outcome (updateShellConfig c w) = Ok ()
  ∧ files (state (updateShellConfig c w)) = files w
  ∧ dirs (state (updateShellConfig c w)) = dirs w
  ∧ env (state (updateShellConfig c w)) = sessionEnv c (env w)
  ∧ userEnv (state (updateShellConfig c w))
    = if setxWorks w
      then <[envVarOf c := toStr (token c)]>
             (<["ANTHROPIC_BASE_URL" := toStr (url c)]> (userEnv w))
      else userEnv w.
Proof.
  rewrite updateShellConfig_cmd_run by done.
  unfold state, outcome.
  destruct (setxWorks w); cbn [fst snd files dirs env userEnv withUserEnv withEnv];
    done.
Qed.

Lemma updateShellConfig_cmd_witness :
  files (state (updateShellConfig mirror cmdHost)) = ∅
  ∧ userEnv (state (updateShellConfig mirror cmdHost)) !! "ANTHROPIC_API_KEY"
    = Some "sk-ant-XXXX".
Proof.
  destruct (updateShellConfig_cmd mirror cmdHost eq_refl eq_refl)
    as (_ & Hfiles & _ & _ & Huser).
  split; [exact Hfiles|]. rewrite Huser. reflexivity.
Defined.

(** X14. On a Windows host where [cmd] is not detected the fallback writes
    the block, in the PowerShell form, to the PowerShell profile under
    [Documents\WindowsPowerShell], whose directory exists afterwards; no
    other file is written and [setx] is not used. *)
Theorem updateShellConfig_powershell (c : Config) (w : World)
  (Hwin : isWin w = true) (Hps : detectShell w ≠ "cmd") :
  outcome (updateShellConfig c w) = Ok ()
  ∧ files (state (updateShellConfig c w))
    = <[pathJoin w (pathJoin w (pathJoin w (homedir w) "Documents")
                             "WindowsPowerShell")
                 "Microsoft.PowerShell_profile.ps1" :=
          spliceEnvVars
            (default "" (files w !! pathJoin w
               (pathJoin w (pathJoin w (homedir w) "Documents")
                         "WindowsPowerShell")
               "Microsoft.PowerShell_profile.ps1"))
            (powerShellEnvVars c)]> (files w)
  ∧ pathJoin w (pathJoin w (homedir w) "Documents") "WindowsPowerShell"
    ∈ dirs (state (updateShellConfig c w))
  ∧ env (state (updateShellConfig c w)) = sessionEnv c (env w)
  ∧ userEnv (state (updateShellConfig c w)) = userEnv w.
Proof.
  assert (Hsh : detectShell w = "powershell").
  { by destruct (detectShell_windows w Hwin). }
  destruct (updateShellConfig_powershell_run c w Hwin Hsh) as (d & -> & Hd).
  unfold state, outcome.
  cbn [fst snd files dirs env userEnv withFiles withDirs withEnv]. done.
Qed.

Lemma updateShellConfig_powershell_witness :
  userEnv (state (updateShellConfig kimi
                    (withEnv {[ "PSModulePath" := "C:\Modules" ]} cmdHost)))
  = ∅.
Proof.
  destruct (updateShellConfig_powershell kimi
              (withEnv {[ "PSModulePath" := "C:\Modules" ]} cmdHost) eq_refl)
    as (_ & _ & _ & _ & Huser); [by vm_compute|].
  exact Huser.
Defined.

(** ** Lines of the profile list *)

Section Lines.

Implicit Types (a n t u k x y b line : string).

Lemma split_four a n t u :
  pipeFree a → pipeFree n → pipeFree t → pipeFree u →
  Str.split (a +:+ "|" +:+ n +:+ "|" +:+ t +:+ "|" +:+ u) Str.pipe
  = [a; n; t; u].
Proof.
  intros Ha Hn Ht Hu. rewrite !bar_app, !split_app.
  by rewrite !split_no_sep.
Qed.

Lemma parseConfigs_blank b :
  Str.blank b = true → lineFree b → parseConfigs b = [].
Proof.
  intros Hb Hl. unfold parseConfigs. rewrite split_no_sep by exact Hl.
  rewrite filter_cons_False; [done|]. by rewrite Hb.
Qed.

Lemma split_length x y (sep : ascii) :
  length (Str.split (x +:+ String sep y) sep)
  = length (Str.split x sep) + length (Str.split y sep).
Proof. by rewrite split_app, List.length_app. Qed.

Lemma split_length_pos x (sep : ascii) : 1 ≤ length (Str.split x sep).
Proof.
  pose proof (split_not_nil x sep). destruct (Str.split x sep); [done|].
  simpl. lia.
Qed.

Lemma renderConfig_fields (c : Config) :
  5 ≤ length (Str.split (renderConfig c) Str.pipe).
Proof.
  unfold renderConfig. rewrite !bar_app, !split_length.
  pose proof (split_length_pos (toStr (alias c)) Str.pipe).
  pose proof (split_length_pos (toStr (name c)) Str.pipe).
  pose proof (split_length_pos (toStr (token c)) Str.pipe).
  pose proof (split_length_pos (toStr (url c)) Str.pipe).
  pose proof (split_length_pos (orElse (type c) "TOKEN") Str.pipe). lia.
Qed.

End Lines.

(** X15. A line of the older format, with four fields and no kind, reads as
    a TOKEN profile, and so does a line whose fifth field is empty; a fifth
    field that is not empty is kept as the kind, as it is written.  The
    fields must not hold '|'. *)
Theorem parseLine_legacy (a n t u : string)
  (Ha : pipeFree a) (Hn : pipeFree n) (Ht : pipeFree t) (Hu : pipeFree u) :
  parseLine (a +:+ "|" +:+ n +:+ "|" +:+ t +:+ "|" +:+ u)
  = mkConfig (Some a) (Some n) (Some t) (Some u) (Some "TOKEN")
  ∧ parseLine (a +:+ "|" +:+ n +:+ "|" +:+ t +:+ "|" +:+ u +:+ "|")
    = mkConfig (Some a) (Some n) (Some t) (Some u) (Some "TOKEN")
  ∧ envVarOf (parseLine (a +:+ "|" +:+ n +:+ "|" +:+ t +:+ "|" +:+ u))
    = "ANTHROPIC_AUTH_TOKEN"
  ∧ ∀ k, pipeFree k → k ≠ "" →
      parseLine (a +:+ "|" +:+ n +:+ "|" +:+ t +:+ "|" +:+ u +:+ "|" +:+ k)
      = mkConfig (Some a) (Some n) (Some t) (Some u) (Some k).
Proof.
  assert (H4 : parseLine (a +:+ "|" +:+ n +:+ "|" +:+ t +:+ "|" +:+ u)
               = mkConfig (Some a) (Some n) (Some t) (Some u) (Some "TOKEN")).
  { unfold parseLine. by rewrite split_four. }
  split; [exact H4|]. split; [|split].
  - unfold parseLine.
    pose proof (split_five a n t u "" Ha Hn Ht Hu eq_refl) as H5.
    change ("|" +:+ "") with "|" in H5. by rewrite H5.
  - by rewrite H4.
  - intros k Hk Hne. unfold parseLine. rewrite split_five by done.
    cbn [lookup list_lookup orElse]. by destruct k.
Qed.

Lemma parseLine_legacy_witness :
  parseLine "kimi|Claude|sk-xxx|https://api.moonshot.cn/anthropic" = kimi.
Proof.
  by destruct (parseLine_legacy "kimi" "Claude" "sk-xxx"
                 "https://api.moonshot.cn/anthropic") as [H _].
Defined.

(** X16. Blank lines do not count: a line of white space between two parts
    of the profile list, before them or after them, adds no record. *)
Theorem parseConfigs_blank_lines (x b y : string)
  (Hblank : Str.blank b = true) (Hline : lineFree b) :
  parseConfigs (x +:+ String Str.nl (b +:+ String Str.nl y))
  = parseConfigs x ++ parseConfigs y
  ∧ parseConfigs (x +:+ String Str.nl b) = parseConfigs x
  ∧ parseConfigs (b +:+ String Str.nl y) = parseConfigs y.
Proof.
  pose proof (parseConfigs_blank b Hblank Hline) as Hb.
  rewrite !parseConfigs_app, Hb. split; [done|]. split; [|done].
  apply List.app_nil_r.
Qed.

Lemma parseConfigs_blank_lines_witness :
  parseConfigs ("kimi|Claude|sk-xxx|https://api.moonshot.cn/anthropic|TOKEN"
                +:+ String Str.nl ("  " +:+ String Str.nl ""))
  = [kimi].
Proof.
  destruct (parseConfigs_blank_lines
              "kimi|Claude|sk-xxx|https://api.moonshot.cn/anthropic|TOKEN"
              "  " "") as [H _]; [reflexivity..|].
  rewrite H. reflexivity.
Defined.

(** X21. The pointer is a faithful snapshot of a stored profile: for a
    stored profile with its four leading fields, [getCurrentConfig] after
    [setCurrentConfig] returns that very record. *)
Theorem getCurrentConfig_snapshot (c : Config) (w : World)
  (Hstored : c ∈ listAll w) (Hcomplete : complete c) :
  ∃ r, getCurrent (state (setCurrentConfig c w)) = Some r ∧ current r = c.
Proof.
  pose proof (claudeDir_stored w c Hstored) as Hdir.
  rewrite listAll_parse in Hstored.
  pose proof (parseConfigs_clean _ _ Hstored) as [Hpipe _].
  destruct (setCurrentConfig_state c w Hdir) as (w' & -> & _ & Hcur & _).
  unfold state. cbn [fst]. eexists.
  split; [by apply getCurrent_pointer|].
  cbn [current]. by apply (rendered_complete _ _ Hstored).
Qed.

Lemma getCurrentConfig_snapshot_witness :
  ∃ r, getCurrent (state (setCurrentConfig mirror twoProfiles)) = Some r
       ∧ current r = mirror.
Proof.
  apply getCurrentConfig_snapshot; [decided|by repeat split].
Defined.

(** ** The commands *)

Section Commands.

Implicit Types (w : World) (c : Config) (a t u : string).

Lemma determineKeyType_range u (ty : option string) :
  Commands.determineKeyType u ty = "KEY"
  ∨ Commands.determineKeyType u ty = "TOKEN".
Proof.
  unfold Commands.determineKeyType, Commands.urlRules.
  repeat case_match; auto.
Qed.

Lemma truthy_ne s : Str.truthy s = true ↔ s ≠ "".
Proof. by destruct s. Qed.

Lemma getConfig_run a w :
  getConfig a w
  = (state (initConfig w),
     if claudeDirExists w then Ok (lookupAlias a w) else Throw ENOENT).
Proof.
  unfold lookupAlias, getConfig. run. rewrite getAllConfigs_run.
  by destruct (claudeDirExists w).
Qed.

Lemma lookupAlias_exists a w c :
  lookupAlias a w = Some c → state (initConfig w) = w.
Proof.
  rewrite lookupAlias_find. intros [Hc _]%findAlias_Some.
  apply initConfig_exists. by apply (listAll_nonempty_exists w c).
Qed.

End Commands.

(** X17. [acm add] ends with status 1 and changes nothing when the alias,
    the secret or the URL is empty, when the alias is stored already, or
    when [~/.claude] does not exist.  Otherwise, with fields that hold
    neither '|' nor a line break, it returns and the profile is found under
    its alias with the name Claude and the kind the resolver gives, which is
    KEY or TOKEN. *)
Theorem add_stores (a t u : string) (ty : option string) (w : World) :
  (a = "" ∨ t = "" ∨ u = "" → Cmd.add a t u ty w = (w, Exited 1))
  ∧ (is_Some (lookupAlias a w) → Cmd.add a t u ty w = (w, Exited 1))
  ∧ (claudeDirExists w = false → Cmd.add a t u ty w = (w, Exited 1))
  ∧ (claudeDirExists w = true →
     a ≠ "" → t ≠ "" → u ≠ "" → lookupAlias a w = None →
     cleanField a → cleanField t → cleanField u →
       (Cmd.add a t u ty w).2 = Returned
       ∧ lookupAlias a (Cmd.add a t u ty w).1
         = Some (mkConfig (Some a) (Some "Claude") (Some t) (Some u)
                          (Some (Commands.determineKeyType u ty)))
       ∧ (Commands.determineKeyType u ty = "KEY"
          ∨ Commands.determineKeyType u ty = "TOKEN")).
Proof.
  split; [|split; [|split]].
  - intros Hempty. unfold Cmd.add.
    destruct Hempty as [->|[->| ->]]; cbn [Str.truthy negb orb];
      rewrite ?orb_true_r; reflexivity.
  - intros [c Hc]. unfold Cmd.add.
    destruct (negb (Str.truthy a) || negb (Str.truthy t) || negb (Str.truthy u));
      [reflexivity|].
    rewrite addConfig_run. rewrite lookupAlias_find in Hc. rewrite Hc.
    rewrite lookupAlias_exists with (a := a) (c := c);
      [reflexivity|by rewrite lookupAlias_find].
  - intros Hbare. unfold Cmd.add.
    destruct (negb (Str.truthy a) || negb (Str.truthy t) || negb (Str.truthy u));
      [reflexivity|].
    rewrite addConfig_run, Hbare.
    by destruct (store_bare w Hbare) as (_ & _ & ->).
  - intros Hdir Ha Ht Hu Hfresh Hca Hct Hcu. unfold Cmd.add.
    apply truthy_ne in Ha, Ht, Hu. rewrite Ha, Ht, Hu. cbn [negb orb].
    assert (Hk : orElse (Some (Commands.determineKeyType u ty)) "TOKEN"
                 = Commands.determineKeyType u ty).
    { by destruct (determineKeyType_range u ty) as [-> | ->]. }
    assert (Hck : cleanField (orElse (Some (Commands.determineKeyType u ty))
                                     "TOKEN")).
    { rewrite Hk. by destruct (determineKeyType_range u ty) as [-> | ->]. }
    assert (Hcn : cleanField "Claude") by done.
    rewrite lookupAlias_find in Hfresh.
    destruct (listAll_added a "Claude" t u
                (Some (Commands.determineKeyType u ty)) w Hdir Hfresh)
      as [Hrun Hlist].
    rewrite Hrun. cbn [fst snd]. split; [reflexivity|].
    split; [|apply determineKeyType_range].
    rewrite Hrun in Hlist. unfold state in Hlist. cbn [fst] in Hlist.
    rewrite lookupAlias_find, Hlist, findAlias_app, Hfresh,
      newLine_record, Hk by done.
    unfold findAlias. cbn [List.find alias]. by rewrite bool_decide_eq_true_2.
Qed.

Lemma add_stores_witness :
  Cmd.add "kimi" "sk-2" "https://u" None twoProfiles = (twoProfiles, Exited 1)
  ∧ lookupAlias "gac" (Cmd.add "gac" "sk-4" "https://gaccode.com/claudecode"
                               None twoProfiles).1
    = Some (mkConfig (Some "gac") (Some "Claude") (Some "sk-4")
                     (Some "https://gaccode.com/claudecode") (Some "KEY")).
Proof.
  destruct (add_stores "kimi" "sk-2" "https://u" None twoProfiles)
    as (_ & Hdup & _).
  destruct (add_stores "gac" "sk-4" "https://gaccode.com/claudecode" None
              twoProfiles) as (_ & _ & _ & Hnew).
  split; [apply Hdup; exists kimi; vm_compute; reflexivity|].
  assert (Hkey : Commands.determineKeyType "https://gaccode.com/claudecode" None
                 = "KEY") by (vm_compute; reflexivity).
  rewrite Hkey in Hnew.
  destruct Hnew as (_ & Hfound & _);
    [vm_compute; reflexivity
    |discriminate|discriminate|discriminate|vm_compute; reflexivity
    |split; vm_compute; reflexivity|split; vm_compute; reflexivity
    |split; vm_compute; reflexivity|].
  exact Hfound.
Defined.

(** X18. [acm use] with an empty alias or an alias that is not stored ends
    with status 1 and activates nothing: the pointer file, the settings
    file, the process environment and the start-up files are as before, and
    so is the profile list. *)
Theorem use_unknown (a : string) (w : World)
  (Hunknown : a = "" ∨ lookupAlias a w = None) :
  (Cmd.use a w).2 = Exited 1
  ∧ sameButConfigFile w (Cmd.use a w).1
  ∧ listAll (Cmd.use a w).1 = listAll w.
Proof.
  unfold Cmd.use. destruct (Str.truthy a) eqn:Ha; cbn [negb].
  - destruct Hunknown as [->|Hnone]; [discriminate Ha|].
    rewrite getConfig_run, Hnone. destruct (claudeDirExists w); cbn [fst snd].
    all: split; [reflexivity|]; split.
    all: first [apply sameButConfigFile_init | apply listAll_initConfig].
  - cbn [fst snd]. split; [reflexivity|]. split; [|reflexivity].
    unfold sameButConfigFile. by destruct w.
Qed.

Lemma use_unknown_witness :
  (Cmd.use "glm" twoProfiles).2 = Exited 1
  ∧ listAll (Cmd.use "glm" twoProfiles).1 = listAll twoProfiles.
Proof.
  destruct (use_unknown "glm" twoProfiles) as (Hexit & _ & Hlist);
    [right; reflexivity|].
  split; [exact Hexit|exact Hlist].
Defined.

(** X19. [acm use] with a stored alias activates the first profile stored
    under it, exactly as [setCurrentConfig] does.  It returns when the
    profile has a secret; for a profile read from a line without a third
    field it ends with status 1, after the activation has been made. *)
Theorem use_activates (a : string) (w : World) (c : Config)
  (Halias : a ≠ "") (Hstored : lookupAlias a w = Some c) :
  (Cmd.use a w).1 = state (setCurrentConfig c w)
  ∧ (is_Some (token c) → (Cmd.use a w).2 = Returned)
  ∧ (token c = None → (Cmd.use a w).2 = Exited 1)
  ∧ currentFile (Cmd.use a w).1 = Some (renderConfig c).
Proof.
  pose proof (claudeDir_lookup a w c Hstored) as Hdir.
  unfold Cmd.use. apply truthy_ne in Halias. rewrite Halias. cbn [negb].
  rewrite getConfig_run, Hdir, Hstored, (lookupAlias_exists a w c Hstored).
  destruct (setCurrentConfig_state c w Hdir) as (w' & Hrun & _ & Hcur & _).
  unfold Cmd.tokenPreview, lift. run. rewrite Hrun. unfold state. cbn [fst snd].
  destruct (token c) as [tk|]; cbn [fst snd]; repeat split; try done.
Qed.

Lemma use_activates_witness :
  (Cmd.use "draft" shortLine).2 = Exited 1
  ∧ currentFile (Cmd.use "draft" shortLine).1
    = Some "draft|undefined|undefined|undefined|TOKEN"
  ∧ (Cmd.use "kimi" shortLine).2 = Returned.
Proof.
  destruct (use_activates "draft" shortLine draft) as (_ & _ & Hexit & Hcur);
    [discriminate|reflexivity|].
  destruct (use_activates "kimi" shortLine kimi) as (_ & Hret & _);
    [discriminate|reflexivity|].
  split; [by apply Hexit|]. split; [exact Hcur|]. apply Hret. by eexists.
Defined.

(** X20. [acm current] returns when there is no pointer file, and it
    returns after any activation: the pointer file [setCurrentConfig]
    writes always has a third field.  On a pointer file with fewer than
    three fields it ends with status 1. *)
Theorem current_status (w : World) :
  (currentFile w = None → Cmd.current w = (w, Returned))
  ∧ (∀ c, (Cmd.current (state (setCurrentConfig c w))).2 = Returned)
  ∧ (∀ content, currentFile w = Some content →
       length (Str.split content Str.pipe) < 3 →
       Cmd.current w = (w, Exited 1)).
Proof.
  assert (Hcur : ∀ w0 content, currentFile w0 = Some content →
            Cmd.current w0
            = (w0, match Str.split content Str.pipe !! 2 with
                   | Some _ => Returned
                   | None => Exited 1
                   end)).
  { intros w0 content H0. unfold Cmd.current, getCurrentConfig,
      Cmd.tokenPreview. run. rewrite H0. cbn [current token id].
    by destruct (Str.split content Str.pipe !! 2). }
  split; [|split].
  - intros Hnone. unfold Cmd.current, getCurrentConfig. run. by rewrite Hnone.
  - intros c. destruct (claudeDirExists w) eqn:Hdir.
    2: { rewrite setCurrentConfig_bare by done. unfold state. cbn [fst].
         destruct (currentFile w) eqn:E.
         - rewrite claudeDir_current in Hdir by (rewrite E; eauto). done.
         - unfold Cmd.current, getCurrentConfig. run. by rewrite E. }
    destruct (setCurrentConfig_state c w Hdir) as (w' & -> & _ & Hp & _).
    unfold state. cbn [fst]. rewrite (Hcur w' _ Hp). cbn [snd].
    destruct (Str.split (renderConfig c) Str.pipe !! 2) eqn:E; [done|].
    apply lookup_ge_None_1 in E. pose proof (renderConfig_fields c). lia.
  - intros content Hp Hshort. rewrite (Hcur w _ Hp).
    by rewrite lookup_ge_None_2 by lia.
Qed.

Lemma current_status_witness :
  Cmd.current emptyWorld = (emptyWorld, Returned)
  ∧ Cmd.current (withCurrentFile (Some "kimi|Claude") emptyWorld)
    = (withCurrentFile (Some "kimi|Claude") emptyWorld, Exited 1).
Proof.
  destruct (current_status emptyWorld) as (Hnone & _).
  destruct (current_status (withCurrentFile (Some "kimi|Claude") emptyWorld))
    as (_ & _ & Hshort).
  split; [by apply Hnone|].
  apply (Hshort "kimi|Claude"); [reflexivity|vm_compute; lia].
Defined.

Section Scenario.

Implicit Types (w : World) (c : Config) (a t u : string).

Lemma use_run a w c :
  a ≠ "" → lookupAlias a w = Some c →
  Cmd.use a w
  = (state (setCurrentConfig c w),
     match token c with Some _ => Returned | None => Exited 1 end).
Proof.
  intros Halias Hstored. pose proof (claudeDir_lookup a w c Hstored) as Hdir.
  unfold Cmd.use. apply truthy_ne in Halias.
  rewrite Halias. cbn [negb].
  rewrite getConfig_run, Hdir, Hstored, (lookupAlias_exists a w c Hstored).
  destruct (setCurrentConfig_state c w Hdir) as (w' & Hrun & _).
  unfold Cmd.tokenPreview, lift. run. rewrite Hrun. unfold state. cbn [fst snd].
  by destruct (token c).
Qed.

Lemma remove_run a w :
  a ≠ "" →
  Cmd.remove a w
  = (state (removeConfig a w),
     match lookupAlias a w with Some _ => Returned | None => Exited 1 end).
Proof.
  intros Halias. unfold Cmd.remove. apply truthy_ne in Halias.
  rewrite Halias. cbn [negb]. rewrite lookupAlias_find, removeConfig_run.
  by destruct (findAlias a (listAll w)).
Qed.

Lemma current_run w content :
  currentFile w = Some content →
  Cmd.current w
  = (w, match Str.split content Str.pipe !! 2 with
        | Some _ => Returned
        | None => Exited 1
        end)
  ∧ True.
Proof.
  intros H0. split; [|done].
  unfold Cmd.current, getCurrentConfig, Cmd.tokenPreview. run. rewrite H0.
  cbn [current token id]. by destruct (Str.split content Str.pipe !! 2).
Qed.

(** The pointer of a profile goes with the profile. *)
Lemma removeConfig_unlinks a w c :
  findAlias a (listAll w) = Some c →
  (∃ rest, currentFile w = Some (a +:+ "|" +:+ rest)) →
  currentFile (state (removeConfig a w)) = None.
Proof.
  intros Hf [rest Hcur]. rewrite removeConfig_run, Hf, Hcur. cbn zeta.
  rewrite <-app_assoc, startsWith_app. reflexivity.
Qed.

End Scenario.

(** X22. [acm remove] ends with status 1 and changes nothing when the alias
    is empty, and with status 1 and the same profiles when the alias is not
    stored; otherwise it returns and the alias is not found any more. *)
Theorem remove_status (a : string) (w : World) :
  (a = "" → Cmd.remove a w = (w, Exited 1))
  ∧ (a ≠ "" → lookupAlias a w = None →
     (Cmd.remove a w).2 = Exited 1 ∧ listAll (Cmd.remove a w).1 = listAll w)
  ∧ (a ≠ "" → is_Some (lookupAlias a w) →
     (Cmd.remove a w).2 = Returned ∧ lookupAlias a (Cmd.remove a w).1 = None).
Proof.
  split; [by intros ->|]. split.
  - intros Ha Hnone. rewrite remove_run, Hnone by done. cbn [fst snd].
    split; [reflexivity|]. rewrite lookupAlias_find in Hnone.
    rewrite removeConfig_run, Hnone. apply listAll_initConfig.
  - intros Ha [c Hc]. rewrite remove_run, Hc by done. cbn [fst snd].
    split; [reflexivity|]. rewrite lookupAlias_find in Hc.
    rewrite lookupAlias_find, (listAll_removed a w c Hc),
      findAlias_fmap_rendered.
    + by rewrite findAlias_filter_eq.
    + intros c' [_ Hc']%list_elem_of_filter. rewrite listAll_parse in Hc'.
      by apply parseConfigs_alias in Hc'.
Qed.

Lemma remove_status_witness :
  (Cmd.remove "glm" twoProfiles).2 = Exited 1
  ∧ (Cmd.remove "kimi" twoProfiles).2 = Returned
  ∧ lookupAlias "kimi" (Cmd.remove "kimi" twoProfiles).1 = None.
Proof.
  destruct (remove_status "glm" twoProfiles) as (_ & Hmissing & _).
  destruct (remove_status "kimi" twoProfiles) as (_ & _ & Hfound).
  destruct Hmissing as [Hexit _]; [discriminate|vm_compute; reflexivity|].
  destruct Hfound as [Hret Hgone];
    [discriminate|exists kimi; vm_compute; reflexivity|].
  split; [exact Hexit|]. split; [exact Hret|exact Hgone].
Defined.

(** X23. Add, use, remove: on a host where [~/.claude] exists, for a new
    alias, with an alias, a secret and a URL that are not empty and hold
    neither '|' nor a line break, [acm add] returns, [acm use] then returns
    and [getCurrentConfig] shows the new profile, [acm current] returns, and
    [acm remove] then returns, after which there is no pointer and the alias
    is not found. *)
Theorem add_use_remove (a t u : string) (ty : option string) (w : World)
  (Hdir : claudeDirExists w = true)
  (Ha : a ≠ "") (Ht : t ≠ "") (Hu : u ≠ "")
  (Hfresh : lookupAlias a w = None)
  (Hca : cleanField a) (Hct : cleanField t) (Hcu : cleanField u) :
  (Cmd.add a t u ty w).2 = Returned
  ∧ (Cmd.use a (Cmd.add a t u ty w).1).2 = Returned
  ∧ (∃ r, getCurrent (Cmd.use a (Cmd.add a t u ty w).1).1 = Some r
          ∧ current r
            = mkConfig (Some a) (Some "Claude") (Some t) (Some u)
                       (Some (Commands.determineKeyType u ty)))
  ∧ (Cmd.current (Cmd.use a (Cmd.add a t u ty w).1).1).2 = Returned
  ∧ (Cmd.remove a (Cmd.use a (Cmd.add a t u ty w).1).1).2 = Returned
  ∧ getCurrent (Cmd.remove a (Cmd.use a (Cmd.add a t u ty w).1).1).1 = None
  ∧ lookupAlias a (Cmd.remove a (Cmd.use a (Cmd.add a t u ty w).1).1).1 = None.
Proof.
  set (kind := Commands.determineKeyType u ty).
  set (r := mkConfig (Some a) (Some "Claude") (Some t) (Some u) (Some kind)).
  assert (Hk : orElse (Some kind) "TOKEN" = kind).
  { unfold kind. by destruct (determineKeyType_range u ty) as [-> | ->]. }
  assert (Hck : cleanField kind).
  { unfold kind. by destruct (determineKeyType_range u ty) as [-> | ->]. }
  (* add *)
  assert (Hadd : Cmd.add a t u ty w
                 = (state (addConfig a "Claude" t u (Some kind) w), Returned)
                 ∧ lookupAlias a (state (addConfig a "Claude" t u (Some kind) w))
                   = Some r).
  { pose proof Hfresh as Hf. rewrite lookupAlias_find in Hf.
    destruct (listAll_added a "Claude" t u (Some kind) w Hdir Hf)
      as [Hrun Hlist].
    split.
    - unfold Cmd.add. apply truthy_ne in Ha, Ht, Hu. rewrite Ha, Ht, Hu.
      cbn [negb orb]. fold kind. by rewrite Hrun.
    - rewrite lookupAlias_find, Hlist, findAlias_app, Hf, newLine_record, Hk;
        [|done|done|done|done|by rewrite Hk].
      unfold findAlias. cbn [List.find alias].
      by rewrite bool_decide_eq_true_2. }
  destruct Hadd as [-> Hstored]. cbn [fst snd].
  set (w1 := state (addConfig a "Claude" t u (Some kind) w)) in *.
  (* use *)
  rewrite (use_run a w1 r Ha Hstored). cbn [fst snd token r].
  destruct (setCurrentConfig_state r w1 (claudeDir_lookup a w1 r Hstored))
    as (w2 & Hrun & Hconf & Hcur & _).
  rewrite Hrun. unfold state at 1 2 3 4 5. cbn [fst].
  assert (Hpipe : pipeFreeConfig r).
  { unfold pipeFreeConfig, r. cbn [alias name token url type toStr].
    rewrite Hk. destruct Hca, Hct, Hcu, Hck. by repeat split. }
  assert (Hlook : lookupAlias a w2 = Some r).
  { rewrite lookupAlias_find, listAll_parse, Hconf, <-listAll_parse,
      <-lookupAlias_find. exact Hstored. }
  split; [reflexivity|]. split; [reflexivity|]. split; [|split; [|split; [|split]]].
  - eexists. split; [by apply getCurrent_pointer|]. cbn [current].
    unfold rendered, r. cbn [alias name token url type toStr]. by rewrite Hk.
  - destruct (current_run w2 _ Hcur) as [-> _].
    destruct (Str.split (renderConfig r) Str.pipe !! 2) eqn:E; [done|].
    apply lookup_ge_None_1 in E. pose proof (renderConfig_fields r). lia.
  - by rewrite remove_run, Hlook.
  - rewrite remove_run by done. cbn [fst].
    assert (Hgone : currentFile (state (removeConfig a w2)) = None).
    { apply (removeConfig_unlinks a w2 r).
      - by rewrite <-lookupAlias_find.
      - rewrite Hcur. unfold renderConfig, r. cbn [alias toStr]. eauto. }
    unfold getCurrent, getCurrentConfig. run. by rewrite Hgone.
  - rewrite remove_run by done. cbn [fst].
    rewrite lookupAlias_find in Hlook.
    rewrite lookupAlias_find, (listAll_removed a w2 r Hlook),
      findAlias_fmap_rendered.
    + by rewrite findAlias_filter_eq.
    + intros c' [_ Hc']%list_elem_of_filter. rewrite listAll_parse in Hc'.
      by apply parseConfigs_alias in Hc'.
Qed.

Lemma add_use_remove_witness :
  getCurrent (Cmd.remove "kimi"
                (Cmd.use "kimi"
                   (Cmd.add "kimi" "sk-xxx" "https://api.moonshot.cn/anthropic"
                            None emptyWorld).1).1).1 = None.
Proof.
  destruct (add_use_remove "kimi" "sk-xxx" "https://api.moonshot.cn/anthropic"
              None emptyWorld)
    as (_ & _ & _ & _ & _ & Hgone & _);
    [reflexivity|discriminate|discriminate|discriminate|vm_compute; reflexivity
    |split; vm_compute; reflexivity|split; vm_compute; reflexivity
    |split; vm_compute; reflexivity|].
  exact Hgone.
Defined.

(** X26. On a host without [~/.claude] the files of the manager cannot be
    made: [getAllConfigs], [getConfig], [addConfig], [removeConfig] and
    [setCurrentConfig] throw ENOENT and leave everything as it was, and
    [acm add], [acm use] and [acm remove] end with status 1 and change
    nothing.  [getCurrentConfig] returns nothing there, and [acm current]
    returns. *)
Theorem bare_host (w : World) (Hbare : claudeDirExists w = false) :
  getAllConfigs w = (w, Throw ENOENT)
  ∧ (∀ a, getConfig a w = (w, Throw ENOENT))
  ∧ (∀ a n t u kt, addConfig a n t u kt w = (w, Throw ENOENT))
  ∧ (∀ a, removeConfig a w = (w, Throw ENOENT))
  ∧ (∀ c, setCurrentConfig c w = (w, Throw ENOENT))
  ∧ (∀ a t u ty, Cmd.add a t u ty w = (w, Exited 1))
  ∧ (∀ a, Cmd.use a w = (w, Exited 1))
  ∧ (∀ a, Cmd.remove a w = (w, Exited 1))
  ∧ getCurrentConfig w = (w, Ok None)
  ∧ Cmd.current w = (w, Returned).
Proof.
  destruct (store_bare w Hbare) as (Hinit & Hconf & Hlist).
  assert (Hcur : currentFile w = None).
  { destruct (currentFile w) eqn:E; [|done].
    rewrite claudeDir_current in Hbare by (rewrite E; eauto). done. }
  assert (Hget : ∀ a, getConfig a w = (w, Throw ENOENT)).
  { intros a. by rewrite getConfig_run, Hinit, Hbare. }
  assert (Hadd : ∀ a n t u kt, addConfig a n t u kt w = (w, Throw ENOENT)).
  { intros a n t u kt. by rewrite addConfig_run, Hlist, Hbare. }
  assert (Hrem : ∀ a, removeConfig a w = (w, Throw ENOENT)).
  { intros a. by rewrite removeConfig_run, Hlist, Hinit, Hbare. }
  assert (Hnone : getCurrentConfig w = (w, Ok None)).
  { unfold getCurrentConfig. run. by rewrite Hcur. }
  split; [by rewrite getAllConfigs_run, Hinit, Hbare|].
  split; [exact Hget|]. split; [exact Hadd|]. split; [exact Hrem|].
  split; [intros c; by apply setCurrentConfig_bare|].
  split; [|split; [|split; [|split]]].
  - intros a t u ty. unfold Cmd.add. rewrite Hadd.
    by destruct (negb (Str.truthy a) || negb (Str.truthy t)
                 || negb (Str.truthy u)).
  - intros a. unfold Cmd.use. rewrite Hget. by destruct (negb (Str.truthy a)).
  - intros a. unfold Cmd.remove. rewrite Hrem.
    by destruct (negb (Str.truthy a)).
  - exact Hnone.
  - unfold Cmd.current. by rewrite Hnone.
Qed.

Lemma bare_host_witness :
  addConfig "kimi" "Claude" "sk-xxx" "https://api.moonshot.cn/anthropic" None
            bareHost = (bareHost, Throw ENOENT)
  ∧ setCurrentConfig kimi bareHost = (bareHost, Throw ENOENT)
  ∧ Cmd.use "kimi" bareHost = (bareHost, Exited 1).
Proof.
  destruct (bare_host bareHost) as (_ & _ & Hadd & _ & Hset & _ & Huse & _);
    [reflexivity|].
  split; [apply Hadd|]. split; [apply Hset|apply Huse].
Defined.
